(** * Truth or Meme: the room-coordination core

    A shallow embedding of the server of the repository: the table
    declarations of [shared/schema.ts], the storage layer of
    [server/storage.ts] and the WebSocket registry and HTTP routes of
    [server/routes.ts].

    Conventions of the model.
    - A table is the list of its rows in the order a [select] without
      [ORDER BY] returns them: an insert appends a row, and an update of
      [room_players] writes the new version of a row after the rows in
      place.  [rooms] is read by its primary key only.
    - [serial] columns draw their value from a per-table counter that
      starts at 1; an insert that the database refuses for a constraint has
      drawn its value all the same.  Primary keys, [unique] and [references]
      constraints are checked on every insert and update and make the
      statement throw.
    - The driver sends the parameters of a statement as text, and the
      database reads them at the type of the column: [text] and [int4] say
      what it binds, a text without a NUL byte and an integer within 32
      bits, and [int4in] is the integer it reads from a string.  The lookups
      by a serial id check the range themselves; for the other parameters a
      theorem about the outcome of a request states as a hypothesis that the
      database binds them.
    - Of the timestamp columns, [joinedAt] leaves the server inside the
      player_joined event: the text it is sent as is a variable of the
      development.  [createdAt] and [updatedAt] are left out of the rows: no
      route reads them.
    - A handler runs from its first to its last statement without being
      interleaved with another one.
    - Every call of the storage layer may fail for a reason of the
      environment (the database is reached over the network); the world
      carries the script of such faults.  A call that fails this way has
      not touched the database.
    - The six routes that write, [POST /api/users], [/api/rooms],
      [/api/rooms/:id/join], [/api/rooms/:id/start], [/api/submissions] and
      [/api/votes], are the requests of the transition system.  The three
      [GET] routes only read: they are functions of a world of their own,
      and [parseInt], a function of the runtime, is a variable of theirs.
    - [storage.deleteRoom], [leaveRoom] and [updatePlayerScore] are called
      by no route; their numeric arguments are integers.
    - The maps of the registry are modelled at their declared types,
      [Map<string, Set<WebSocket>>] and [Map<number, WebSocket>]; a socket is
      the number that identifies it. *)

From Stdlib Require Import ZArith String Ascii DecimalString List Sorted
  Permutation Bool Lia.
Import ListNotations.

Local Open Scope string_scope.
Local Open Scope Z_scope.
Local Open Scope list_scope.

(** ** JSON values: request bodies and broadcast messages *)

(** [JNum] carries the integer-valued numbers, the only ones the schemas
    accept. *)
Local Unset Elimination Schemes.

Inductive JValue : Type :=
| JUndefined
| JNull
| JBool (b : bool)
| JNum (z : Z)
| JStr (s : string)
| JObj (fields : list (string * JValue))
| JArr (items : list JValue).

Local Set Elimination Schemes.

Fixpoint assoc {A : Type} (k : string) (l : list (string * A)) : option A :=
  match l with
  | [] => None
  | (k', v) :: l' => if String.eqb k k' then Some v else assoc k l'
  end.

(** [body.k]: [undefined] when the property is absent. *)
Definition prop (k : string) (v : JValue) : JValue :=
  match v with
  | JObj fields => match assoc k fields with Some x => x | None => JUndefined end
  | _ => JUndefined
  end.

(** The keys of an object literal. *)
Definition keys (v : JValue) : list string :=
  match v with
  | JObj fields => map fst fields
  | _ => []
  end.

(** JavaScript truthiness, as tested by [!hostId]. *)
Definition truthy (v : JValue) : bool :=
  match v with
  | JUndefined | JNull => false
  | JBool b => b
  | JNum z => negb (z =? 0)
  | JStr s => negb (String.eqb s "")
  | JObj _ | JArr _ => true
  end.

(** [x === n] for a number [n] read from the database. *)
Definition strict_eq_num (x : JValue) (n : Z) : bool :=
  match x with
  | JNum z => z =? n
  | _ => false
  end.

(** ** Rows of [shared/schema.ts] *)

Module User.
Record t := mk { id : Z; username : string; displayName : string }.
End User.

Module Room.
Record t := mk {
  id : string;
  hostId : Z;
  status : string;               (* waiting, playing, finished *)
  currentPlayerId : option Z;
  currentRound : Z;
  maxRounds : Z }.
End Room.

Module RoomPlayer.
Record t := mk { id : Z; roomId : string; userId : Z; score : Z }.
End RoomPlayer.

Module GameSubmission.
Record t := mk {
  id : Z;
  roomId : string;
  playerId : Z;
  round : Z;
  phrase : string;
  actualType : string }.         (* truth or meme *)
End GameSubmission.

Module GameVote.
Record t := mk {
  id : Z;
  submissionId : Z;
  voterId : Z;
  guessedType : string;          (* truth or meme *)
  isCorrect : bool }.
End GameVote.

(** Values accepted by the insert schemas. *)

Module InsertUser.
Record t := mk { username : string; displayName : string }.
End InsertUser.

Module InsertRoom.
Record t := mk { id : string; maxRounds : option Z }.
End InsertRoom.

Module InsertGameSubmission.
Record t := mk {
  roomId : string;
  playerId : Z;
  round : Z;
  phrase : string;
  actualType : string }.
End InsertGameSubmission.

Module InsertGameVote.
Record t := mk {
  submissionId : Z;
  voterId : Z;
  guessedType : string;
  isCorrect : bool }.
End InsertGameVote.

(** [Partial<Room>], with the columns the routes update. *)
Module PartialRoom.
Record t := mk { status : option string; currentPlayerId : option (option Z) }.
End PartialRoom.

(** ** Exceptions and outcomes *)

Inductive Exn : Type :=
| ZodError        (* schema.parse rejected the body *)
| DbError         (* a constraint of the schema is violated *)
| IoError         (* the storage call failed in the environment *)
| TypeError.      (* a property of undefined or null was read *)

Inductive Outcome (A : Type) : Type :=
| Ret (a : A)
| Throw (e : Exn).

Arguments Ret {A} a.
Arguments Throw {A} e.

(** ** The insert schemas ([createInsertSchema(...).pick(...)]) *)

Definition insertUserSchema (body : JValue) : Outcome InsertUser.t :=
  match body with
  | JObj _ =>
      match prop "username" body, prop "displayName" body with
      | JStr u, JStr d => Ret (InsertUser.mk u d)
      | _, _ => Throw ZodError
      end
  | _ => Throw ZodError
  end.

Definition insertRoomSchema (body : JValue) : Outcome InsertRoom.t :=
  match body with
  | JObj _ =>
      match prop "id" body, prop "maxRounds" body with
      | JStr i, JNum m => Ret (InsertRoom.mk i (Some m))
      | JStr i, JUndefined => Ret (InsertRoom.mk i None)
      | _, _ => Throw ZodError
      end
  | _ => Throw ZodError
  end.

Definition insertGameSubmissionSchema (body : JValue)
  : Outcome InsertGameSubmission.t :=
  match body with
  | JObj _ =>
      match prop "roomId" body, prop "playerId" body, prop "round" body,
            prop "phrase" body, prop "actualType" body with
      | JStr r, JNum p, JNum n, JStr ph, JStr a =>
          Ret (InsertGameSubmission.mk r p n ph a)
      | _, _, _, _, _ => Throw ZodError
      end
  | _ => Throw ZodError
  end.

Definition insertGameVoteSchema (body : JValue) : Outcome InsertGameVote.t :=
  match body with
  | JObj _ =>
      match prop "submissionId" body, prop "voterId" body,
            prop "guessedType" body, prop "isCorrect" body with
      | JNum s, JNum v, JStr g, JBool c => Ret (InsertGameVote.mk s v g c)
      | _, _, _, _ => Throw ZodError
      end
  | _ => Throw ZodError
  end.

(** ** The database *)

Record Db := mkDb {
  users : list User.t;
  rooms : list Room.t;
  roomPlayers : list RoomPlayer.t;
  gameSubmissions : list GameSubmission.t;
  gameVotes : list GameVote.t;
  users_id_seq : Z;
  roomPlayers_id_seq : Z;
  gameSubmissions_id_seq : Z;
  gameVotes_id_seq : Z }.

Definition empty_db : Db := mkDb [] [] [] [] [] 1 1 1 1.

Definition user_exists (d : Db) (uid : Z) : bool :=
  existsb (fun u => User.id u =? uid) (users d).

Definition room_exists (d : Db) (rid : string) : bool :=
  existsb (fun r => String.eqb (Room.id r) rid) (rooms d).

Definition submission_exists (d : Db) (sid : Z) : bool :=
  existsb (fun s => GameSubmission.id s =? sid) (gameSubmissions d).

(** ** The parameters of a statement

    The driver sends every parameter as text and the database reads it at
    the type of the column, before it runs the statement. *)

(** A text the database accepts: no byte is NUL. *)
Fixpoint text (s : string) : bool :=
  match s with
  | EmptyString => true
  | String c rest => negb (Ascii.eqb c Ascii.zero) && text rest
  end.

(** An integer a 32-bit column holds. *)
Definition int4 (z : Z) : bool := (-2147483648 <=? z) && (z <=? 2147483647).

Definition digit (c : ascii) : option Z :=
  let n := Z.of_N (N_of_ascii c) in
  if (48 <=? n) && (n <=? 57) then Some (n - 48) else None.

Definition is_space (c : ascii) : bool :=
  let n := Z.of_N (N_of_ascii c) in
  (n =? 32) || ((9 <=? n) && (n <=? 13)).

Fixpoint skip_spaces (s : string) : string :=
  match s with
  | String c rest => if is_space c then skip_spaces rest else s
  | EmptyString => s
  end.

Fixpoint all_spaces (s : string) : bool :=
  match s with
  | String c rest => is_space c && all_spaces rest
  | EmptyString => true
  end.

(** Decimal digits, then white space to the end: [None] when there is no
    digit or something else follows. *)
Fixpoint digits_then_spaces (s : string) (acc : option Z) : option Z :=
  match s with
  | String c rest =>
      match digit c with
      | Some d =>
          digits_then_spaces rest
            (Some (10 * (match acc with Some a => a | None => 0 end) + d))
      | None => if all_spaces s then acc else None
      end
  | EmptyString => acc
  end.

(** The integer the database reads from a text bound to an integer column:
    white space, a sign, decimal digits, white space, within 32 bits. *)
Definition int4in (s : string) : option Z :=
  let number :=
    match skip_spaces s with
    | String "+"%char rest => digits_then_spaces rest None
    | String "-"%char rest => option_map Z.opp (digits_then_spaces rest None)
    | unsigned => digits_then_spaces unsigned None
    end in
  match number with
  | Some z => if int4 z then Some z else None
  | None => None
  end.

(** A value of the request body bound to an integer column without having
    gone through a schema ([hostId], [userId]): a number is sent as its
    digits, a string as it is, and what the database does not read as an
    integer makes the statement throw before it runs.  The routes answer 400
    to [null] and [undefined] before they reach a statement. *)
Definition int_param (v : JValue) : option Z :=
  match v with
  | JNum z => Some z
  | JStr s => int4in s
  | _ => None
  end.

(** A serial value drawn by an insert that the database then refuses, for a
    constraint of the table, is not given back. *)
Definition skip_users_id (d : Db) : Db :=
  mkDb (users d) (rooms d) (roomPlayers d) (gameSubmissions d) (gameVotes d)
       (users_id_seq d + 1) (roomPlayers_id_seq d) (gameSubmissions_id_seq d)
       (gameVotes_id_seq d).

Definition skip_roomPlayers_id (d : Db) : Db :=
  mkDb (users d) (rooms d) (roomPlayers d) (gameSubmissions d) (gameVotes d)
       (users_id_seq d) (roomPlayers_id_seq d + 1) (gameSubmissions_id_seq d)
       (gameVotes_id_seq d).

Definition skip_gameSubmissions_id (d : Db) : Db :=
  mkDb (users d) (rooms d) (roomPlayers d) (gameSubmissions d) (gameVotes d)
       (users_id_seq d) (roomPlayers_id_seq d) (gameSubmissions_id_seq d + 1)
       (gameVotes_id_seq d).

Definition skip_gameVotes_id (d : Db) : Db :=
  mkDb (users d) (rooms d) (roomPlayers d) (gameSubmissions d) (gameVotes d)
       (users_id_seq d) (roomPlayers_id_seq d) (gameSubmissions_id_seq d)
       (gameVotes_id_seq d + 1).

(** ** [DbStorage] *)

Module storage.

Definition getUserByUsername (username : string) (d : Db)
  : Outcome (option User.t) * Db :=
  (Ret (find (fun u => String.eqb (User.username u) username) (users d)), d).

Definition createUser (insertUser : InsertUser.t) (d : Db)
  : Outcome User.t * Db :=
  if existsb (fun u => String.eqb (User.username u) (InsertUser.username insertUser))
             (users d)
  then (Throw DbError, skip_users_id d)
  else
    let row := User.mk (users_id_seq d) (InsertUser.username insertUser)
                       (InsertUser.displayName insertUser) in
    (Ret row,
     mkDb (users d ++ [row]) (rooms d) (roomPlayers d) (gameSubmissions d)
          (gameVotes d) (users_id_seq d + 1) (roomPlayers_id_seq d)
          (gameSubmissions_id_seq d) (gameVotes_id_seq d)).

Definition createRoom (insertRoom : InsertRoom.t) (hostId : JValue) (d : Db)
  : Outcome Room.t * Db :=
  match int_param hostId with
  | None => (Throw DbError, d)
  | Some h =>
      if room_exists d (InsertRoom.id insertRoom) then (Throw DbError, d)
      else if negb (user_exists d h) then (Throw DbError, d)
      else
        let row := Room.mk (InsertRoom.id insertRoom) h "waiting" None 1
                     (match InsertRoom.maxRounds insertRoom with
                      | Some m => m
                      | None => 5
                      end) in
        (Ret row,
         mkDb (users d) (rooms d ++ [row]) (roomPlayers d) (gameSubmissions d)
              (gameVotes d) (users_id_seq d) (roomPlayers_id_seq d)
              (gameSubmissions_id_seq d) (gameVotes_id_seq d))
  end.

Definition getRoom (id : string) (d : Db) : Outcome (option Room.t) * Db :=
  (Ret (find (fun r => String.eqb (Room.id r) id) (rooms d)), d).

Definition apply_updates (updates : PartialRoom.t) (r : Room.t) : Room.t :=
  Room.mk (Room.id r) (Room.hostId r)
    (match PartialRoom.status updates with
     | Some s => s
     | None => Room.status r
     end)
    (match PartialRoom.currentPlayerId updates with
     | Some c => c
     | None => Room.currentPlayerId r
     end)
    (Room.currentRound r) (Room.maxRounds r).

Definition updateRoom (id : string) (updates : PartialRoom.t) (d : Db)
  : Outcome (option Room.t) * Db :=
  let hit := fun r => String.eqb (Room.id r) id in
  let fk_ok :=
    match PartialRoom.currentPlayerId updates with
    | Some (Some c) => user_exists d c
    | _ => true
    end in
  if existsb hit (rooms d) && negb fk_ok then (Throw DbError, d)
  else
    let rooms' :=
      map (fun r => if hit r then apply_updates updates r else r) (rooms d) in
    (Ret (find hit rooms'),
     mkDb (users d) rooms' (roomPlayers d) (gameSubmissions d)
          (gameVotes d) (users_id_seq d) (roomPlayers_id_seq d)
          (gameSubmissions_id_seq d) (gameVotes_id_seq d)).

Definition joinRoom (roomId : string) (userId : JValue) (d : Db)
  : Outcome RoomPlayer.t * Db :=
  match int_param userId with
  | None => (Throw DbError, d)
  | Some u =>
      if negb (room_exists d roomId) then (Throw DbError, skip_roomPlayers_id d)
      else if negb (user_exists d u) then (Throw DbError, skip_roomPlayers_id d)
      else
        let row := RoomPlayer.mk (roomPlayers_id_seq d) roomId u 0 in
        (Ret row,
         mkDb (users d) (rooms d) (roomPlayers d ++ [row]) (gameSubmissions d)
              (gameVotes d) (users_id_seq d) (roomPlayers_id_seq d + 1)
              (gameSubmissions_id_seq d) (gameVotes_id_seq d))
  end.

(** [roomPlayers INNER JOIN users ON userId = users.id WHERE roomId = ?] *)
Definition getRoomPlayers (roomId : string) (d : Db)
  : Outcome (list (RoomPlayer.t * User.t)) * Db :=
  (Ret (flat_map
          (fun p =>
             map (fun u => (p, u))
                 (filter (fun u => User.id u =? RoomPlayer.userId p) (users d)))
          (filter (fun p => String.eqb (RoomPlayer.roomId p) roomId)
                  (roomPlayers d))),
   d).

Definition createSubmission (submission : InsertGameSubmission.t) (d : Db)
  : Outcome GameSubmission.t * Db :=
  if negb (room_exists d (InsertGameSubmission.roomId submission))
  then (Throw DbError, skip_gameSubmissions_id d)
  else if negb (user_exists d (InsertGameSubmission.playerId submission))
  then (Throw DbError, skip_gameSubmissions_id d)
  else
    let row := GameSubmission.mk (gameSubmissions_id_seq d)
                 (InsertGameSubmission.roomId submission)
                 (InsertGameSubmission.playerId submission)
                 (InsertGameSubmission.round submission)
                 (InsertGameSubmission.phrase submission)
                 (InsertGameSubmission.actualType submission) in
    (Ret row,
     mkDb (users d) (rooms d) (roomPlayers d) (gameSubmissions d ++ [row])
          (gameVotes d) (users_id_seq d) (roomPlayers_id_seq d)
          (gameSubmissions_id_seq d + 1) (gameVotes_id_seq d)).

Definition getSubmission (roomId : string) (round : Z) (d : Db)
  : Outcome (option GameSubmission.t) * Db :=
  (Ret (find (fun s => String.eqb (GameSubmission.roomId s) roomId
                       && (GameSubmission.round s =? round))
             (gameSubmissions d)),
   d).

Definition createVote (vote : InsertGameVote.t) (d : Db)
  : Outcome GameVote.t * Db :=
  if negb (submission_exists d (InsertGameVote.submissionId vote))
  then (Throw DbError, skip_gameVotes_id d)
  else if negb (user_exists d (InsertGameVote.voterId vote))
  then (Throw DbError, skip_gameVotes_id d)
  else
    let row := GameVote.mk (gameVotes_id_seq d)
                 (InsertGameVote.submissionId vote)
                 (InsertGameVote.voterId vote)
                 (InsertGameVote.guessedType vote)
                 (InsertGameVote.isCorrect vote) in
    (Ret row,
     mkDb (users d) (rooms d) (roomPlayers d) (gameSubmissions d)
          (gameVotes d ++ [row]) (users_id_seq d) (roomPlayers_id_seq d)
          (gameSubmissions_id_seq d) (gameVotes_id_seq d + 1)).

Definition hasUserVoted (submissionId voterId : Z) (d : Db)
  : Outcome bool * Db :=
  (Ret (existsb (fun v => (GameVote.submissionId v =? submissionId)
                          && (GameVote.voterId v =? voterId))
                (gameVotes d)),
   d).

(** A JavaScript number bound to an integer column: [None] is [NaN]; the
    database refuses it, and a number outside 32 bits. *)
Definition getUser (id : option Z) (d : Db) : Outcome (option User.t) * Db :=
  match id with
  | None => (Throw DbError, d)
  | Some n =>
      if int4 n then (Ret (find (fun u => User.id u =? n) (users d)), d)
      else (Throw DbError, d)
  end.

(** [delete from rooms where id = ?]: the rows of [room_players] and
    [game_submissions] that reference the room make the statement throw. *)
Definition deleteRoom (id : string) (d : Db) : Outcome unit * Db :=
  let hit := fun r => String.eqb (Room.id r) id in
  let referenced :=
    existsb (fun p => String.eqb (RoomPlayer.roomId p) id) (roomPlayers d)
    || existsb (fun s => String.eqb (GameSubmission.roomId s) id)
               (gameSubmissions d) in
  if existsb hit (rooms d) && referenced then (Throw DbError, d)
  else
    (Ret tt,
     mkDb (users d) (filter (fun r => negb (hit r)) (rooms d)) (roomPlayers d)
          (gameSubmissions d) (gameVotes d) (users_id_seq d)
          (roomPlayers_id_seq d) (gameSubmissions_id_seq d)
          (gameVotes_id_seq d)).

Definition leaveRoom (roomId : string) (userId : Z) (d : Db)
  : Outcome unit * Db :=
  (Ret tt,
   mkDb (users d) (rooms d)
        (filter (fun p => negb (String.eqb (RoomPlayer.roomId p) roomId
                                && (RoomPlayer.userId p =? userId)))
                (roomPlayers d))
        (gameSubmissions d) (gameVotes d) (users_id_seq d)
        (roomPlayers_id_seq d) (gameSubmissions_id_seq d) (gameVotes_id_seq d)).


(** [gameVotes INNER JOIN users ON voterId = users.id WHERE submissionId = ?] *)
Definition getVotes (submissionId : option Z) (d : Db)
  : Outcome (list (GameVote.t * User.t)) * Db :=
  match submissionId with
  | None => (Throw DbError, d)
  | Some n =>
      if int4 n then
        (Ret (flat_map
                (fun v =>
                   map (fun u => (v, u))
                       (filter (fun u => User.id u =? GameVote.voterId v)
                               (users d)))
                (filter (fun v => GameVote.submissionId v =? n)
                        (gameVotes d))),
         d)
      else (Throw DbError, d)
  end.

End storage.

(** [const { k } = req.body] *)
Definition destructure (k : string) (body : JValue) : Outcome JValue :=
  match body with
  | JUndefined | JNull => Throw TypeError
  | _ => Ret (prop k body)
  end.

(** ** Live connections *)

Definition WebSocket := nat.

Inductive ReadyState : Type := CONNECTING | OPEN | CLOSING | CLOSED.

Definition is_open (s : ReadyState) : bool :=
  match s with
  | OPEN => true
  | _ => false
  end.

(** A JavaScript [Map]: the entries in insertion order, one per key; [set]
    on a key that is present keeps its place. *)
Section JsMap.
Context {K V : Type} (eqb : K -> K -> bool).

Fixpoint Map_get (k : K) (m : list (K * V)) : option V :=
  match m with
  | [] => None
  | (k', v) :: m' => if eqb k k' then Some v else Map_get k m'
  end.

Definition Map_has (k : K) (m : list (K * V)) : bool :=
  match Map_get k m with
  | Some _ => true
  | None => false
  end.

Fixpoint Map_set (k : K) (v : V) (m : list (K * V)) : list (K * V) :=
  match m with
  | [] => [(k, v)]
  | (k', v') :: m' =>
      if eqb k k' then (k', v) :: m' else (k', v') :: Map_set k v m'
  end.

Fixpoint Map_delete (k : K) (m : list (K * V)) : list (K * V) :=
  match m with
  | [] => []
  | (k', v') :: m' => if eqb k k' then m' else (k', v') :: Map_delete k m'
  end.
End JsMap.

(** A JavaScript [Set] of connections, in insertion order. *)
Definition Set_has (ws : WebSocket) (s : list WebSocket) : bool :=
  existsb (Nat.eqb ws) s.

Definition Set_add (ws : WebSocket) (s : list WebSocket) : list WebSocket :=
  if Set_has ws s then s else s ++ [ws].

Definition Set_delete (ws : WebSocket) (s : list WebSocket) : list WebSocket :=
  filter (fun x => negb (Nat.eqb ws x)) s.

(** What the process does to the outside: the calls of [JSON.stringify], the
    frames handed to [ws.send] and the lines of [console.error]. *)
Inductive Effect : Type :=
| Stringified (message : JValue)
| Sent (ws : WebSocket) (data : string)
| ConsoleError.

Record World := mkWorld {
  db : Db;
  roomConnections : list (string * list WebSocket);
  userConnections : list (Z * WebSocket);
  readyState : WebSocket -> ReadyState;
  trace : list Effect;
  faults : list bool }.

Definition initial_world : World :=
  mkWorld empty_db [] [] (fun _ => CONNECTING) [] [].

Definition set_db (d : Db) (w : World) : World :=
  mkWorld d (roomConnections w) (userConnections w) (readyState w) (trace w)
          (faults w).

Definition set_roomConnections (rc : list (string * list WebSocket)) (w : World)
  : World :=
  mkWorld (db w) rc (userConnections w) (readyState w) (trace w) (faults w).

Definition set_userConnections (uc : list (Z * WebSocket)) (w : World) : World :=
  mkWorld (db w) (roomConnections w) uc (readyState w) (trace w) (faults w).

Definition set_readyState (ws : WebSocket) (s : ReadyState) (w : World) : World :=
  mkWorld (db w) (roomConnections w) (userConnections w)
          (fun x => if Nat.eqb x ws then s else readyState w x) (trace w)
          (faults w).

Definition set_faults (fs : list bool) (w : World) : World :=
  mkWorld (db w) (roomConnections w) (userConnections w) (readyState w)
          (trace w) fs.

Definition emit (e : Effect) (w : World) : World :=
  mkWorld (db w) (roomConnections w) (userConnections w) (readyState w)
          (trace w ++ [e]) (faults w).

(** ** Handlers: state and exceptions *)

Definition M (A : Type) : Type := World -> Outcome A * World.

Definition ret {A : Type} (a : A) : M A := fun w => (Ret a, w).

Definition throw {A : Type} (e : Exn) : M A := fun w => (Throw e, w).

Definition bind {A B : Type} (m : M A) (k : A -> M B) : M B :=
  fun w =>
    match m w with
    | (Ret a, w') => k a w'
    | (Throw e, w') => (Throw e, w')
    end.

Declare Scope handler_scope.
Delimit Scope handler_scope with handler.
Notation "x <- m ;; k" := (bind m (fun x => k))
  (at level 61, m at next level, right associativity) : handler_scope.
Notation "m ;;; k" := (bind m (fun _ => k))
  (at level 61, right associativity) : handler_scope.

(** A value computed without touching the world. *)
Definition pure {A : Type} (o : Outcome A) : M A := fun w => (o, w).

(** [await storage.op(...)]: the head of the fault script, when there is
    one, says whether the call fails before it reaches the database. *)
Definition await {A : Type} (op : Db -> Outcome A * Db) : M A :=
  fun w =>
    let w1 := set_faults (tl (faults w)) w in
    if hd false (faults w) then (Throw IoError, w1)
    else let (r, d) := op (db w) in (r, set_db d w1).

(** ** Responses *)

Inductive Body : Type :=
| error (message : string)
| a_user (u : User.t)
| a_room (r : option Room.t)
| a_roomPlayer (p : RoomPlayer.t)
| a_submission (s : GameSubmission.t)
| a_vote (v : GameVote.t).

Record Response := mkResponse { statusCode : Z; sent_body : Body }.

(** [res.json(b)] and [res.status(c).json({ error })]. *)
Definition json (b : Body) : Response := mkResponse 200 b.
Definition fail (c : Z) (message : string) : Response := mkResponse c (error message).

Definition is_error (r : Response) : bool :=
  match sent_body r with
  | error _ => true
  | _ => false
  end.

(** [try { body } catch (error) { handler }] *)
Definition try_catch (body : M Response) (handler : Response)
  : World -> Response * World :=
  fun w =>
    match body w with
    | (Ret r, w') => (r, w')
    | (Throw _, w') => (handler, w')
    end.

(** The errors of the coordinator, by the names the specification gives them. *)
Definition UsernameTaken : Response := fail 400 "Username already taken".
Definition RoomNotFound : Response := fail 404 "Room not found".
Definition GameAlreadyStarted : Response := fail 400 "Game already in progress".
Definition Forbidden : Response := fail 403 "Only host can start the game".
Definition InsufficientPlayers : Response :=
  fail 400 "Need at least 2 players to start".
Definition NotYourTurn : Response := fail 400 "Not your turn".
Definition AlreadyVoted : Response := fail 400 "Already voted".

(** A RoomPlayer row as it appears inside a broadcast message: the columns
    in the order of the table, the time of the join as the text
    [JSON.stringify] writes for a [Date]. *)
Definition RoomPlayer_json (joinedAt : string) (p : RoomPlayer.t) : JValue :=
  JObj [("id", JNum (RoomPlayer.id p));
        ("roomId", JStr (RoomPlayer.roomId p));
        ("userId", JNum (RoomPlayer.userId p));
        ("score", JNum (RoomPlayer.score p));
        ("joinedAt", JStr joinedAt)].

(** Messages received on a socket, after [JSON.parse]. *)
Inductive Message : Type :=
| malformed                                   (* JSON.parse throws *)
| join_room (roomId : string) (userId : Z)    (* data.type === 'join_room' *)
| other_message.                              (* any other value *)

(** A serializer to run the server on: JSON text, without escapes. *)
Fixpoint json_text (v : JValue) : string :=
  let quote := String (ascii_of_nat 34) EmptyString in
  match v with
  | JUndefined | JNull => "null"
  | JBool true => "true"
  | JBool false => "false"
  | JNum z => NilZero.string_of_int (Z.to_int z)
  | JStr s => (quote ++ s ++ quote)%string
  | JObj fields =>
      ("{" ++
       (fix members (l : list (string * JValue)) : string :=
          match l with
          | [] => ""
          | [(k, x)] => quote ++ k ++ quote ++ ":" ++ json_text x
          | (k, x) :: l' =>
              quote ++ k ++ quote ++ ":" ++ json_text x ++ "," ++ members l'
          end) fields ++
       "}")%string
  | JArr items =>
      ("[" ++
       (fix elements (l : list JValue) : string :=
          match l with
          | [] => ""
          | [x] => json_text x
          | x :: l' => json_text x ++ "," ++ elements l'
          end) items ++
       "]")%string
  end.

(** A clock to run the server on: every row is inserted at the same time. *)
Definition at_midnight (p : RoomPlayer.t) : string :=
  "2024-01-01T00:00:00.000Z".

Local Open Scope handler_scope.

Section Server.

(** [JSON.stringify], the serializer of the runtime. *)
Variable JSON_stringify : JValue -> string.

(** The time [new Date()] gave when a RoomPlayer row was inserted, as the
    row returned by the insert carries it. *)
Variable joinedAt : RoomPlayer.t -> string.

(** ** The connection registry *)

(** One step of [connections.forEach]. *)
Definition send_if_open (messageStr : string) (w : World) (ws : WebSocket)
  : World :=
  if is_open (readyState w ws) then emit (Sent ws messageStr) w else w.

Definition broadcastToRoom (roomId : string) (message : JValue) (w : World)
  : World :=
  match Map_get String.eqb roomId (roomConnections w) with
  | Some connections =>
      let messageStr := JSON_stringify message in
      fold_left (send_if_open messageStr) connections
                (emit (Stringified message) w)
  | None => w
  end.

Definition broadcast (roomId : string) (message : JValue) : M unit :=
  fun w => (Ret tt, broadcastToRoom roomId message w).

(** [ws.on('message', ...)] *)
Definition on_message (ws : WebSocket) (message : Message) (w : World) : World :=
  match message with
  | malformed => emit ConsoleError w
  | join_room roomId userId =>
      let w1 :=
        if negb (Map_has String.eqb roomId (roomConnections w))
        then set_roomConnections
               (Map_set String.eqb roomId [] (roomConnections w)) w
        else w in
      let w2 :=
        match Map_get String.eqb roomId (roomConnections w1) with
        | Some connections =>
            set_roomConnections
              (Map_set String.eqb roomId (Set_add ws connections)
                       (roomConnections w1)) w1
        | None => w1
        end in
      let w3 :=
        set_userConnections (Map_set Z.eqb userId ws (userConnections w2)) w2 in
      broadcastToRoom roomId
        (JObj [("type", JStr "user_joined"); ("userId", JNum userId)]) w3
  | other_message => w
  end.

(** The first loop of [ws.on('close', ...)], over the entries of
    [roomConnections]: the socket leaves the set, and a set left empty is
    deleted from the map. *)
Definition leave_rooms (ws : WebSocket) (rc : list (string * list WebSocket))
  : list (string * list WebSocket) :=
  fold_left
    (fun (m : list (string * list WebSocket)) (entry : string * list WebSocket) =>
       let (roomId, connections) := entry in
       let connections := Set_delete ws connections in
       if Nat.eqb (length connections) 0 then Map_delete String.eqb roomId m
       else Map_set String.eqb roomId connections m)
    rc rc.

(** The second loop, over the entries of [userConnections]: the first user
    whose connection is the socket is deleted, then [break]. *)
Definition unbind_user (ws : WebSocket) (uc : list (Z * WebSocket))
  : list (Z * WebSocket) :=
  match find (fun entry : Z * WebSocket => Nat.eqb (snd entry) ws) uc with
  | Some (userId, _) => Map_delete Z.eqb userId uc
  | None => uc
  end.

(** [ws.on('close', ...)] *)
Definition on_close (ws : WebSocket) (w : World) : World :=
  set_userConnections (unbind_user ws (userConnections w))
    (set_roomConnections (leave_rooms ws (roomConnections w)) w).

(** ** The routes *)

(** [POST /api/users] *)
Definition post_users (body : JValue) : World -> Response * World :=
  try_catch
    (userData <- pure (insertUserSchema body) ;;
     existingUser <-
       await (storage.getUserByUsername (InsertUser.username userData)) ;;
     match existingUser with
     | Some _ => ret UsernameTaken
     | None =>
         user <- await (storage.createUser userData) ;;
         ret (json (a_user user))
     end)
    (fail 400 "Invalid user data").

(** [POST /api/rooms] *)
Definition post_rooms (body : JValue) : World -> Response * World :=
  try_catch
    (roomData <- pure (insertRoomSchema body) ;;
     hostId <- pure (destructure "hostId" body) ;;
     if negb (truthy hostId) then ret (fail 400 "Host ID is required")
     else
       room <- await (storage.createRoom roomData hostId) ;;
       (* Auto-join the host to the room *)
       await (storage.joinRoom (Room.id room) hostId) ;;;
       ret (json (a_room (Some room))))
    (fail 400 "Invalid room data").

(** [POST /api/rooms/:id/join] *)
Definition post_rooms_join (roomId : string) (body : JValue)
  : World -> Response * World :=
  try_catch
    (userId <- pure (destructure "userId" body) ;;
     if negb (truthy userId) then ret (fail 400 "User ID is required")
     else
       room <- await (storage.getRoom roomId) ;;
       match room with
       | None => ret RoomNotFound
       | Some room =>
           if negb (String.eqb (Room.status room) "waiting")
           then ret GameAlreadyStarted
           else
             roomPlayer <- await (storage.joinRoom roomId userId) ;;
             (* Broadcast to room that user joined *)
             broadcast roomId
               (JObj [("type", JStr "player_joined");
                      ("player",
                       RoomPlayer_json (joinedAt roomPlayer) roomPlayer)]) ;;;
             ret (json (a_roomPlayer roomPlayer))
       end)
    (fail 400 "Failed to join room").

(** [POST /api/rooms/:id/start] *)
Definition post_rooms_start (roomId : string) (body : JValue)
  : World -> Response * World :=
  try_catch
    (hostId <- pure (destructure "hostId" body) ;;
     room <- await (storage.getRoom roomId) ;;
     match room with
     | None => ret RoomNotFound
     | Some room =>
         if negb (strict_eq_num hostId (Room.hostId room)) then ret Forbidden
         else
           players <- await (storage.getRoomPlayers roomId) ;;
           if Nat.ltb (length players) 2 then ret InsufficientPlayers
           else
             match players with
             | [] => throw TypeError
             | first :: _ =>
                 (* Start the game - set first player as current *)
                 updatedRoom <-
                   await (storage.updateRoom roomId
                            (PartialRoom.mk
                               (Some "playing")
                               (Some (Some (RoomPlayer.userId (fst first)))))) ;;
                 (* Broadcast game started *)
                 broadcast roomId
                   (JObj [("type", JStr "game_started");
                          ("currentPlayerId",
                           JNum (RoomPlayer.userId (fst first)))]) ;;;
                 ret (json (a_room updatedRoom))
             end
     end)
    (fail 500 "Failed to start game").

(** [room.currentPlayerId !== submissionData.playerId] *)
Definition not_current_player (room : Room.t) (playerId : Z) : bool :=
  match Room.currentPlayerId room with
  | Some c => negb (c =? playerId)
  | None => true
  end.

(** [POST /api/submissions] *)
Definition post_submissions (body : JValue) : World -> Response * World :=
  try_catch
    (submissionData <- pure (insertGameSubmissionSchema body) ;;
     room <- await (storage.getRoom (InsertGameSubmission.roomId submissionData)) ;;
     match room with
     | None => ret RoomNotFound
     | Some room =>
         if not_current_player room (InsertGameSubmission.playerId submissionData)
         then ret NotYourTurn
         else
           submission <- await (storage.createSubmission submissionData) ;;
           (* Broadcast submission to room for voting *)
           broadcast (InsertGameSubmission.roomId submissionData)
             (JObj [("type", JStr "new_submission");
                    ("submission",
                     JObj [("id", JNum (GameSubmission.id submission));
                           ("phrase", JStr (GameSubmission.phrase submission));
                           ("round", JNum (GameSubmission.round submission));
                           ("playerId",
                            JNum (GameSubmission.playerId submission))])]) ;;;
           ret (json (a_submission submission))
     end)
    (fail 400 "Invalid submission data").

(** [POST /api/votes] *)
Definition post_votes (body : JValue) : World -> Response * World :=
  try_catch
    (voteData <- pure (insertGameVoteSchema body) ;;
     (* Check if user already voted *)
     hasVoted <-
       await (storage.hasUserVoted (InsertGameVote.submissionId voteData)
                                   (InsertGameVote.voterId voteData)) ;;
     if (hasVoted : bool) then ret AlreadyVoted
     else
       vote <- await (storage.createVote voteData) ;;
       ret (json (a_vote vote)))
    (fail 400 "Invalid vote data").

(** ** The server as a transition system *)

Inductive Request : Type :=
| POST_users (body : JValue)
| POST_rooms (body : JValue)
| POST_rooms_join (id : string) (body : JValue)
| POST_rooms_start (id : string) (body : JValue)
| POST_submissions (body : JValue)
| POST_votes (body : JValue).

Definition route (req : Request) : World -> Response * World :=
  match req with
  | POST_users b => post_users b
  | POST_rooms b => post_rooms b
  | POST_rooms_join id b => post_rooms_join id b
  | POST_rooms_start id b => post_rooms_start id b
  | POST_submissions b => post_submissions b
  | POST_votes b => post_votes b
  end.

(** What happens to the process: a request, a frame on a socket, a socket
    changing state (the close handler runs when it reaches [CLOSED]), and
    the environment scheduling the faults of the storage calls to come. *)
Inductive Input : Type :=
| http (req : Request)
| ws_message (ws : WebSocket) (message : Message)
| ws_state (ws : WebSocket) (s : ReadyState)
| storage_faults (fs : list bool).

Definition step (w : World) (i : Input) : World :=
  match i with
  | http req => snd (route req w)
  | ws_message ws message => on_message ws message w
  | ws_state ws CLOSED => on_close ws (set_readyState ws CLOSED w)
  | ws_state ws s => set_readyState ws s w
  | storage_faults fs => set_faults fs w
  end.

Definition run (w : World) (inputs : list Input) : World :=
  fold_left step inputs w.

Definition reachable (w : World) : Prop :=
  exists inputs, run initial_world inputs = w.

(** * Vocabulary of the specification

    The words the properties below are stated with.  None of them is part
    of the server. *)

(** [wp m w Q]: running [m] from [w] ends in an outcome and a world that
    satisfy [Q]. *)
Definition wp {A : Type} (m : M A) (w : World)
           (Q : Outcome A -> World -> Prop) : Prop :=
  Q (fst (m w)) (snd (m w)).

(** The frames of one [forEach]: one per open socket of the set, in the
    order of the set. *)
Definition frames (messageStr : string) (state : WebSocket -> ReadyState)
           (connections : list WebSocket) : list Effect :=
  map (fun ws => Sent ws messageStr)
      (filter (fun ws => is_open (state ws)) connections).

(** The effects of a broadcast, as a list. *)
Definition broadcast_log (roomId : string) (message : JValue) (w : World)
  : list Effect :=
  match Map_get String.eqb roomId (roomConnections w) with
  | Some connections =>
      Stringified message
        :: frames (JSON_stringify message) (readyState w) connections
  | None => []
  end.

(** The sockets of a room's broadcast set. *)
Definition members (roomId : string) (w : World) : list WebSocket :=
  match Map_get String.eqb roomId (roomConnections w) with
  | Some connections => connections
  | None => []
  end.

(** The number of calls of [JSON.stringify] in a log. *)
Definition stringify_calls (log : list Effect) : nat :=
  length (filter (fun e => match e with Stringified _ => true | _ => false end)
                 log).

(** The event that announces a socket to a room. *)
Definition user_joined (userId : Z) : JValue :=
  JObj [("type", JStr "user_joined"); ("userId", JNum userId)].

(** What [storage.getUserByUsername] and [storage.getRoom] return. *)
Definition find_user (username : string) (d : Db) : option User.t :=
  find (fun u => String.eqb (User.username u) username) (users d).

Definition find_room (id : string) (d : Db) : option Room.t :=
  find (fun r => String.eqb (Room.id r) id) (rooms d).

(** The RoomPlayer rows of a room, in the order of the table. *)
Definition joined (roomId : string) (d : Db) : list RoomPlayer.t :=
  filter (fun p => String.eqb (RoomPlayer.roomId p) roomId) (roomPlayers d).

(** What [storage.getRoomPlayers] returns: the rows of [joined], each with
    its user. *)
Definition players_of (roomId : string) (d : Db)
  : list (RoomPlayer.t * User.t) :=
  flat_map
    (fun p =>
       map (fun u => (p, u))
           (filter (fun u => User.id u =? RoomPlayer.userId p) (users d)))
    (joined roomId d).

(** What [storage.hasUserVoted] returns. *)
Definition has_voted (submissionId voterId : Z) (d : Db) : bool :=
  existsb (fun v => (GameVote.submissionId v =? submissionId)
                    && (GameVote.voterId v =? voterId))
          (gameVotes d).

(** The five tables of [d'] are those of [d]; the serial counters may
    differ. *)
Definition same_tables (d d' : Db) : Prop :=
  users d' = users d /\ rooms d' = rooms d /\ roomPlayers d' = roomPlayers d
  /\ gameSubmissions d' = gameSubmissions d /\ gameVotes d' = gameVotes d.

(** The writes a route can make. *)
Inductive write : Db -> Db -> Prop :=
| write_createUser insertUser d :
    write d (snd (storage.createUser insertUser d))
| write_createRoom insertRoom hostId d :
    write d (snd (storage.createRoom insertRoom hostId d))
| write_joinRoom roomId userId d :
    write d (snd (storage.joinRoom roomId userId d))
| write_start roomId p d :
    In p (players_of roomId d) ->
    write d (snd (storage.updateRoom roomId
                    (PartialRoom.mk (Some "playing")
                                    (Some (Some (RoomPlayer.userId (fst p)))))
                    d))
| write_createSubmission submission d :
    write d (snd (storage.createSubmission submission d))
| write_createVote vote d :
    write d (snd (storage.createVote vote d)).

(** A sequence of writes. *)
Inductive writes : Db -> Db -> Prop :=
| writes_done d : writes d d
| writes_more d1 d2 d3 : write d1 d2 -> writes d2 d3 -> writes d1 d3.

(** What every database the server can reach satisfies: user ids are
    unique and below the counter, every RoomPlayer row has its user, the
    RoomPlayer rows carry increasing serial numbers in the order of the
    table, and a room is waiting or playing. *)
Record wf_db (d : Db) : Prop := {
  wf_users_id : forall u, In u (users d) -> User.id u < users_id_seq d;
  wf_users_unique : NoDup (map User.id (users d));
  wf_players_user :
    forall p, In p (roomPlayers d) ->
              user_exists d (RoomPlayer.userId p) = true;
  wf_players_id :
    forall p, In p (roomPlayers d) -> RoomPlayer.id p < roomPlayers_id_seq d;
  wf_players_order : StronglySorted Z.lt (map RoomPlayer.id (roomPlayers d));
  wf_status :
    forall r, In r (rooms d) ->
              Room.status r = "waiting" \/ Room.status r = "playing" }.

(** The event that announces the start of a game. *)
Definition game_started (currentPlayerId : Z) : JValue :=
  JObj [("type", JStr "game_started");
        ("currentPlayerId", JNum currentPlayerId)].

(** The room after a start with [first] as the player of the turn. *)
Definition started (room : Room.t) (first : RoomPlayer.t) : Room.t :=
  Room.mk (Room.id room) (Room.hostId room) "playing"
          (Some (RoomPlayer.userId first)) (Room.currentRound room)
          (Room.maxRounds room).


(** The row an insert of [vote] creates in [d]. *)
Definition new_vote (vote : InsertGameVote.t) (d : Db) : GameVote.t :=
  GameVote.mk (gameVotes_id_seq d) (InsertGameVote.submissionId vote)
              (InsertGameVote.voterId vote) (InsertGameVote.guessedType vote)
              (InsertGameVote.isCorrect vote).

(** A vote on a pair: some stored row has this submission and this voter. *)
Definition prior_vote (submissionId voterId : Z) (d : Db) : Prop :=
  exists v, In v (gameVotes d)
            /\ GameVote.submissionId v = submissionId
            /\ GameVote.voterId v = voterId.

(** The row an insert of [submission] creates in [d]. *)
Definition new_row (submission : InsertGameSubmission.t) (d : Db)
  : GameSubmission.t :=
  GameSubmission.mk (gameSubmissions_id_seq d)
                    (InsertGameSubmission.roomId submission)
                    (InsertGameSubmission.playerId submission)
                    (InsertGameSubmission.round submission)
                    (InsertGameSubmission.phrase submission)
                    (InsertGameSubmission.actualType submission).

(** The event that announces a submission. *)
Definition new_submission (s : GameSubmission.t) : JValue :=
  JObj [("type", JStr "new_submission");
        ("submission",
         JObj [("id", JNum (GameSubmission.id s));
               ("phrase", JStr (GameSubmission.phrase s));
               ("round", JNum (GameSubmission.round s));
               ("playerId", JNum (GameSubmission.playerId s))])].

(** The submissions stored for a room and a round. *)
Definition submissions_for (roomId : string) (round : Z) (d : Db)
  : list GameSubmission.t :=
  filter (fun s => String.eqb (GameSubmission.roomId s) roomId
                   && (GameSubmission.round s =? round))
         (gameSubmissions d).

(** The rows the two inserts of CreateRoom create. *)
Definition new_room (insertRoom : InsertRoom.t) (hostId : Z) : Room.t :=
  Room.mk (InsertRoom.id insertRoom) hostId "waiting" None 1
          (match InsertRoom.maxRounds insertRoom with
           | Some m => m
           | None => 5
           end).

Definition new_player (roomId : string) (userId : Z) (d : Db) : RoomPlayer.t :=
  RoomPlayer.mk (roomPlayers_id_seq d) roomId userId 0.

(** The entries of a user in the map of user connections. *)
Definition bindings_of (userId : Z) (w : World) : list (Z * WebSocket) :=
  filter (fun e : Z * WebSocket => fst e =? userId) (userConnections w).

(** * The routes that read *)

(** What a read route answers. *)
Inductive Found : Type :=
| not_ok (message : string)
| the_user (u : User.t)
| room_with_players (room : Room.t) (players : list (RoomPlayer.t * User.t))
| the_votes (votes : list (GameVote.t * User.t)).

Record Reply := mkReply { replyCode : Z; found : Found }.

(** [try { body } catch (error) { handler }] for a read route. *)
Definition try_reading (body : M Reply) (handler : Reply)
  : World -> Reply * World :=
  fun w =>
    match body w with
    | (Ret r, w') => (r, w')
    | (Throw _, w') => (handler, w')
    end.

Section Reads.

(** [parseInt], the function of the runtime; [None] is [NaN]. *)
Variable parseInt : string -> option Z.

(** [GET /api/users/:id] *)
Definition get_user (id : string) : World -> Reply * World :=
  try_reading
    (let userId := parseInt id in
     user <- await (storage.getUser userId) ;;
     match user with
     | None => ret (mkReply 404 (not_ok "User not found"))
     | Some user => ret (mkReply 200 (the_user user))
     end)
    (mkReply 500 (not_ok "Internal Server Error")).

(** [GET /api/submissions/:id/votes] *)
Definition get_votes (id : string) : World -> Reply * World :=
  try_reading
    (let submissionId := parseInt id in
     votes <- await (storage.getVotes submissionId) ;;
     ret (mkReply 200 (the_votes votes)))
    (mkReply 500 (not_ok "Internal Server Error")).

End Reads.

(** [parseInt] on the strings that do not start with white space, a sign or
    [0x]: the number written by the longest prefix of decimal digits, and
    [NaN] when the string starts with no digit. *)
Fixpoint leading_digits (s : string) (acc : option Z) : option Z :=
  match s with
  | String c rest =>
      match digit c with
      | Some d =>
          leading_digits rest
            (Some (10 * (match acc with Some a => a | None => 0 end) + d))
      | None => acc
      end
  | EmptyString => acc
  end.

Definition parseInt_unsigned (s : string) : option Z := leading_digits s None.

(** [GET /api/rooms/:id] *)
Definition get_room (roomId : string) : World -> Reply * World :=
  try_reading
    (room <- await (storage.getRoom roomId) ;;
     match room with
     | None => ret (mkReply 404 (not_ok "Room not found"))
     | Some room =>
         players <- await (storage.getRoomPlayers roomId) ;;
         ret (mkReply 200 (room_with_players room players))
     end)
    (mkReply 500 (not_ok "Internal Server Error")).

(** * More vocabulary *)

(** The map of rooms without a socket, entry by entry: what the first loop
    of the close handler computes when the keys of the map are distinct. *)
Definition without_socket (ws : WebSocket) (rc : list (string * list WebSocket))
  : list (string * list WebSocket) :=
  flat_map
    (fun entry : string * list WebSocket =>
       match Set_delete ws (snd entry) with
       | [] => []
       | connections => [(fst entry, connections)]
       end)
    rc.

(** What the registry of a reachable world satisfies: a room has one entry
    and a user has one entry, and a broadcast set is never empty and holds a
    socket once. *)
Record wf_registry (w : World) : Prop := {
  wf_room_keys : NoDup (map fst (roomConnections w));
  wf_room_sets :
    forall roomId connections,
      In (roomId, connections) (roomConnections w) ->
      connections <> [] /\ NoDup connections;
  wf_user_keys : NoDup (map fst (userConnections w)) }.

(** The frames of a log that go to a socket. *)
Definition frames_to (ws : WebSocket) (log : list Effect) : list Effect :=
  filter (fun e => match e with
                   | Sent x _ => Nat.eqb x ws
                   | _ => false
                   end)
         log.

(** The users whose connection is a socket, in the order of the map. *)
Definition bound_users (ws : WebSocket) (w : World) : list Z :=
  map fst (filter (fun entry : Z * WebSocket => Nat.eqb (snd entry) ws)
                  (userConnections w)).

(** What one write changes, table by table. *)
Inductive change (d : Db) : Db -> Prop :=
| change_nothing : change d d
| change_counters d' :
    same_tables d d' ->
    users_id_seq d <= users_id_seq d' ->
    roomPlayers_id_seq d <= roomPlayers_id_seq d' ->
    gameSubmissions_id_seq d <= gameSubmissions_id_seq d' ->
    gameVotes_id_seq d <= gameVotes_id_seq d' ->
    change d d'
| change_user row :
    existsb (fun u => String.eqb (User.username u) (User.username row))
            (users d) = false ->
    User.id row = users_id_seq d ->
    change d (mkDb (users d ++ [row]) (rooms d) (roomPlayers d)
                   (gameSubmissions d) (gameVotes d) (users_id_seq d + 1)
                   (roomPlayers_id_seq d) (gameSubmissions_id_seq d)
                   (gameVotes_id_seq d))
| change_room row :
    room_exists d (Room.id row) = false ->
    user_exists d (Room.hostId row) = true ->
    Room.status row = "waiting" ->
    Room.currentPlayerId row = None ->
    change d (mkDb (users d) (rooms d ++ [row]) (roomPlayers d)
                   (gameSubmissions d) (gameVotes d) (users_id_seq d)
                   (roomPlayers_id_seq d) (gameSubmissions_id_seq d)
                   (gameVotes_id_seq d))
| change_player row :
    room_exists d (RoomPlayer.roomId row) = true ->
    user_exists d (RoomPlayer.userId row) = true ->
    RoomPlayer.id row = roomPlayers_id_seq d ->
    RoomPlayer.score row = 0 ->
    change d (mkDb (users d) (rooms d) (roomPlayers d ++ [row])
                   (gameSubmissions d) (gameVotes d) (users_id_seq d)
                   (roomPlayers_id_seq d + 1) (gameSubmissions_id_seq d)
                   (gameVotes_id_seq d))
| change_start roomId first :
    In first (joined roomId d) ->
    change d (mkDb (users d)
                   (map (fun r => if String.eqb (Room.id r) roomId
                                  then started r first else r) (rooms d))
                   (roomPlayers d) (gameSubmissions d) (gameVotes d)
                   (users_id_seq d) (roomPlayers_id_seq d)
                   (gameSubmissions_id_seq d) (gameVotes_id_seq d))
| change_submission row :
    room_exists d (GameSubmission.roomId row) = true ->
    user_exists d (GameSubmission.playerId row) = true ->
    GameSubmission.id row = gameSubmissions_id_seq d ->
    change d (mkDb (users d) (rooms d) (roomPlayers d)
                   (gameSubmissions d ++ [row]) (gameVotes d) (users_id_seq d)
                   (roomPlayers_id_seq d) (gameSubmissions_id_seq d + 1)
                   (gameVotes_id_seq d))
| change_vote row :
    submission_exists d (GameVote.submissionId row) = true ->
    user_exists d (GameVote.voterId row) = true ->
    GameVote.id row = gameVotes_id_seq d ->
    change d (mkDb (users d) (rooms d) (roomPlayers d) (gameSubmissions d)
                   (gameVotes d ++ [row]) (users_id_seq d)
                   (roomPlayers_id_seq d) (gameSubmissions_id_seq d)
                   (gameVotes_id_seq d + 1)).

(** What the tables of a reachable world satisfy beyond [wf_db]: usernames
    and room ids are unique, every reference has its row, submissions and
    votes carry increasing serial numbers, and the player of the turn of a
    room is set exactly when the room is playing and is one of its
    players. *)
Record integrity (d : Db) : Prop := {
  int_usernames : NoDup (map User.username (users d));
  int_room_ids : NoDup (map Room.id (rooms d));
  int_room_host :
    forall r, In r (rooms d) -> user_exists d (Room.hostId r) = true;
  int_player_room :
    forall p, In p (roomPlayers d) ->
              room_exists d (RoomPlayer.roomId p) = true;
  int_submission_refs :
    forall s, In s (gameSubmissions d) ->
              room_exists d (GameSubmission.roomId s) = true
              /\ user_exists d (GameSubmission.playerId s) = true
              /\ GameSubmission.id s < gameSubmissions_id_seq d;
  int_submission_ids :
    StronglySorted Z.lt (map GameSubmission.id (gameSubmissions d));
  int_vote_refs :
    forall v, In v (gameVotes d) ->
              submission_exists d (GameVote.submissionId v) = true
              /\ user_exists d (GameVote.voterId v) = true
              /\ GameVote.id v < gameVotes_id_seq d;
  int_vote_ids : StronglySorted Z.lt (map GameVote.id (gameVotes d));
  int_turn :
    forall r, In r (rooms d) ->
              match Room.currentPlayerId r with
              | None => Room.status r = "waiting"
              | Some c =>
                  Room.status r = "playing"
                  /\ exists p, In p (joined (Room.id r) d)
                               /\ RoomPlayer.userId p = c
              end }.

(** The row an insert of [insertUser] creates in [d]. *)
Definition new_user (insertUser : InsertUser.t) (d : Db) : User.t :=
  User.mk (users_id_seq d) (InsertUser.username insertUser)
          (InsertUser.displayName insertUser).

(** The event that announces a new player to a room. *)
Definition player_joined (p : RoomPlayer.t) : JValue :=
  JObj [("type", JStr "player_joined");
        ("player", RoomPlayer_json (joinedAt p) p)].

(** The tables a request is seen to write. *)
Definition untouched (req : Request) (d d' : Db) : Prop :=
  match req with
  | POST_users _ =>
      rooms d' = rooms d /\ roomPlayers d' = roomPlayers d
      /\ gameSubmissions d' = gameSubmissions d /\ gameVotes d' = gameVotes d
  | POST_rooms _ =>
      users d' = users d
      /\ gameSubmissions d' = gameSubmissions d /\ gameVotes d' = gameVotes d
  | POST_rooms_join _ _ =>
      users d' = users d /\ rooms d' = rooms d
      /\ gameSubmissions d' = gameSubmissions d /\ gameVotes d' = gameVotes d
  | POST_rooms_start _ _ =>
      users d' = users d /\ roomPlayers d' = roomPlayers d
      /\ gameSubmissions d' = gameSubmissions d /\ gameVotes d' = gameVotes d
  | POST_submissions _ =>
      users d' = users d /\ rooms d' = rooms d
      /\ roomPlayers d' = roomPlayers d /\ gameVotes d' = gameVotes d
  | POST_votes _ =>
      users d' = users d /\ rooms d' = rooms d
      /\ roomPlayers d' = roomPlayers d
      /\ gameSubmissions d' = gameSubmissions d
  end.

(** What the database binds of a parsed body: every text without a NUL
    byte, every integer within 32 bits. *)
Definition binds_user (userData : InsertUser.t) : bool :=
  text (InsertUser.username userData) && text (InsertUser.displayName userData).

Definition binds_room (roomData : InsertRoom.t) : bool :=
  text (InsertRoom.id roomData)
  && match InsertRoom.maxRounds roomData with
     | Some m => int4 m
     | None => true
     end.

Definition binds_vote (voteData : InsertGameVote.t) : bool :=
  int4 (InsertGameVote.submissionId voteData)
  && int4 (InsertGameVote.voterId voteData)
  && text (InsertGameVote.guessedType voteData).

(** A database in which no game has advanced: every score is the initial
    one and every room is in its first round. *)
Record nothing_scored (d : Db) : Prop := {
  scores_initial : forall p, In p (roomPlayers d) -> RoomPlayer.score p = 0;
  rounds_initial : forall r, In r (rooms d) -> Room.currentRound r = 1 }.

(** * A run of the game

    The scenario of the specification: two users, room ABC123 created by
    user 1 and joined by user 2, each on a socket of their own. *)

Definition user_body (username displayName : string) : JValue :=
  JObj [("username", JStr username); ("displayName", JStr displayName)].

Definition room_body : JValue :=
  JObj [("id", JStr "ABC123"); ("maxRounds", JNum 5); ("hostId", JNum 1)].

Definition start_body : JValue := JObj [("hostId", JNum 1)].

Definition submission_body : JValue :=
  JObj [("roomId", JStr "ABC123"); ("playerId", JNum 1); ("round", JNum 1);
        ("phrase", JStr "I once sang karaoke badly");
        ("actualType", JStr "truth")].

Definition vote_body (isCorrect : bool) : JValue :=
  JObj [("submissionId", JNum 1); ("voterId", JNum 2);
        ("guessedType", JStr "meme"); ("isCorrect", JBool isCorrect)].

Definition two_users : list Input :=
  [http (POST_users (user_body "ann" "Ann"));
   http (POST_users (user_body "bob" "Bob"))].

Definition lobby : list Input :=
  two_users ++
  [http (POST_rooms room_body);
   ws_state 10%nat OPEN;
   ws_message 10%nat (join_room "ABC123" 1);
   http (POST_rooms_join "ABC123" (JObj [("userId", JNum 2)]));
   ws_state 11%nat OPEN;
   ws_message 11%nat (join_room "ABC123" 2)].

Definition started_game : list Input :=
  lobby ++ [http (POST_rooms_start "ABC123" start_body)].

Definition submitted : list Input :=
  started_game ++ [http (POST_submissions submission_body)].

Definition voted : list Input :=
  submitted ++ [http (POST_votes (vote_body false))].

(** The world the server is in after [inputs], from an empty database and
    an empty registry. *)
Definition world_after (inputs : list Input) : World :=
  run initial_world inputs.

Definition the_room (status : string) (currentPlayerId : option Z) : Room.t :=
  Room.mk "ABC123" 1 status currentPlayerId 1 5.

Definition the_submission (id : Z) : GameSubmission.t :=
  GameSubmission.mk id "ABC123" 1 1 "I once sang karaoke badly" "truth".

Definition player (id userId : Z) : RoomPlayer.t :=
  RoomPlayer.mk id "ABC123" userId 0.


Definition out_of_turn_body : JValue :=
  JObj [("roomId", JStr "ABC123"); ("playerId", JNum 2); ("round", JNum 1);
        ("phrase", JStr "my turn?"); ("actualType", JStr "meme")].


Definition bound_once : list Input :=
  [ws_state 1%nat OPEN; ws_message 1%nat (join_room "ABC123" 7);
   ws_state 2%nat OPEN].

Definition rebound : list Input :=
  bound_once ++ [ws_message 2%nat (join_room "ABC123" 7)].

(** * Properties *)

(** ** Reasoning about handlers *)

Lemma wp_ret {A : Type} (a : A) w (Q : Outcome A -> World -> Prop) :
  Q (Ret a) w -> wp (ret a) w Q.
Proof. exact (fun H => H). Qed.

Lemma wp_throw {A : Type} e w (Q : Outcome A -> World -> Prop) :
  Q (Throw e) w -> wp (throw e) w Q.
Proof. exact (fun H => H). Qed.

Lemma wp_pure {A : Type} (o : Outcome A) w (Q : Outcome A -> World -> Prop) :
  Q o w -> wp (pure o) w Q.
Proof. exact (fun H => H). Qed.

Lemma wp_bind {A B : Type} (m : M A) (k : A -> M B) w
      (Q : Outcome B -> World -> Prop) :
  wp m w (fun o w' =>
            match o with
            | Ret a => wp (k a) w' Q
            | Throw e => Q (Throw e) w'
            end) ->
  wp (bind m k) w Q.
Proof.
  unfold wp, bind. destruct (m w) as [[a | e] w']; simpl; trivial.
Qed.

Lemma wp_await {A : Type} (op : Db -> Outcome A * Db) w
      (Q : Outcome A -> World -> Prop) :
  (hd false (faults w) = true ->
   Q (Throw IoError) (set_faults (tl (faults w)) w)) ->
  (hd false (faults w) = false ->
   Q (fst (op (db w)))
     (set_db (snd (op (db w))) (set_faults (tl (faults w)) w))) ->
  wp (await op) w Q.
Proof.
  unfold wp, await. intros Hfault Hrun.
  destruct (hd false (faults w)); simpl.
  - now apply Hfault.
  - destruct (op (db w)) as [r d]; simpl in *. now apply Hrun.
Qed.

Lemma wp_broadcast roomId message w (Q : Outcome unit -> World -> Prop) :
  Q (Ret tt) (broadcastToRoom roomId message w) ->
  wp (broadcast roomId message) w Q.
Proof. exact (fun H => H). Qed.

Lemma try_catch_wp (body : M Response) handler w
      (P : Response -> World -> Prop) :
  wp body w (fun o w' =>
               match o with
               | Ret r => P r w'
               | Throw _ => P handler w'
               end) ->
  P (fst (try_catch body handler w)) (snd (try_catch body handler w)).
Proof.
  unfold wp, try_catch. destruct (body w) as [[r | e] w']; simpl; trivial.
Qed.

Ltac wp_step :=
  lazymatch goal with
  | |- wp (bind _ _) _ _ => apply wp_bind
  | |- wp (await _) _ _ =>
      apply wp_await;
      let F := fresh "Hfault" in
      intros F; cbn [faults set_db set_faults] in F
  | |- wp (pure _) _ _ => apply wp_pure
  | |- wp (ret _) _ _ => apply wp_ret
  | |- wp (throw _) _ _ => apply wp_throw
  | |- wp (broadcast _ _) _ _ => apply wp_broadcast
  | |- wp (if ?b then _ else _) _ _ => destruct b eqn:?
  | |- wp (match ?x with _ => _ end) _ _ => destruct x eqn:?
  end.

(** ** The registry: what a broadcast puts on the wire *)

Lemma forEach_send messageStr connections : forall w,
  fold_left (send_if_open messageStr) connections w =
  mkWorld (db w) (roomConnections w) (userConnections w) (readyState w)
          (trace w ++ frames messageStr (readyState w) connections)
          (faults w).
Proof.
  induction connections as [| ws rest IH]; intros w; simpl.
  - unfold frames; simpl. rewrite app_nil_r. now destruct w.
  - rewrite IH. unfold send_if_open, frames. simpl.
    destruct (is_open (readyState w ws)); simpl; trivial.
    now rewrite <- app_assoc.
Qed.

Lemma broadcastToRoom_eq roomId message w :
  broadcastToRoom roomId message w =
  mkWorld (db w) (roomConnections w) (userConnections w) (readyState w)
          (trace w ++ broadcast_log roomId message w) (faults w).
Proof.
  unfold broadcastToRoom, broadcast_log.
  destruct (Map_get String.eqb roomId (roomConnections w)) as [c |].
  - rewrite forEach_send. simpl. now rewrite <- app_assoc.
  - rewrite app_nil_r. now destruct w.
Qed.

Lemma In_frames e messageStr state connections :
  In e (frames messageStr state connections) <->
  exists ws, e = Sent ws messageStr /\ In ws connections /\ state ws = OPEN.
Proof.
  unfold frames. rewrite in_map_iff. split.
  - intros (ws & <- & Hin). apply filter_In in Hin as [Hin Hopen].
    exists ws. repeat split; trivial. now destruct (state ws).
  - intros (ws & -> & Hin & Hopen). exists ws. split; trivial.
    apply filter_In. split; trivial. now rewrite Hopen.
Qed.

Lemma stringify_calls_frames messageStr state connections :
  stringify_calls (frames messageStr state connections) = 0%nat.
Proof.
  unfold stringify_calls, frames.
  induction (filter (fun ws => is_open (state ws)) connections); simpl; trivial.
Qed.

(** ** Facts about [Map] and [Set] *)

Section MapFacts.
Context {K V : Type} (eqb : K -> K -> bool).
Hypothesis eqb_eq : forall a b, eqb a b = true <-> a = b.

Lemma eqb_same (k : K) : eqb k k = true.
Proof. now apply eqb_eq. Qed.

Lemma Map_get_set (k : K) (v : V) m :
  Map_get eqb k (Map_set eqb k v m) = Some v.
Proof.
  induction m as [| [k' v'] m IH]; simpl.
  - now rewrite eqb_same.
  - destruct (eqb k k') eqn:E; simpl; rewrite E; trivial.
Qed.

Lemma Map_get_set_other (k k0 : K) (v : V) m :
  k0 <> k -> Map_get eqb k0 (Map_set eqb k v m) = Map_get eqb k0 m.
Proof.
  intros Hne. induction m as [| [k' v'] m IH]; simpl.
  - destruct (eqb k0 k) eqn:E; trivial. apply eqb_eq in E. contradiction.
  - destruct (eqb k k') eqn:E; simpl.
    + apply eqb_eq in E. subst k'.
      destruct (eqb k0 k) eqn:F; trivial.
      apply eqb_eq in F. contradiction.
    + now rewrite IH.
Qed.

Lemma Map_set_set (k : K) (v1 v2 : V) m :
  Map_set eqb k v2 (Map_set eqb k v1 m) = Map_set eqb k v2 m.
Proof.
  induction m as [| [k' v'] m IH]; simpl.
  - now rewrite eqb_same.
  - destruct (eqb k k') eqn:E; simpl; rewrite E; trivial. now rewrite IH.
Qed.

Lemma Map_get_None (k : K) (m : list (K * V)) :
  Map_get eqb k m = None <-> ~ In k (map fst m).
Proof.
  induction m as [| [k' v'] m IH]; simpl.
  - tauto.
  - destruct (eqb k k') eqn:E.
    + apply eqb_eq in E. subst. split; [discriminate | intros H; exfalso; auto].
    + rewrite IH. split.
      * intros H [Heq | Hin]; [| tauto].
        subst. rewrite eqb_same in E. discriminate.
      * tauto.
Qed.

Lemma Map_set_keys (k : K) (v : V) m :
  map fst (Map_set eqb k v m) =
  if Map_has eqb k m then map fst m else map fst m ++ [k].
Proof.
  unfold Map_has. induction m as [| [k' v'] m IH]; simpl; trivial.
  destruct (eqb k k') eqn:E; simpl; trivial.
  rewrite IH. now destruct (Map_get eqb k m).
Qed.

Lemma Map_set_NoDup (k : K) (v : V) m :
  NoDup (map fst m) -> NoDup (map fst (Map_set eqb k v m)).
Proof.
  intros Hm. rewrite Map_set_keys. unfold Map_has.
  destruct (Map_get eqb k m) eqn:E; trivial.
  apply Map_get_None in E.
  apply NoDup_app; trivial.
  - constructor; [intros [] | constructor].
  - intros x Hx [<- | []]. contradiction.
Qed.
End MapFacts.

Lemma Set_add_In ws s : In ws (Set_add ws s).
Proof.
  unfold Set_add, Set_has. destruct (existsb (Nat.eqb ws) s) eqn:E.
  - apply existsb_exists in E as (x & Hin & Heq).
    apply Nat.eqb_eq in Heq. now subst.
  - apply in_or_app. right. now left.
Qed.

Lemma Set_add_keeps ws x s : In x s -> In x (Set_add ws s).
Proof.
  unfold Set_add. destruct (Set_has ws s); trivial.
  intros H. apply in_or_app. now left.
Qed.

(** What the [join_room] branch of the message handler does, in one
    equation: the socket enters the set of the room, becomes the
    connection of the user, and the announcement goes to the set as it
    stands after the entry. *)
Lemma on_message_join_room ws roomId userId w :
  on_message ws (join_room roomId userId) w =
  mkWorld (db w)
    (Map_set String.eqb roomId (Set_add ws (members roomId w))
             (roomConnections w))
    (Map_set Z.eqb userId ws (userConnections w))
    (readyState w)
    (trace w ++
     Stringified (user_joined userId)
       :: frames (JSON_stringify (user_joined userId)) (readyState w)
                 (Set_add ws (members roomId w)))
    (faults w).
Proof.
  unfold on_message, members, Map_has.
  destruct (Map_get String.eqb roomId (roomConnections w)) as [c |] eqn:E;
    simpl.
  - rewrite E. rewrite broadcastToRoom_eq. unfold broadcast_log. simpl.
    now rewrite (Map_get_set String.eqb String.eqb_eq).
  - rewrite (Map_get_set String.eqb String.eqb_eq).
    rewrite broadcastToRoom_eq. unfold broadcast_log. simpl.
    rewrite (Map_set_set String.eqb String.eqb_eq).
    now rewrite (Map_get_set String.eqb String.eqb_eq).
Qed.

(** ** The routes and the database *)

Arguments storage.getUserByUsername : simpl never.
Arguments storage.createUser : simpl never.
Arguments storage.createRoom : simpl never.
Arguments storage.getRoom : simpl never.
Arguments storage.updateRoom : simpl never.
Arguments storage.joinRoom : simpl never.
Arguments storage.getRoomPlayers : simpl never.
Arguments storage.createSubmission : simpl never.
Arguments storage.createVote : simpl never.
Arguments storage.hasUserVoted : simpl never.

(** The reads leave the database as it is. *)
Lemma getUserByUsername_snd n d : snd (storage.getUserByUsername n d) = d.
Proof. reflexivity. Qed.
Lemma getRoom_snd id d : snd (storage.getRoom id d) = d.
Proof. reflexivity. Qed.
Lemma getRoomPlayers_snd id d : snd (storage.getRoomPlayers id d) = d.
Proof. reflexivity. Qed.
Lemma hasUserVoted_snd s v d : snd (storage.hasUserVoted s v d) = d.
Proof. reflexivity. Qed.

Lemma getUserByUsername_fst n d :
  fst (storage.getUserByUsername n d) = Ret (find_user n d).
Proof. reflexivity. Qed.
Lemma getRoom_fst id d : fst (storage.getRoom id d) = Ret (find_room id d).
Proof. reflexivity. Qed.
Lemma getRoomPlayers_fst id d :
  fst (storage.getRoomPlayers id d) = Ret (players_of id d).
Proof. reflexivity. Qed.
Lemma hasUserVoted_fst s v d :
  fst (storage.hasUserVoted s v d) = Ret (has_voted s v d).
Proof. reflexivity. Qed.

Create Rewrite HintDb reads.
Create HintDb routes.

Hint Rewrite getUserByUsername_snd getRoom_snd getRoomPlayers_snd
     hasUserVoted_snd getUserByUsername_fst getRoom_fst getRoomPlayers_fst
     hasUserVoted_fst : reads.

Lemma broadcastToRoom_db roomId message w :
  db (broadcastToRoom roomId message w) = db w.
Proof. now rewrite broadcastToRoom_eq. Qed.

Lemma broadcastToRoom_faults roomId message w :
  faults (broadcastToRoom roomId message w) = faults w.
Proof. now rewrite broadcastToRoom_eq. Qed.

Lemma broadcastToRoom_roomConnections roomId message w :
  roomConnections (broadcastToRoom roomId message w) = roomConnections w.
Proof. now rewrite broadcastToRoom_eq. Qed.

Lemma broadcastToRoom_userConnections roomId message w :
  userConnections (broadcastToRoom roomId message w) = userConnections w.
Proof. now rewrite broadcastToRoom_eq. Qed.

Lemma broadcastToRoom_readyState roomId message w :
  readyState (broadcastToRoom roomId message w) = readyState w.
Proof. now rewrite broadcastToRoom_eq. Qed.

Lemma broadcastToRoom_trace roomId message w :
  trace (broadcastToRoom roomId message w) =
  trace w ++ broadcast_log roomId message w.
Proof. now rewrite broadcastToRoom_eq. Qed.

Hint Rewrite broadcastToRoom_db broadcastToRoom_faults
     broadcastToRoom_roomConnections broadcastToRoom_userConnections
     broadcastToRoom_readyState : reads.

(** One reduction of the goal left by a rule of [wp]. *)
Ltac wp_simpl :=
  cbv beta;
  cbn [db roomConnections userConnections readyState trace faults
       set_db set_faults set_roomConnections set_userConnections emit
       fst snd];
  autorewrite with reads;
  cbn [db roomConnections userConnections readyState trace faults
       set_db set_faults set_roomConnections set_userConnections emit
       fst snd].

Ltac wp_outcome :=
  lazymatch goal with
  | |- match ?o with Ret _ => _ | Throw _ => _ end =>
      lazymatch o with
      | Ret _ => cbv iota beta
      | Throw _ => cbv iota beta
      | _ => destruct o eqn:?
      end
  end.

Ltac wp_run := repeat (wp_simpl; first [wp_step | wp_outcome]); wp_simpl.

(** Start the analysis of a route: the goal speaks of the response and of
    the world it leaves. *)
Ltac by_wp :=
  lazymatch goal with
  | |- context [try_catch ?b ?h ?w] =>
      pattern (fst (try_catch b h w)), (snd (try_catch b h w));
      apply try_catch_wp
  end.

(** The straight-line part of a handler when no fault is scheduled
    ([Hf : faults w = []]): stops at the first test that needs a case
    analysis. *)
Ltac wp_straight Hf :=
  repeat
    (wp_simpl;
     lazymatch goal with
     | |- wp (bind _ _) _ _ => apply wp_bind
     | |- wp (await _) _ _ =>
         apply wp_await;
         [ let F := fresh "Hfault" in
           intros F; exfalso; cbn [faults set_db set_faults] in F;
           autorewrite with reads in F; rewrite Hf in F; discriminate F
         | intros _ ]
     | |- wp (pure _) _ _ => apply wp_pure
     | |- wp (ret _) _ _ => apply wp_ret
     | |- wp (throw _) _ _ => apply wp_throw
     | |- wp (broadcast _ _) _ _ => apply wp_broadcast
     | |- match ?o with Ret _ => _ | Throw _ => _ end =>
         lazymatch o with
         | Ret _ => cbv iota beta
         | Throw _ => cbv iota beta
         end
     end);
  wp_simpl.

Hint Constructors write writes : routes.

Lemma route_writes req w : writes (db w) (db (snd (route req w))).
Proof.
  destruct req; simpl;
    [ unfold post_users | unfold post_rooms | unfold post_rooms_join
    | unfold post_rooms_start | unfold post_submissions | unfold post_votes ];
    apply try_catch_wp with (P := fun _ w' => writes (db w) (db w'));
    wp_run; eauto 6 with routes.
  all: eapply writes_more; [eapply write_start | apply writes_done].
  all: match goal with H : players_of _ _ = _ |- _ => rewrite H end.
  all: now left.
Qed.

(** ** Well-formed databases *)

Lemma StronglySorted_snoc (l : list Z) (y : Z) :
  StronglySorted Z.lt l -> (forall x, In x l -> x < y) ->
  StronglySorted Z.lt (l ++ [y]).
Proof.
  induction 1 as [| a l Hl IH Ha]; intros Hy; simpl.
  - repeat constructor.
  - constructor.
    + apply IH. intros x Hx. apply Hy. now right.
    + apply Forall_app. split; trivial.
      constructor; [| constructor]. apply Hy. now left.
Qed.

Lemma NoDup_snoc (l : list Z) (y : Z) :
  NoDup l -> ~ In y l -> NoDup (l ++ [y]).
Proof.
  intros Hl Hy. apply NoDup_app; trivial.
  - constructor; [intros [] | constructor].
  - intros x Hx [<- | []]. contradiction.
Qed.

Lemma wf_empty_db : wf_db empty_db.
Proof.
  constructor; simpl; try (intros ? []); constructor.
Qed.

(** A serial value that is skipped leaves a well-formed database
    well-formed. *)
Lemma wf_skip d d' :
  same_tables d d' ->
  users_id_seq d <= users_id_seq d' ->
  roomPlayers_id_seq d <= roomPlayers_id_seq d' ->
  wf_db d -> wf_db d'.
Proof.
  intros (Eu & Er & Ep & _ & _) Hu Hp [Hid Hun Hpu Hpi Hpo Hst].
  constructor; unfold user_exists in *; rewrite ?Eu, ?Er, ?Ep; trivial.
  - intros u Hin. specialize (Hid u Hin). lia.
  - intros p Hin. specialize (Hpi p Hin). lia.
Qed.

Lemma same_tables_refl d : same_tables d d.
Proof. now repeat split. Qed.

Lemma same_tables_skip d :
  same_tables d (skip_users_id d) /\ same_tables d (skip_roomPlayers_id d)
  /\ same_tables d (skip_gameSubmissions_id d)
  /\ same_tables d (skip_gameVotes_id d).
Proof. now repeat split. Qed.

Ltac wf_skipped :=
  match goal with
  | H : wf_db ?d |- _ =>
      apply (wf_skip d); [now repeat split | simpl; lia | simpl; lia | exact H]
  end.

Lemma wf_createUser insertUser d :
  wf_db d -> wf_db (snd (storage.createUser insertUser d)).
Proof.
  intros Hwf. pose proof Hwf as [Hid Hun Hpu Hpi Hpo Hst].
  unfold storage.createUser.
  destruct (existsb _ (users d)); simpl; [wf_skipped |].
  constructor; simpl; trivial.
  - intros u Hu. apply in_app_or in Hu as [Hu | [<- | []]]; simpl.
    + specialize (Hid u Hu). lia.
    + lia.
  - rewrite map_app. simpl. apply NoDup_snoc; trivial.
    intros Hin. apply in_map_iff in Hin as (u & Heq & Hu).
    specialize (Hid u Hu). lia.
  - intros p Hp. specialize (Hpu p Hp). unfold user_exists in *. simpl.
    rewrite existsb_app, Hpu. reflexivity.
Qed.

Lemma wf_createRoom insertRoom hostId d :
  wf_db d -> wf_db (snd (storage.createRoom insertRoom hostId d)).
Proof.
  intros [Hid Hun Hpu Hpi Hpo Hst]. unfold storage.createRoom.
  destruct (int_param hostId); [| now constructor].
  destruct (room_exists d _); [now constructor |].
  destruct (negb (user_exists d z)); [now constructor |].
  constructor; simpl; trivial.
  intros r Hr. apply in_app_or in Hr as [Hr | [<- | []]]; auto.
Qed.

Lemma wf_joinRoom roomId userId d :
  wf_db d -> wf_db (snd (storage.joinRoom roomId userId d)).
Proof.
  intros Hwf. pose proof Hwf as [Hid Hun Hpu Hpi Hpo Hst].
  unfold storage.joinRoom.
  destruct (int_param userId); [| now constructor].
  destruct (negb (room_exists d roomId)); [wf_skipped |].
  destruct (negb (user_exists d z)) eqn:E; [wf_skipped |].
  apply negb_false_iff in E.
  constructor; simpl; trivial.
  - intros p Hp. apply in_app_or in Hp as [Hp | [<- | []]].
    + exact (Hpu p Hp).
    + exact E.
  - intros p Hp. apply in_app_or in Hp as [Hp | [<- | []]]; simpl.
    + specialize (Hpi p Hp). lia.
    + lia.
  - rewrite map_app. simpl. apply StronglySorted_snoc; trivial.
    intros x Hx. apply in_map_iff in Hx as (p & <- & Hp). auto.
Qed.

Lemma wf_start roomId c d :
  wf_db d ->
  wf_db (snd (storage.updateRoom roomId
                (PartialRoom.mk (Some "playing") (Some (Some c))) d)).
Proof.
  intros [Hid Hun Hpu Hpi Hpo Hst]. unfold storage.updateRoom.
  destruct (_ && _); [now constructor |].
  constructor; simpl; trivial.
  intros r Hr. apply in_map_iff in Hr as (r0 & <- & Hr0).
  destruct (String.eqb (Room.id r0) roomId); simpl; auto.
Qed.

Lemma wf_createSubmission submission d :
  wf_db d -> wf_db (snd (storage.createSubmission submission d)).
Proof.
  intros Hwf. pose proof Hwf as [Hid Hun Hpu Hpi Hpo Hst].
  unfold storage.createSubmission.
  destruct (negb (room_exists d _)); [wf_skipped |].
  destruct (negb (user_exists d _)); [wf_skipped | now constructor].
Qed.

Lemma wf_createVote vote d :
  wf_db d -> wf_db (snd (storage.createVote vote d)).
Proof.
  intros Hwf. pose proof Hwf as [Hid Hun Hpu Hpi Hpo Hst].
  unfold storage.createVote.
  destruct (negb (submission_exists d _)); [wf_skipped |].
  destruct (negb (user_exists d _)); [wf_skipped | now constructor].
Qed.

Lemma wf_write d d' : write d d' -> wf_db d -> wf_db d'.
Proof.
  destruct 1; auto using wf_createUser, wf_createRoom, wf_joinRoom, wf_start,
                         wf_createSubmission, wf_createVote.
Qed.

Lemma wf_writes d d' : writes d d' -> wf_db d -> wf_db d'.
Proof. induction 1; eauto using wf_write. Qed.

(** Only requests reach the database. *)
Lemma step_db w i :
  match i with
  | http req => db (step w i) = db (snd (route req w))
  | _ => db (step w i) = db w
  end.
Proof.
  destruct i as [req | ws [| roomId userId |] | ws [] | fs]; trivial.
  unfold step. now rewrite on_message_join_room.
Qed.

Lemma step_wf w i : wf_db (db w) -> wf_db (db (step w i)).
Proof.
  intros H. pose proof (step_db w i) as E. destruct i; rewrite E; trivial.
  eapply wf_writes; [apply route_writes | trivial].
Qed.

Lemma run_wf inputs : forall w, wf_db (db w) -> wf_db (db (run w inputs)).
Proof.
  induction inputs as [| i inputs IH]; intros w H; simpl; trivial.
  apply IH. now apply step_wf.
Qed.

Lemma reachable_wf w : reachable w -> wf_db (db w).
Proof.
  intros [inputs <-]. apply run_wf. apply wf_empty_db.
Qed.

(** ** Players of a room *)

Lemma filter_unique_user (us : list User.t) (x : Z) :
  NoDup (map User.id us) ->
  existsb (fun u => User.id u =? x) us = true ->
  exists u, filter (fun u => User.id u =? x) us = [u].
Proof.
  induction us as [| u us IH]; simpl; [discriminate |].
  intros Hnd Hex. inversion Hnd as [| ? ? Hnotin Hnd']; subst.
  destruct (User.id u =? x) eqn:E.
  - exists u. f_equal. apply Z.eqb_eq in E.
    assert (forall v, In v us -> (User.id v =? x) = false) as Hall.
    { intros v Hv. apply Z.eqb_neq. intros Heq. apply Hnotin.
      apply in_map_iff. exists v. split; [congruence | trivial]. }
    clear - Hall. induction us as [| v us IH]; simpl; trivial.
    rewrite (Hall v (or_introl eq_refl)). apply IH.
    intros v' Hv'. apply Hall. now right.
  - simpl in Hex. now apply IH.
Qed.

(** In a well-formed database the join with [users] neither drops nor
    repeats a RoomPlayer row. *)
Lemma players_of_joined roomId d :
  wf_db d -> map fst (players_of roomId d) = joined roomId d.
Proof.
  intros Hwf. unfold players_of.
  assert (forall p, In p (joined roomId d) -> In p (roomPlayers d)) as Hsub.
  { intros p Hp. unfold joined in Hp. now apply filter_In in Hp. }
  induction (joined roomId d) as [| p ps IH]; simpl; trivial.
  rewrite map_app, IH by (intros q Hq; apply Hsub; now right).
  destruct (filter_unique_user (users d) (RoomPlayer.userId p)) as [u Hu].
  - apply (wf_users_unique d Hwf).
  - apply (wf_players_user d Hwf). apply Hsub. now left.
  - rewrite Hu. reflexivity.
Qed.







Lemma destructure_number k body n :
  prop k body = JNum n -> destructure k body = Ret (JNum n).
Proof.
  intros H. unfold destructure. rewrite <- H.
  destruct body; trivial; discriminate H.
Qed.


(** ** The status of a room along a run *)






(** ** StartGame *)




(** ** CastVote *)

Lemma createVote_cases vote d :
  (fst (storage.createVote vote d) = Throw DbError
   /\ snd (storage.createVote vote d) = skip_gameVotes_id d
   /\ submission_exists d (InsertGameVote.submissionId vote)
      && user_exists d (InsertGameVote.voterId vote) = false)
  \/ (fst (storage.createVote vote d) = Ret (new_vote vote d)
      /\ gameVotes (snd (storage.createVote vote d)) =
         gameVotes d ++ [new_vote vote d]
      /\ submission_exists d (InsertGameVote.submissionId vote) = true
      /\ user_exists d (InsertGameVote.voterId vote) = true).
Proof.
  unfold storage.createVote.
  destruct (submission_exists d _); simpl; auto.
  destruct (user_exists d _); simpl; auto.
Qed.

(** Every way the vote route can end. *)
Lemma post_votes_cases body w :
  let response := fst (post_votes body w) in
  let w' := snd (post_votes body w) in
  trace w' = trace w
  /\ ((response = fail 400 "Invalid vote data" /\ same_tables (db w) (db w'))
      \/ (exists voteData,
            insertGameVoteSchema body = Ret voteData
            /\ has_voted (InsertGameVote.submissionId voteData)
                         (InsertGameVote.voterId voteData) (db w) = true
            /\ response = AlreadyVoted /\ db w' = db w)
      \/ (exists voteData,
            insertGameVoteSchema body = Ret voteData
            /\ has_voted (InsertGameVote.submissionId voteData)
                         (InsertGameVote.voterId voteData) (db w) = false
            /\ response = json (a_vote (new_vote voteData (db w)))
            /\ gameVotes (db w') = gameVotes (db w) ++ [new_vote voteData (db w)])).
Proof.
  cbv zeta. unfold post_votes. by_wp. wp_run.
  all: split; [reflexivity |].
  all: try solve [left; split; [reflexivity | apply same_tables_refl]].
  - right. left. exists a. auto.
  - destruct (createVote_cases a (db w)) as [(H1 & H2 & _) | (H1 & H2 & _)];
      [congruence |].
    right. right. exists a. rewrite H2.
    assert (a0 = new_vote a (db w)) as -> by congruence. auto.
  - destruct (createVote_cases a (db w)) as [(H1 & H2 & _) | (H1 & H2 & _)];
      [| congruence].
    left. rewrite H2. now repeat split.
Qed.

(** C1, as the code has it.  For every successful CastVote the stored vote is
    the row appended to the table, and its isCorrect flag is the value of the
    isCorrect field of the request body, as are its submissionId, voterId and
    guessedType; the route reads no submission. *)
Theorem CastVote_stores_the_flag_of_the_caller body w :
  is_error (fst (post_votes body w)) = false ->
  exists vote,
    fst (post_votes body w) = json (a_vote vote)
    /\ gameVotes (db (snd (post_votes body w))) = gameVotes (db w) ++ [vote]
    /\ prop "isCorrect" body = JBool (GameVote.isCorrect vote)
    /\ prop "guessedType" body = JStr (GameVote.guessedType vote)
    /\ prop "submissionId" body = JNum (GameVote.submissionId vote)
    /\ prop "voterId" body = JNum (GameVote.voterId vote).
Proof.
  intros Hok.
  destruct (post_votes_cases body w)
    as [_ [[Hr _] | [(v & _ & _ & Hr & _) | (v & Hparse & _ & Hr & Hdb)]]];
    cbv zeta in *; try (rewrite Hr in Hok; discriminate Hok).
  exists (new_vote v (db w)). repeat split; trivial.
  all: unfold insertGameVoteSchema in Hparse.
  all: destruct body; try discriminate Hparse.
  all: destruct (prop "submissionId" _); try discriminate Hparse.
  all: destruct (prop "voterId" _); try discriminate Hparse.
  all: destruct (prop "guessedType" _); try discriminate Hparse.
  all: destruct (prop "isCorrect" _); try discriminate Hparse.
  all: now injection Hparse as <-.
Qed.

Lemma has_voted_prior submissionId voterId d :
  has_voted submissionId voterId d = true <->
  prior_vote submissionId voterId d.
Proof.
  unfold has_voted, prior_vote. rewrite existsb_exists. split.
  - intros (v & Hin & H). apply andb_true_iff in H as [H1 H2].
    exists v. rewrite Z.eqb_eq in H1, H2. auto.
  - intros (v & Hin & <- & <-). exists v. now rewrite !Z.eqb_refl.
Qed.

(** C6. A CastVote whose body passes the schema, on a pair (submissionId,
    voterId) for which a vote is stored: it fails and the table of votes is
    unchanged; the failure is AlreadyVoted when the lookup itself does not
    fail.  And whatever the body and the faults, the table of votes changes
    only when no vote for the pair was stored when the route looked it up. *)
Theorem CastVote_at_most_once body voteData w :
  insertGameVoteSchema body = Ret voteData ->
  let submissionId := InsertGameVote.submissionId voteData in
  let voterId := InsertGameVote.voterId voteData in
  let response := fst (post_votes body w) in
  let w' := snd (post_votes body w) in
  (prior_vote submissionId voterId (db w) ->
   is_error response = true
   /\ gameVotes (db w') = gameVotes (db w)
   /\ (hd false (faults w) = false -> response = AlreadyVoted))
  /\ (gameVotes (db w') <> gameVotes (db w) ->
      ~ prior_vote submissionId voterId (db w)
      /\ exists vote,
           gameVotes (db w') = gameVotes (db w) ++ [vote]
           /\ GameVote.submissionId vote = submissionId
           /\ GameVote.voterId vote = voterId).
Proof.
  intros Hparse. cbv zeta.
  destruct (post_votes_cases body w)
    as [_ [[Hr Hdb] | [(v & Hv & Hhas & Hr & Hdb) | (v & Hv & Hhas & Hr & Hdb)]]];
    cbv zeta in *.
  - pose proof (proj2 (proj2 (proj2 (proj2 Hdb)))) as Hvotes.
    split.
    + intros Hprior. rewrite Hr, Hvotes. repeat split.
      intros Hnofault. exfalso. revert Hr Hnofault.
      unfold post_votes, try_catch, bind, pure, await. rewrite Hparse.
      apply has_voted_prior in Hprior. intros Hr Hnofault.
      rewrite Hnofault in Hr. simpl in Hr.
      unfold has_voted in Hprior. rewrite Hprior in Hr. discriminate Hr.
    + intros Hne. rewrite Hvotes in Hne. now contradiction Hne.
  - split.
    + intros _. rewrite Hr, Hdb. auto.
    + intros Hne. rewrite Hdb in Hne. now contradiction Hne.
  - assert (v = voteData) as -> by congruence.
    assert (~ prior_vote (InsertGameVote.submissionId voteData)
              (InsertGameVote.voterId voteData) (db w)) as Hno.
    { rewrite <- has_voted_prior. congruence. }
    split.
    + intros Hprior. contradiction.
    + intros _. split; trivial.
      exists (new_vote voteData (db w)). auto.
Qed.

(** ** SubmitPhrase *)

Lemma createSubmission_cases submission d :
  (fst (storage.createSubmission submission d) = Throw DbError
   /\ snd (storage.createSubmission submission d) = skip_gameSubmissions_id d)
  \/ (fst (storage.createSubmission submission d) = Ret (new_row submission d)
      /\ gameSubmissions (snd (storage.createSubmission submission d)) =
         gameSubmissions d ++ [new_row submission d]
      /\ rooms (snd (storage.createSubmission submission d)) = rooms d
      /\ gameVotes (snd (storage.createSubmission submission d)) = gameVotes d).
Proof.
  unfold storage.createSubmission.
  destruct (room_exists d _); simpl; auto.
  destruct (user_exists d _); simpl; auto 6.
Qed.

(** Every way the submission route can end: with an error, nothing stored
    and nothing sent; or with the new row stored and announced. *)
Lemma post_submissions_cases body w :
  let response := fst (post_submissions body w) in
  let w' := snd (post_submissions body w) in
  (is_error response = true /\ same_tables (db w) (db w')
   /\ trace w' = trace w)
  \/ (exists submissionData room,
        insertGameSubmissionSchema body = Ret submissionData
        /\ find_room (InsertGameSubmission.roomId submissionData) (db w) =
           Some room
        /\ Room.currentPlayerId room =
           Some (InsertGameSubmission.playerId submissionData)
        /\ response = json (a_submission (new_row submissionData (db w)))
        /\ gameSubmissions (db w') =
           gameSubmissions (db w) ++ [new_row submissionData (db w)]
        /\ trace w' =
           trace w ++
           broadcast_log (InsertGameSubmission.roomId submissionData)
                         (new_submission (new_row submissionData (db w))) w).
Proof.
  cbv zeta. unfold post_submissions. by_wp. wp_run.
  all: try solve [left; repeat split].
  all: match goal with
       | Hparse : insertGameSubmissionSchema _ = Ret ?sd |- _ =>
           destruct (createSubmission_cases sd (db w))
             as [(H1 & H2) | (H1 & H2 & _)]
       end.
  all: try congruence.
  - right.
    match goal with
    | Hparse : insertGameSubmissionSchema _ = Ret ?sd,
      Hroom : find_room _ _ = Some ?room,
      Hturn : not_current_player _ _ = false,
      Hrow : fst _ = Ret ?row |- _ =>
        exists sd, room;
        assert (row = new_row sd (db w)) as -> by congruence;
        unfold not_current_player in Hturn;
        destruct (Room.currentPlayerId room) as [c |]; [| discriminate Hturn];
        apply negb_false_iff, Z.eqb_eq in Hturn; subst c
    end.
    rewrite broadcastToRoom_trace. wp_simpl. repeat split; trivial.
  - left. rewrite H2. now repeat split.
Qed.

Lemma not_current_player_true room playerId :
  Room.currentPlayerId room <> Some playerId ->
  not_current_player room playerId = true.
Proof.
  unfold not_current_player. destruct (Room.currentPlayerId room) as [c |];
    trivial.
  intros H. apply negb_true_iff, Z.eqb_neq. congruence.
Qed.

(** A submission out of turn: the route stops before its insert. *)
Lemma post_submissions_out_of_turn body submissionData room w :
  insertGameSubmissionSchema body = Ret submissionData ->
  find_room (InsertGameSubmission.roomId submissionData) (db w) = Some room ->
  Room.currentPlayerId room <>
  Some (InsertGameSubmission.playerId submissionData) ->
  let response := fst (post_submissions body w) in
  let w' := snd (post_submissions body w) in
  is_error response = true /\ db w' = db w /\ trace w' = trace w
  /\ (hd false (faults w) = false -> response = NotYourTurn).
Proof.
  intros Hparse Hroom Hturn. cbv zeta. unfold post_submissions.
  rewrite Hparse. by_wp. apply wp_bind, wp_pure. cbv iota beta.
  apply wp_bind, wp_await; intros Hfault; wp_simpl.
  - repeat split. congruence.
  - rewrite Hroom. cbv iota beta.
    rewrite (not_current_player_true _ _ Hturn).
    apply wp_ret. wp_simpl. repeat split.
Qed.

(** C5. A SubmitPhrase whose body passes the schema, for an existing room,
    from a player who is not the player of the turn of the room: it fails,
    nothing is stored and nothing is sent, and the failure is NotYourTurn
    when the lookup of the room itself does not fail.  And when SubmitPhrase
    succeeds, the stored submission is the response, and what is broadcast to
    its room is one new_submission event whose submission object has exactly
    the fields id, phrase, round and playerId, with the values of the stored
    row, and no actualType: the event is the same for two rows that
    differ in nothing but actualType. *)
Theorem SubmitPhrase_turn_and_announcement :
  (forall body submissionData room w,
     insertGameSubmissionSchema body = Ret submissionData ->
     find_room (InsertGameSubmission.roomId submissionData) (db w) = Some room ->
     Room.currentPlayerId room <>
     Some (InsertGameSubmission.playerId submissionData) ->
     let response := fst (post_submissions body w) in
     let w' := snd (post_submissions body w) in
     is_error response = true /\ db w' = db w /\ trace w' = trace w
     /\ (hd false (faults w) = false -> response = NotYourTurn))
  /\ (forall body w,
        let response := fst (post_submissions body w) in
        let w' := snd (post_submissions body w) in
        is_error response = false ->
        exists s,
          response = json (a_submission s)
          /\ In s (gameSubmissions (db w'))
          /\ trace w' =
             trace w ++ broadcast_log (GameSubmission.roomId s) (new_submission s) w
          /\ (forall e,
                In e (broadcast_log (GameSubmission.roomId s) (new_submission s) w) ->
                e = Stringified (new_submission s)
                \/ exists ws, e = Sent ws (JSON_stringify (new_submission s)))
          /\ keys (new_submission s) = ["type"; "submission"]
          /\ prop "type" (new_submission s) = JStr "new_submission"
          /\ keys (prop "submission" (new_submission s)) =
             ["id"; "phrase"; "round"; "playerId"]
          /\ prop "id" (prop "submission" (new_submission s)) =
             JNum (GameSubmission.id s)
          /\ prop "phrase" (prop "submission" (new_submission s)) =
             JStr (GameSubmission.phrase s)
          /\ prop "round" (prop "submission" (new_submission s)) =
             JNum (GameSubmission.round s)
          /\ prop "playerId" (prop "submission" (new_submission s)) =
             JNum (GameSubmission.playerId s)
          /\ prop "actualType" (prop "submission" (new_submission s)) = JUndefined
          /\ prop "actualType" (new_submission s) = JUndefined
          /\ (forall actualType,
                new_submission
                  (GameSubmission.mk (GameSubmission.id s)
                     (GameSubmission.roomId s) (GameSubmission.playerId s)
                     (GameSubmission.round s) (GameSubmission.phrase s)
                     actualType) =
                new_submission s)).
Proof.
  split.
  - intros body sd room w Hparse Hroom Hturn.
    exact (post_submissions_out_of_turn body sd room w Hparse Hroom Hturn).
  - intros body w. cbv zeta. intros Hok.
    destruct (post_submissions_cases body w)
      as [(He & _) | (sd & room & Hp & Hr & Hc & Hresp & Hdb & Htr)];
      cbv zeta in *; [congruence |].
    exists (new_row sd (db w)). repeat split; trivial.
    + rewrite Hdb. apply in_or_app. right. now left.
    + intros e He. unfold broadcast_log in He. simpl in He.
      destruct (Map_get String.eqb _ _); [| contradiction].
      destruct He as [<- | He]; [now left |].
      apply In_frames in He as (ws & -> & _). right. now exists ws.
Qed.


(** ** Errors and what they leave behind *)

Lemma createUser_throw insertUser d e :
  fst (storage.createUser insertUser d) = Throw e ->
  same_tables d (snd (storage.createUser insertUser d)).
Proof.
  unfold storage.createUser. destruct (existsb _ _); simpl.
  - now repeat split.
  - discriminate.
Qed.

Lemma createRoom_throw insertRoom hostId d e :
  fst (storage.createRoom insertRoom hostId d) = Throw e ->
  same_tables d (snd (storage.createRoom insertRoom hostId d)).
Proof.
  unfold storage.createRoom.
  destruct (int_param hostId); simpl; [| now repeat split].
  destruct (room_exists _ _); simpl; [now repeat split |].
  destruct (negb _); simpl; [now repeat split | discriminate].
Qed.

Lemma joinRoom_throw roomId userId d e :
  fst (storage.joinRoom roomId userId d) = Throw e ->
  same_tables d (snd (storage.joinRoom roomId userId d)).
Proof.
  unfold storage.joinRoom.
  destruct (int_param userId); simpl; [| now repeat split].
  destruct (negb (room_exists _ _)); simpl; [now repeat split |].
  destruct (negb _); simpl; [now repeat split | discriminate].
Qed.

Lemma updateRoom_throw roomId updates d e :
  fst (storage.updateRoom roomId updates d) = Throw e ->
  same_tables d (snd (storage.updateRoom roomId updates d)).
Proof.
  unfold storage.updateRoom. destruct (_ && _); simpl.
  - now repeat split.
  - discriminate.
Qed.

Lemma createSubmission_throw submission d e :
  fst (storage.createSubmission submission d) = Throw e ->
  same_tables d (snd (storage.createSubmission submission d)).
Proof.
  destruct (createSubmission_cases submission d) as [(_ & ->) | (H & _)].
  - now repeat split.
  - congruence.
Qed.

Lemma createVote_throw vote d e :
  fst (storage.createVote vote d) = Throw e ->
  same_tables d (snd (storage.createVote vote d)).
Proof.
  destruct (createVote_cases vote d) as [(_ & -> & _) | (H & _)].
  - now repeat split.
  - congruence.
Qed.

Hint Resolve same_tables_refl createUser_throw createRoom_throw joinRoom_throw
     updateRoom_throw createSubmission_throw createVote_throw : routes.












(** ** The registry along a run *)

(** The routes read the registry and never write it. *)
Lemma route_registry req w :
  roomConnections (snd (route req w)) = roomConnections w
  /\ userConnections (snd (route req w)) = userConnections w
  /\ readyState (snd (route req w)) = readyState w.
Proof.
  destruct req; simpl;
    [ unfold post_users | unfold post_rooms | unfold post_rooms_join
    | unfold post_rooms_start | unfold post_submissions | unfold post_votes ];
    by_wp; wp_run; repeat split.
Qed.

Lemma Map_delete_keys (userId : Z) (uc : list (Z * WebSocket)) :
  NoDup (map fst uc) -> NoDup (map fst (Map_delete Z.eqb userId uc)).
Proof.
  induction uc as [| [u c] uc IH]; simpl; trivial.
  intros H. inversion H as [| ? ? Hnotin Hnd]; subst.
  destruct (userId =? u); simpl; trivial.
  constructor; auto.
  intros Hin. apply Hnotin. clear - Hin.
  induction uc as [| [u' c'] uc IH]; simpl in *; trivial.
  destruct (userId =? u'); simpl in *; tauto.
Qed.

Lemma unbind_user_keys ws uc :
  NoDup (map fst uc) -> NoDup (map fst (unbind_user ws uc)).
Proof.
  intros H. unfold unbind_user.
  destruct (find _ uc) as [[userId c] |]; trivial.
  now apply Map_delete_keys.
Qed.

(** In a reachable world a user has at most one entry in the map of user
    connections. *)
Lemma reachable_userConnections w :
  reachable w -> NoDup (map fst (userConnections w)).
Proof.
  intros [inputs <-].
  assert (forall w0, NoDup (map fst (userConnections w0)) ->
                     NoDup (map fst (userConnections (run w0 inputs)))) as H.
  { induction inputs as [| i inputs IH]; intros w0 H0; simpl; trivial.
    apply IH. destruct i as [req | ws [| roomId userId |] | ws s | fs]; trivial.
    - simpl. now rewrite (proj1 (proj2 (route_registry req w0))).
    - unfold step. rewrite on_message_join_room. simpl.
      apply Map_set_NoDup; trivial. apply Z.eqb_eq.
    - destruct s; simpl; trivial. now apply unbind_user_keys. }
  apply H. constructor.
Qed.

Lemma Map_set_sole_entry (userId : Z) (ws : WebSocket) uc :
  NoDup (map fst uc) ->
  filter (fun e : Z * WebSocket => fst e =? userId) (Map_set Z.eqb userId ws uc) =
  [(userId, ws)].
Proof.
  induction uc as [| [u c] uc IH]; simpl.
  - now rewrite Z.eqb_refl.
  - intros H. inversion H as [| ? ? Hnotin Hnd]; subst.
    destruct (userId =? u) eqn:E; simpl.
    + apply Z.eqb_eq in E. subst u. rewrite Z.eqb_refl. f_equal.
      clear - Hnotin. induction uc as [| [u' c'] uc IH]; simpl in *; trivial.
      destruct (u' =? userId) eqn:E.
      * apply Z.eqb_eq in E. tauto.
      * apply IH. tauto.
    + rewrite Z.eqb_sym, E. auto.
Qed.

Lemma members_after_join ws roomId userId roomId0 w x :
  In x (members roomId0 w) ->
  In x (members roomId0 (on_message ws (join_room roomId userId) w)).
Proof.
  intros Hx. rewrite on_message_join_room. unfold members at 1. simpl.
  destruct (String.eqb roomId0 roomId) eqn:E.
  - apply String.eqb_eq in E. subst roomId0.
    rewrite (Map_get_set String.eqb String.eqb_eq).
    now apply Set_add_keeps.
  - apply String.eqb_neq in E.
    rewrite (Map_get_set_other String.eqb String.eqb_eq) by trivial.
    exact Hx.
Qed.

Lemma members_of_joined_room ws roomId userId w :
  members roomId (on_message ws (join_room roomId userId) w) =
  Set_add ws (members roomId w).
Proof.
  rewrite on_message_join_room. unfold members at 1. simpl.
  now rewrite (Map_get_set String.eqb String.eqb_eq).
Qed.

(** ** The claims on the registry *)

(** C7. [broadcastToRoom roomId message] adds to the trace one call of
    [JSON.stringify] on the message when the room has a broadcast set (and
    none otherwise, nor one per connection), then one frame, carrying that one
    string, for each connection of the set of [roomId] whose transport is
    open, in the order of the set.  A frame goes to a connection if and only
    if the connection is in the set of [roomId] and open; a connection that
    is not in that set, whatever other rooms it is bound to, receives
    nothing; a connection that is not open is passed over, nothing is logged
    as an error, and the registry, the sockets and the database are left as
    they were. *)
Theorem broadcastToRoom_delivers_to_open_members roomId message w :
  let w' := broadcastToRoom roomId message w in
  exists log,
    trace w' = trace w ++ log
    /\ log = (if Map_has String.eqb roomId (roomConnections w)
              then [Stringified message] else []) ++
             map (fun ws => Sent ws (JSON_stringify message))
                 (filter (fun ws => is_open (readyState w ws))
                         (members roomId w))
    /\ stringify_calls log =
       (if Map_has String.eqb roomId (roomConnections w) then 1%nat else 0%nat)
    /\ (forall ws data,
          In (Sent ws data) log <->
          data = JSON_stringify message
          /\ In ws (members roomId w) /\ readyState w ws = OPEN)
    /\ (forall ws data, ~ In ws (members roomId w) -> ~ In (Sent ws data) log)
    /\ (forall ws data, readyState w ws <> OPEN -> ~ In (Sent ws data) log)
    /\ ~ In ConsoleError log
    /\ roomConnections w' = roomConnections w
    /\ userConnections w' = userConnections w
    /\ readyState w' = readyState w
    /\ db w' = db w.
Proof.
  cbv zeta. exists (broadcast_log roomId message w).
  rewrite broadcastToRoom_eq. simpl.
  assert (forall ws data,
            In (Sent ws data) (broadcast_log roomId message w) <->
            data = JSON_stringify message
            /\ In ws (members roomId w) /\ readyState w ws = OPEN) as Hiff.
  { intros ws data. unfold broadcast_log, members.
    destruct (Map_get String.eqb roomId (roomConnections w)) as [c |]; simpl.
    - rewrite In_frames. split.
      + intros [H | (ws' & [= -> ->] & Hin & Hopen)]; [discriminate | auto].
      + intros (-> & Hin & Hopen). right. now exists ws.
    - tauto. }
  repeat match goal with |- _ /\ _ => split end; trivial.
  - unfold broadcast_log, members, Map_has, frames.
    now destruct (Map_get String.eqb roomId (roomConnections w)).
  - unfold broadcast_log, Map_has.
    destruct (Map_get String.eqb roomId (roomConnections w)); trivial.
    unfold stringify_calls. simpl. f_equal. apply stringify_calls_frames.
  - intros ws data Hnot Hin. apply Hiff in Hin. tauto.
  - intros ws data Hnot Hin. apply Hiff in Hin. tauto.
  - unfold broadcast_log.
    destruct (Map_get String.eqb roomId (roomConnections w)); simpl; [| tauto].
    intros [H | H]; [discriminate |].
    apply In_frames in H as (ws & H & _). discriminate.
Qed.

(** C10. When a join_room message arrives on a connection whose transport
    is open, the connection is in the broadcast set of the room when the
    user_joined event is sent: after the handler the connection is a member
    of the room, and the frames the handler sent are those of a broadcast of
    the event to the set with the connection in it, the connection's own
    frame among them. *)
Theorem join_room_announces_to_the_joiner ws roomId userId w :
  readyState w ws = OPEN ->
  let w' := on_message ws (join_room roomId userId) w in
  In ws (members roomId w')
  /\ trace w' =
     trace w ++
     Stringified (user_joined userId)
       :: frames (JSON_stringify (user_joined userId)) (readyState w)
                 (members roomId w')
  /\ In (Sent ws (JSON_stringify (user_joined userId)))
        (frames (JSON_stringify (user_joined userId)) (readyState w)
                (members roomId w')).
Proof.
  intros Hopen. cbv zeta. rewrite members_of_joined_room.
  repeat match goal with |- _ /\ _ => split end.
  - apply Set_add_In.
  - now rewrite on_message_join_room.
  - apply In_frames. exists ws. repeat split; trivial. apply Set_add_In.
Qed.

(** C8, as the code has it.  In a reachable world, when a user bound to a
    connection sends join_room over another connection, the user has one
    entry in the map of user connections afterwards, and it is the new
    connection: the old one is no longer the connection of the user.  The old
    connection is not closed, and it is not taken out of any broadcast set: it
    is still a member of every room it was a member of and, while its
    transport is open, it still receives every broadcast to such a room. *)
Theorem rebinding_replaces_the_user_entry_only
        old new userId roomId0 roomId w :
  reachable w ->
  Map_get Z.eqb userId (userConnections w) = Some old ->
  In old (members roomId0 w) ->
  new <> old ->
  let w' := on_message new (join_room roomId userId) w in
  bindings_of userId w' = [(userId, new)]
  /\ Map_get Z.eqb userId (userConnections w') = Some new
  /\ ~ In (userId, old) (userConnections w')
  /\ readyState w' old = readyState w old
  /\ In old (members roomId0 w')
  /\ (forall message,
        readyState w' old = OPEN ->
        In (Sent old (JSON_stringify message))
           (broadcast_log roomId0 message w')).
Proof.
  intros Hreach Hbound Hmember Hne. cbv zeta.
  pose proof (members_after_join new roomId userId roomId0 w old Hmember) as Hin.
  pose proof (reachable_userConnections w Hreach) as Hnd.
  assert (bindings_of userId (on_message new (join_room roomId userId) w) =
          [(userId, new)]) as Hsole.
  { unfold bindings_of. rewrite on_message_join_room. simpl.
    now apply Map_set_sole_entry. }
  repeat match goal with |- _ /\ _ => split end; trivial.
  - rewrite on_message_join_room. simpl.
    apply (Map_get_set Z.eqb Z.eqb_eq).
  - intros Hold.
    assert (In (userId, old)
               (bindings_of userId (on_message new (join_room roomId userId) w)))
      as H.
    { apply filter_In. split; trivial. simpl. apply Z.eqb_refl. }
    rewrite Hsole in H. destruct H as [[= H] | []]. now apply Hne.
  - now rewrite on_message_join_room.
  - intros message Hopen. unfold broadcast_log.
    unfold members in Hin.
    destruct (Map_get String.eqb roomId0 _) as [c |]; [| contradiction].
    right. apply In_frames. exists old. auto.
Qed.


Lemma reachable_world_after inputs : reachable (world_after inputs).
Proof. now exists inputs. Qed.

(** * Beyond the claims *)

(** ** The registry *)

Lemma Set_add_NoDup ws s : NoDup s -> NoDup (Set_add ws s).
Proof.
  intros Hs. unfold Set_add, Set_has.
  destruct (existsb (Nat.eqb ws) s) eqn:E; trivial.
  apply NoDup_app; trivial.
  - constructor; [intros [] | constructor].
  - intros x Hx [<- | []].
    assert (existsb (Nat.eqb ws) s = true) as F; [| congruence].
    apply existsb_exists. exists ws. split; trivial. apply Nat.eqb_refl.
Qed.

Lemma Set_add_nonempty ws s : Set_add ws s <> [].
Proof.
  intros H. pose proof (Set_add_In ws s) as Hin. rewrite H in Hin. contradiction.
Qed.

Lemma Set_add_member ws s : In ws s -> Set_add ws s = s.
Proof.
  intros Hin. unfold Set_add, Set_has.
  destruct (existsb (Nat.eqb ws) s) eqn:E; trivial.
  assert (existsb (Nat.eqb ws) s = true) as F; [| congruence].
  apply existsb_exists. exists ws. split; trivial. apply Nat.eqb_refl.
Qed.

Lemma Set_delete_In ws x s : In x (Set_delete ws s) <-> In x s /\ x <> ws.
Proof.
  unfold Set_delete. rewrite filter_In. split; intros [H1 H2]; split; trivial.
  - intros ->. now rewrite Nat.eqb_refl in H2.
  - apply negb_true_iff, Nat.eqb_neq. congruence.
Qed.

Lemma Set_delete_NoDup ws s : NoDup s -> NoDup (Set_delete ws s).
Proof. apply NoDup_filter. Qed.

Lemma Map_get_In_entry (k : string) (c : list WebSocket) m :
  Map_get String.eqb k m = Some c -> In (k, c) m.
Proof.
  induction m as [| [k' v'] m IH]; simpl; [discriminate |].
  destruct (String.eqb k k') eqn:E.
  - apply String.eqb_eq in E. subst. intros [= ->]. now left.
  - auto.
Qed.

Lemma Map_set_In (roomId k : string) (v c : list WebSocket) m :
  In (k, c) (Map_set String.eqb roomId v m) ->
  (k = roomId /\ c = v) \/ In (k, c) m.
Proof.
  induction m as [| [k' v'] m IH]; simpl.
  - intros [[= <- <-] | []]. now left.
  - destruct (String.eqb roomId k') eqn:E; simpl.
    + apply String.eqb_eq in E. subst k'.
      intros [[= <- <-] | H]; auto.
    + intros [H | H]; auto. destruct (IH H); auto.
Qed.

Lemma Map_set_past (k : string) (v c : list WebSocket) l1 l2 :
  ~ In k (map fst l1) ->
  Map_set String.eqb k v (l1 ++ (k, c) :: l2) = l1 ++ (k, v) :: l2.
Proof.
  induction l1 as [| [k' v'] l1 IH]; simpl; intros Hnotin.
  - now rewrite String.eqb_refl.
  - destruct (String.eqb k k') eqn:E.
    + apply String.eqb_eq in E. subst. tauto.
    + rewrite IH; tauto.
Qed.

Lemma Map_delete_past (k : string) (c : list WebSocket) l1 l2 :
  ~ In k (map fst l1) ->
  Map_delete String.eqb k (l1 ++ (k, c) :: l2) = l1 ++ l2.
Proof.
  induction l1 as [| [k' v'] l1 IH]; simpl; intros Hnotin.
  - now rewrite String.eqb_refl.
  - destruct (String.eqb k k') eqn:E.
    + apply String.eqb_eq in E. subst. tauto.
    + rewrite IH; tauto.
Qed.

Lemma without_socket_keys ws rc k :
  In k (map fst (without_socket ws rc)) -> In k (map fst rc).
Proof.
  induction rc as [| [k' c] rc IH]; simpl; trivial.
  destruct (Set_delete ws c); simpl; intros H; tauto.
Qed.

Lemma without_socket_app ws l1 l2 :
  without_socket ws (l1 ++ l2) = without_socket ws l1 ++ without_socket ws l2.
Proof. unfold without_socket. apply flat_map_app. Qed.

(** The first loop of the close handler, in closed form. *)
Lemma leave_rooms_eq ws rc :
  NoDup (map fst rc) -> leave_rooms ws rc = without_socket ws rc.
Proof.
  intros Hnd. unfold leave_rooms.
  assert (forall todo done,
            NoDup (map fst (done ++ todo)) ->
            fold_left
              (fun (m : list (string * list WebSocket))
                   (entry : string * list WebSocket) =>
                 let (roomId, connections) := entry in
                 let connections := Set_delete ws connections in
                 if Nat.eqb (length connections) 0
                 then Map_delete String.eqb roomId m
                 else Map_set String.eqb roomId connections m)
              todo (without_socket ws done ++ todo) =
            without_socket ws (done ++ todo)) as H.
  { induction todo as [| [k c] todo IH]; intros done Hd.
    - simpl. now rewrite !app_nil_r.
    - simpl.
      assert (~ In k (map fst (without_socket ws done))) as Hfresh.
      { intros Hin. apply without_socket_keys in Hin.
        rewrite map_app in Hd. apply NoDup_app_remove_r in Hd as Hd1.
        clear Hd1. revert Hd Hin. clear.
        induction done as [| [k' c'] done IH]; simpl; [tauto |].
        intros Hd [-> | Hin].
        - inversion Hd as [| ? ? Hn _]; subst. apply Hn.
          apply in_or_app. right. now left.
        - inversion Hd; subst. auto. }
      replace (done ++ (k, c) :: todo) with ((done ++ [(k, c)]) ++ todo) in *
        by now rewrite <- app_assoc.
      rewrite <- (IH (done ++ [(k, c)]) Hd). f_equal.
      rewrite without_socket_app. simpl.
      destruct (Set_delete ws c) as [| x xs] eqn:E; simpl.
      + rewrite app_nil_r. now apply Map_delete_past.
      + rewrite <- app_assoc. simpl. now apply Map_set_past. }
  apply (H rc []). exact Hnd.
Qed.

Lemma Map_get_without_socket ws rc roomId :
  NoDup (map fst rc) ->
  Map_get String.eqb roomId (without_socket ws rc) =
  match Map_get String.eqb roomId rc with
  | Some connections =>
      match Set_delete ws connections with
      | [] => None
      | remaining => Some remaining
      end
  | None => None
  end.
Proof.
  induction rc as [| [k c] rc IH]; simpl; trivial.
  intros Hnd. inversion Hnd as [| ? ? Hnotin Hnd']; subst.
  destruct (String.eqb roomId k) eqn:E.
  - apply String.eqb_eq in E. subst k.
    destruct (Set_delete ws c) as [| x xs]; simpl.
    + apply (Map_get_None String.eqb String.eqb_eq).
      intros Hin. apply Hnotin. now apply without_socket_keys in Hin.
    + now rewrite String.eqb_refl.
  - destruct (Set_delete ws c) as [| x xs]; simpl; [now apply IH |].
    rewrite E. now apply IH.
Qed.

Lemma without_socket_In ws rc roomId connections :
  In (roomId, connections) (without_socket ws rc) ->
  connections <> []
  /\ exists before, In (roomId, before) rc
                    /\ connections = Set_delete ws before.
Proof.
  induction rc as [| [k c] rc IH]; simpl; [tauto |].
  destruct (Set_delete ws c) as [| x xs] eqn:E; simpl.
  - intros H. destruct (IH H) as (Hne & before & Hin & Heq).
    split; trivial. exists before. auto.
  - intros [[= <- <-] | H].
    + split; [discriminate |]. exists c. auto.
    + destruct (IH H) as (Hne & before & Hin & Heq).
      split; trivial. exists before. auto.
Qed.

Lemma without_socket_NoDup ws rc :
  NoDup (map fst rc) -> NoDup (map fst (without_socket ws rc)).
Proof.
  induction rc as [| [k c] rc IH]; simpl; trivial.
  intros Hnd. inversion Hnd as [| ? ? Hnotin Hnd']; subst.
  destruct (Set_delete ws c); simpl; auto.
  constructor; auto.
  intros Hin. apply Hnotin. now apply without_socket_keys in Hin.
Qed.

Lemma wf_registry_initial : wf_registry initial_world.
Proof.
  constructor; simpl.
  - constructor.
  - intros roomId connections [].
  - constructor.
Qed.

Lemma wf_registry_step w i : wf_registry w -> wf_registry (step w i).
Proof.
  intros [Hrk Hrs Huk].
  destruct i as [req | ws [| roomId userId |] | ws s | fs].
  - destruct (route_registry req w) as (E1 & E2 & _). simpl.
    constructor; rewrite ?E1, ?E2; trivial.
  - now constructor.
  - unfold step. rewrite on_message_join_room. constructor; simpl.
    + apply Map_set_NoDup; trivial. apply String.eqb_eq.
    + intros k c Hin.
      apply Map_set_In in Hin as [[-> ->] | Hin]; [| exact (Hrs k c Hin)].
      split; [apply Set_add_nonempty | apply Set_add_NoDup].
      unfold members.
      destruct (Map_get String.eqb roomId (roomConnections w)) as [c0 |] eqn:E;
        [| constructor].
      apply Map_get_In_entry in E. exact (proj2 (Hrs roomId c0 E)).
    + apply Map_set_NoDup; trivial. apply Z.eqb_eq.
  - now constructor.
  - assert (wf_registry (on_close ws (set_readyState ws CLOSED w))) as Hclose.
    { unfold on_close. constructor; simpl.
      - rewrite leave_rooms_eq by trivial. now apply without_socket_NoDup.
      - rewrite leave_rooms_eq by trivial. intros k c Hin.
        apply without_socket_In in Hin as (Hne & before & Hin & ->).
        split; trivial. apply Set_delete_NoDup. now apply (Hrs k before).
      - now apply unbind_user_keys. }
    destruct s; simpl; trivial; now constructor.
  - now constructor.
Qed.

Lemma reachable_registry w : reachable w -> wf_registry w.
Proof.
  intros [inputs <-].
  assert (forall w0, wf_registry w0 -> wf_registry (run w0 inputs)) as H.
  { induction inputs as [| i inputs IH]; intros w0 H0; simpl; trivial.
    apply IH. now apply wf_registry_step. }
  apply H. apply wf_registry_initial.
Qed.

Lemma members_without_socket ws roomId w :
  wf_registry w ->
  members roomId (step w (ws_state ws CLOSED)) =
  Set_delete ws (members roomId w).
Proof.
  intros Hwf. unfold members. simpl.
  rewrite leave_rooms_eq by apply (wf_room_keys w Hwf).
  rewrite Map_get_without_socket by apply (wf_room_keys w Hwf).
  destruct (Map_get String.eqb roomId (roomConnections w)) as [c |]; trivial.
  now destruct (Set_delete ws c).
Qed.

Lemma frames_to_frames ws messageStr state connections :
  frames_to ws (frames messageStr state connections) =
  frames messageStr state (filter (fun x => Nat.eqb x ws) connections).
Proof.
  unfold frames_to, frames.
  induction connections as [| x l IH]; simpl; trivial.
  destruct (is_open (state x)) eqn:Ho; simpl.
  - destruct (Nat.eqb x ws); simpl; rewrite ?Ho; simpl; now rewrite IH.
  - destruct (Nat.eqb x ws); simpl; rewrite ?Ho; simpl; now rewrite IH.
Qed.

Lemma filter_the_one (ws : WebSocket) l :
  NoDup l -> In ws l -> filter (fun x => Nat.eqb x ws) l = [ws].
Proof.
  induction l as [| x l IH]; simpl; [tauto |].
  intros Hnd Hin. inversion Hnd as [| ? ? Hnotin Hnd']; subst.
  destruct (Nat.eqb x ws) eqn:E.
  - apply Nat.eqb_eq in E. subst x. f_equal.
    clear - Hnotin. induction l as [| y l IH]; simpl in *; trivial.
    destruct (Nat.eqb y ws) eqn:E.
    + apply Nat.eqb_eq in E. tauto.
    + apply IH. tauto.
  - destruct Hin as [-> | Hin]; [now rewrite Nat.eqb_refl in E | auto].
Qed.

Lemma filter_none (ws : WebSocket) l :
  ~ In ws l -> filter (fun x => Nat.eqb x ws) l = [].
Proof.
  induction l as [| y l IH]; simpl; trivial.
  intros Hnotin. destruct (Nat.eqb y ws) eqn:E.
  - apply Nat.eqb_eq in E. tauto.
  - apply IH. tauto.
Qed.

Lemma members_NoDup roomId w : wf_registry w -> NoDup (members roomId w).
Proof.
  intros Hwf. unfold members.
  destruct (Map_get String.eqb roomId (roomConnections w)) as [c |] eqn:E;
    [| constructor].
  apply Map_get_In_entry in E. exact (proj2 (wf_room_sets w Hwf roomId c E)).
Qed.

Lemma frames_to_broadcast_log ws roomId message w :
  frames_to ws (broadcast_log roomId message w) =
  frames (JSON_stringify message) (readyState w)
         (filter (fun x => Nat.eqb x ws) (members roomId w)).
Proof.
  unfold broadcast_log, members.
  destruct (Map_get String.eqb roomId (roomConnections w)) as [c |]; trivial.
  cbn [frames_to filter]. apply frames_to_frames.
Qed.

(** X1. In every world the server can reach, the registry is well kept: a
    room has at most one entry in the map of room connections and its
    broadcast set is not empty and holds a socket at most once, and a user has
    at most one entry in the map of user connections. *)
Theorem registry_is_well_kept w :
  reachable w ->
  NoDup (map fst (roomConnections w))
  /\ NoDup (map fst (userConnections w))
  /\ (forall roomId connections,
        Map_get String.eqb roomId (roomConnections w) = Some connections ->
        connections <> [] /\ NoDup connections)
  /\ (forall roomId, NoDup (members roomId w)).
Proof.
  intros Hreach. pose proof (reachable_registry w Hreach) as Hwf.
  repeat match goal with |- _ /\ _ => split end.
  - apply (wf_room_keys w Hwf).
  - apply (wf_user_keys w Hwf).
  - intros roomId c E. apply Map_get_In_entry in E.
    exact (wf_room_sets w Hwf roomId c E).
  - intros roomId. now apply members_NoDup.
Qed.

(** X2. In a reachable world, a broadcast to a room sends exactly one frame
    to a connection that is in the set of the room and open, and none to any
    other connection. *)
Theorem broadcast_sends_one_frame_each ws roomId message w :
  reachable w ->
  frames_to ws (broadcast_log roomId message w) =
  if existsb (Nat.eqb ws) (members roomId w) && is_open (readyState w ws)
  then [Sent ws (JSON_stringify message)]
  else [].
Proof.
  intros Hreach. pose proof (reachable_registry w Hreach) as Hwf.
  rewrite frames_to_broadcast_log.
  destruct (existsb (Nat.eqb ws) (members roomId w)) eqn:E; simpl.
  - apply existsb_exists in E as (x & Hin & Hx). apply Nat.eqb_eq in Hx.
    subst x. rewrite filter_the_one by (trivial; now apply members_NoDup).
    unfold frames. simpl. now destruct (is_open (readyState w ws)).
  - rewrite filter_none; trivial.
    intros Hin.
    assert (existsb (Nat.eqb ws) (members roomId w) = true) as F;
      [| congruence].
    apply existsb_exists. exists ws. split; trivial. apply Nat.eqb_refl.
Qed.

(** X3. In a reachable world, when a connection closes it leaves the
    broadcast set of every room: the set of a room is what it was without the
    connection, the other members keep their place, and a later broadcast to
    any room sends the connection nothing. *)
Theorem close_leaves_every_room ws roomId w :
  reachable w ->
  let w' := step w (ws_state ws CLOSED) in
  members roomId w' = Set_delete ws (members roomId w)
  /\ ~ In ws (members roomId w')
  /\ (forall x, x <> ws -> In x (members roomId w) -> In x (members roomId w'))
  /\ (forall message, frames_to ws (broadcast_log roomId message w') = []).
Proof.
  intros Hreach. pose proof (reachable_registry w Hreach) as Hwf. cbv zeta.
  pose proof (members_without_socket ws roomId w Hwf) as Hm.
  assert (~ In ws (members roomId (step w (ws_state ws CLOSED)))) as Hgone.
  { rewrite Hm. intros Hin. apply Set_delete_In in Hin. tauto. }
  repeat match goal with |- _ /\ _ => split end; trivial.
  - intros x Hne Hin. rewrite Hm. apply Set_delete_In. auto.
  - intros message. rewrite frames_to_broadcast_log.
    now rewrite filter_none.
Qed.

Lemma unbind_user_bound ws (uc : list (Z * WebSocket)) x :
  NoDup (map fst uc) ->
  map fst (filter (fun entry : Z * WebSocket => Nat.eqb (snd entry) x)
                  (unbind_user ws uc)) =
  if Nat.eqb x ws
  then tl (map fst (filter (fun entry : Z * WebSocket => Nat.eqb (snd entry) x)
                           uc))
  else map fst (filter (fun entry : Z * WebSocket => Nat.eqb (snd entry) x) uc).
Proof.
  unfold unbind_user.
  induction uc as [| [u c] uc IH]; intros Hnd.
  - simpl. now destruct (Nat.eqb x ws).
  - inversion Hnd as [| ? ? Hnotin Hnd']; subst. simpl find.
    cbn [snd]. destruct (Nat.eqb c ws) eqn:Ec.
    + apply Nat.eqb_eq in Ec. subst c. simpl. rewrite Z.eqb_refl.
      destruct (Nat.eqb x ws) eqn:Ex.
      * apply Nat.eqb_eq in Ex. subst x. now rewrite Nat.eqb_refl.
      * rewrite Nat.eqb_sym, Ex. reflexivity.
    + specialize (IH Hnd').
      destruct (find (fun entry : Z * WebSocket => Nat.eqb (snd entry) ws) uc)
        as [[u' c'] |] eqn:Ef.
      * assert (u' <> u) as Hne.
        { apply find_some in Ef as [Hin _]. intros ->. apply Hnotin.
          apply in_map_iff. now exists (u, c'). }
        simpl. destruct (u' =? u) eqn:Eu;
          [apply Z.eqb_eq in Eu; contradiction |].
        simpl. destruct (Nat.eqb c x) eqn:Ecx; simpl.
        -- rewrite IH. destruct (Nat.eqb x ws) eqn:Ex; trivial.
           apply Nat.eqb_eq in Ecx, Ex. subst.
           rewrite Nat.eqb_refl in Ec. discriminate.
        -- exact IH.
      * simpl. destruct (Nat.eqb c x) eqn:Ecx; simpl.
        -- simpl in IH. rewrite IH. destruct (Nat.eqb x ws) eqn:Ex; trivial.
           apply Nat.eqb_eq in Ecx, Ex. subst.
           rewrite Nat.eqb_refl in Ec. discriminate.
        -- exact IH.
Qed.

(** X4. In a reachable world, the close handler unbinds one user and stops:
    of the users whose connection is the closing socket, the first in the
    order of the map is deleted and the others stay bound to the closed
    socket; the users of other sockets are left as they were. *)
Theorem close_unbinds_the_first_user_only ws x w :
  reachable w ->
  bound_users x (step w (ws_state ws CLOSED)) =
  if Nat.eqb x ws then tl (bound_users x w) else bound_users x w.
Proof.
  intros Hreach. pose proof (reachable_registry w Hreach) as Hwf.
  unfold bound_users. simpl.
  apply unbind_user_bound. apply (wf_user_keys w Hwf).
Qed.

(** X5. A join_room message repeated on the same connection changes nothing
    in the registry: the connection is in the set of the room once and is the
    connection of the user, as after the first message.  The user_joined
    event is broadcast again, to the same set. *)
Theorem join_room_twice ws roomId userId w :
  let w1 := on_message ws (join_room roomId userId) w in
  let w2 := on_message ws (join_room roomId userId) w1 in
  roomConnections w2 = roomConnections w1
  /\ userConnections w2 = userConnections w1
  /\ trace w2 =
     trace w1 ++
     Stringified (user_joined userId)
       :: frames (JSON_stringify (user_joined userId)) (readyState w)
                 (members roomId w1).
Proof.
  cbv zeta.
  pose proof (members_of_joined_room ws roomId userId w) as Hm.
  rewrite (on_message_join_room ws roomId userId
             (on_message ws (join_room roomId userId) w)).
  rewrite Hm. rewrite (Set_add_member ws (Set_add ws (members roomId w)))
    by apply Set_add_In.
  rewrite on_message_join_room. simpl.
  rewrite (Map_set_set String.eqb String.eqb_eq).
  rewrite (Map_set_set Z.eqb Z.eqb_eq).
  repeat split.
Qed.

(** ** The tables along a run *)

Lemma players_of_first roomId d p :
  In p (players_of roomId d) -> In (fst p) (joined roomId d).
Proof.
  unfold players_of. intros H. apply in_flat_map in H as (q & Hq & Hp).
  apply in_map_iff in Hp as (u & <- & _). exact Hq.
Qed.

(** A refused insert: the tables stay and a counter moves on. *)
Ltac skipped :=
  apply change_counters; [now repeat split | simpl; lia ..].

Lemma write_change d d' : write d d' -> change d d'.
Proof.
  destruct 1.
  - unfold storage.createUser.
    destruct (existsb _ (users d)) eqn:E; simpl; [skipped |].
    now apply change_user.
  - unfold storage.createRoom.
    destruct (int_param hostId); simpl; [| apply change_nothing].
    destruct (room_exists d _) eqn:E1; simpl; [apply change_nothing |].
    destruct (user_exists d z) eqn:E2; simpl; [| apply change_nothing].
    now apply change_room.
  - unfold storage.joinRoom.
    destruct (int_param userId); simpl; [| apply change_nothing].
    destruct (room_exists d roomId) eqn:E1; simpl; [| skipped].
    destruct (user_exists d z) eqn:E2; simpl; [| skipped].
    now apply change_player.
  - unfold storage.updateRoom.
    destruct (_ && _); simpl; [apply change_nothing |].
    apply (change_start d roomId (fst p)). now apply players_of_first.
  - unfold storage.createSubmission.
    destruct (room_exists d _) eqn:E1; simpl; [| skipped].
    destruct (user_exists d _) eqn:E2; simpl; [| skipped].
    now apply change_submission.
  - unfold storage.createVote.
    destruct (submission_exists d _) eqn:E1; simpl; [| skipped].
    destruct (user_exists d _) eqn:E2; simpl; [| skipped].
    now apply change_vote.
Qed.

Lemma existsb_snoc {A : Type} (f : A -> bool) l x :
  existsb f l = true -> existsb f (l ++ [x]) = true.
Proof. intros H. rewrite existsb_app, H. reflexivity. Qed.

Lemma existsb_false_notin {A B : Type} (key : A -> B) (eqb : B -> B -> bool)
      (k : B) l :
  (forall a b, eqb a b = true <-> a = b) ->
  existsb (fun x => eqb (key x) k) l = false -> ~ In k (map key l).
Proof.
  intros Heq H Hin. apply in_map_iff in Hin as (x & <- & Hx).
  assert (existsb (fun y => eqb (key y) (key x)) l = true) as F;
    [| congruence].
  apply existsb_exists. exists x. split; trivial. now apply Heq.
Qed.

Lemma NoDup_snoc_string (l : list string) (y : string) :
  NoDup l -> ~ In y l -> NoDup (l ++ [y]).
Proof.
  intros Hl Hy. apply NoDup_app; trivial.
  - constructor; [intros [] | constructor].
  - intros x Hx [<- | []]. contradiction.
Qed.

Lemma room_exists_started roomId first (rs : list Room.t) k :
  existsb (fun r => String.eqb (Room.id r) k)
          (map (fun r => if String.eqb (Room.id r) roomId
                         then started r first else r) rs) =
  existsb (fun r => String.eqb (Room.id r) k) rs.
Proof.
  induction rs as [| r rs IH]; simpl; trivial.
  rewrite IH. now destruct (String.eqb (Room.id r) roomId).
Qed.

Lemma integrity_empty : integrity empty_db.
Proof.
  constructor; simpl; try (intros ? []); constructor.
Qed.

Lemma integrity_change d d' : change d d' -> integrity d -> integrity d'.
Proof.
  intros Hc [Hun Hri Hrh Hpr Hsr Hsi Hvr Hvi Htu].
  destruct Hc as [| d' (Eu & Er & Ep & Es & Ev) Cu Cp Cs Cv
                  | row Hfresh Hid | row Hfresh Hhost Hst Hcur
                  | row Hroom Huser Hid Hscore | roomId first Hfirst
                  | row Hroom Huser Hid | row Hsub Huser Hid].
  - now constructor.
  - constructor;
      unfold user_exists, room_exists, submission_exists, joined in *;
      rewrite ?Eu, ?Er, ?Ep, ?Es, ?Ev; trivial.
    + intros s Hs. destruct (Hsr s Hs) as (H1 & H2 & H3).
      repeat split; trivial. lia.
    + intros v Hv. destruct (Hvr v Hv) as (H1 & H2 & H3).
      repeat split; trivial. lia.
  - constructor; unfold user_exists, room_exists, submission_exists in *;
      simpl; trivial.
    + rewrite map_app. simpl. apply NoDup_snoc_string; trivial.
      apply (existsb_false_notin User.username String.eqb); trivial.
      apply String.eqb_eq.
    + intros r Hr. apply existsb_snoc. auto.
    + intros s Hs. destruct (Hsr s Hs) as (H1 & H2 & H3).
      repeat split; trivial. now apply existsb_snoc.
    + intros v Hv. destruct (Hvr v Hv) as (H1 & H2 & H3).
      repeat split; trivial. now apply existsb_snoc.
  - constructor; unfold user_exists, room_exists, submission_exists in *;
      simpl; trivial.
    + rewrite map_app. simpl. apply NoDup_snoc_string; trivial.
      apply (existsb_false_notin Room.id String.eqb); trivial.
      apply String.eqb_eq.
    + intros r Hr. apply in_app_or in Hr as [Hr | [<- | []]]; auto.
    + intros p Hp. apply existsb_snoc. auto.
    + intros s Hs. destruct (Hsr s Hs) as (H1 & H2 & H3).
      repeat split; trivial. now apply existsb_snoc.
    + intros r Hr. apply in_app_or in Hr as [Hr | [<- | []]].
      * exact (Htu r Hr).
      * now rewrite Hcur.
  - constructor; unfold user_exists, room_exists, submission_exists in *;
      simpl; trivial.
    + intros p Hp. apply in_app_or in Hp as [Hp | [<- | []]]; auto.
    + intros r Hr. specialize (Htu r Hr).
      destruct (Room.currentPlayerId r) as [c |]; trivial.
      destruct Htu as (Hs & p & Hp & Hc). split; trivial.
      exists p. split; trivial. unfold joined in *. simpl.
      rewrite filter_app. apply in_or_app. now left.
  - constructor; unfold user_exists, room_exists, submission_exists in *;
      simpl; trivial.
    + rewrite map_map.
      replace (map (fun r => Room.id (if String.eqb (Room.id r) roomId
                                      then started r first else r)) (rooms d))
        with (map Room.id (rooms d)); trivial.
      apply map_ext. intros r. now destruct (String.eqb (Room.id r) roomId).
    + intros r Hr. apply in_map_iff in Hr as (r0 & <- & Hr0).
      destruct (String.eqb (Room.id r0) roomId); simpl; auto.
    + intros p Hp. rewrite room_exists_started. auto.
    + intros s Hs. destruct (Hsr s Hs) as (H1 & H2 & H3).
      repeat split; trivial. now rewrite room_exists_started.
    + intros r Hr. apply in_map_iff in Hr as (r0 & <- & Hr0).
      destruct (String.eqb (Room.id r0) roomId) eqn:E.
      * simpl. split; trivial. exists first. split; trivial.
        apply String.eqb_eq in E. now rewrite E.
      * exact (Htu r0 Hr0).
  - constructor; unfold user_exists, room_exists, submission_exists in *;
      simpl; trivial.
    + intros s Hs. apply in_app_or in Hs as [Hs | [<- | []]].
      * destruct (Hsr s Hs) as (H1 & H2 & H3). repeat split; trivial. lia.
      * repeat split; trivial. lia.
    + rewrite map_app. simpl. apply StronglySorted_snoc; trivial.
      intros x Hx. apply in_map_iff in Hx as (s & <- & Hs).
      destruct (Hsr s Hs) as (_ & _ & H3). lia.
    + intros v Hv. destruct (Hvr v Hv) as (H1 & H2 & H3).
      repeat split; trivial. now apply existsb_snoc.
  - constructor; unfold user_exists, room_exists, submission_exists in *;
      simpl; trivial.
    + intros v Hv. apply in_app_or in Hv as [Hv | [<- | []]].
      * destruct (Hvr v Hv) as (H1 & H2 & H3). repeat split; trivial. lia.
      * repeat split; trivial. lia.
    + rewrite map_app. simpl. apply StronglySorted_snoc; trivial.
      intros x Hx. apply in_map_iff in Hx as (v & <- & Hv).
      destruct (Hvr v Hv) as (_ & _ & H3). lia.
Qed.

Lemma integrity_writes d d' : writes d d' -> integrity d -> integrity d'.
Proof.
  induction 1; eauto using integrity_change, write_change.
Qed.

Lemma reachable_integrity w : reachable w -> integrity (db w).
Proof.
  intros [inputs <-].
  assert (forall w0, integrity (db w0) -> integrity (db (run w0 inputs))) as H.
  { induction inputs as [| i inputs IH]; intros w0 H0; simpl; trivial.
    apply IH. pose proof (step_db w0 i) as E.
    destruct i; rewrite E; trivial.
    eapply integrity_writes; [apply route_writes | trivial]. }
  apply H. apply integrity_empty.
Qed.

Lemma StronglySorted_lt_NoDup (l : list Z) : StronglySorted Z.lt l -> NoDup l.
Proof.
  induction 1 as [| a l Hl IH Ha]; constructor; trivial.
  intros Hin. rewrite Forall_forall in Ha. specialize (Ha a Hin). lia.
Qed.

(** X6. In every world the server can reach, every reference of the tables
    has its row: the host of a room is a user, a RoomPlayer row has its room
    and its user, a submission has its room and its player, and a vote has its
    submission and its voter. *)
Theorem references_have_their_rows w :
  reachable w ->
  (forall r, In r (rooms (db w)) -> user_exists (db w) (Room.hostId r) = true)
  /\ (forall p, In p (roomPlayers (db w)) ->
                room_exists (db w) (RoomPlayer.roomId p) = true
                /\ user_exists (db w) (RoomPlayer.userId p) = true)
  /\ (forall s, In s (gameSubmissions (db w)) ->
                room_exists (db w) (GameSubmission.roomId s) = true
                /\ user_exists (db w) (GameSubmission.playerId s) = true)
  /\ (forall v, In v (gameVotes (db w)) ->
                submission_exists (db w) (GameVote.submissionId v) = true
                /\ user_exists (db w) (GameVote.voterId v) = true).
Proof.
  intros Hreach.
  pose proof (reachable_integrity w Hreach) as Hint.
  pose proof (reachable_wf w Hreach) as Hwf.
  repeat match goal with |- _ /\ _ => split end.
  - apply (int_room_host _ Hint).
  - intros p Hp. split.
    + now apply (int_player_room _ Hint).
    + now apply (wf_players_user _ Hwf).
  - intros s Hs. destruct (int_submission_refs _ Hint s Hs) as (H1 & H2 & _).
    now split.
  - intros v Hv. destruct (int_vote_refs _ Hint v Hv) as (H1 & H2 & _).
    now split.
Qed.

(** X7. In every world the server can reach, the keys of the tables are
    unique: no two users share an id or a username, no two rooms share an id,
    and no two RoomPlayer rows, submissions or votes share a serial id. *)
Theorem keys_are_unique w :
  reachable w ->
  NoDup (map User.id (users (db w)))
  /\ NoDup (map User.username (users (db w)))
  /\ NoDup (map Room.id (rooms (db w)))
  /\ NoDup (map RoomPlayer.id (roomPlayers (db w)))
  /\ NoDup (map GameSubmission.id (gameSubmissions (db w)))
  /\ NoDup (map GameVote.id (gameVotes (db w))).
Proof.
  intros Hreach.
  pose proof (reachable_integrity w Hreach) as Hint.
  pose proof (reachable_wf w Hreach) as Hwf.
  repeat match goal with |- _ /\ _ => split end.
  - apply (wf_users_unique _ Hwf).
  - apply (int_usernames _ Hint).
  - apply (int_room_ids _ Hint).
  - apply StronglySorted_lt_NoDup, (wf_players_order _ Hwf).
  - apply StronglySorted_lt_NoDup, (int_submission_ids _ Hint).
  - apply StronglySorted_lt_NoDup, (int_vote_ids _ Hint).
Qed.

Lemma find_room_In roomId d room :
  find_room roomId d = Some room ->
  In room (rooms d) /\ Room.id room = roomId.
Proof.
  unfold find_room. intros H. apply find_some in H as [Hin Heq].
  split; trivial. now apply String.eqb_eq.
Qed.

Lemma turn_of_playing_room roomId room w :
  reachable w ->
  find_room roomId (db w) = Some room ->
  (Room.status room = "waiting" /\ Room.currentPlayerId room = None)
  \/ (Room.status room = "playing"
      /\ exists p,
           In p (joined roomId (db w))
           /\ Room.currentPlayerId room = Some (RoomPlayer.userId p)).
Proof.
  intros Hreach Hroom.
  pose proof (reachable_integrity w Hreach) as Hint.
  apply find_room_In in Hroom as [Hin <-].
  pose proof (int_turn _ Hint room Hin) as H.
  destruct (Room.currentPlayerId room) as [c |].
  - right. destruct H as (Hs & p & Hp & <-). split; trivial. now exists p.
  - left. now split.
Qed.

(** X8. In every world the server can reach, a room has a player of the
    turn exactly when it is playing: a waiting room has none, and the player
    of the turn of a playing room is the user of one of the RoomPlayer rows
    of that room. *)
Theorem turn_belongs_to_a_player_of_a_playing_room roomId room w :
  reachable w ->
  find_room roomId (db w) = Some room ->
  (Room.status room = "waiting" /\ Room.currentPlayerId room = None)
  \/ (Room.status room = "playing"
      /\ exists p,
           In p (joined roomId (db w))
           /\ Room.currentPlayerId room = Some (RoomPlayer.userId p)).
Proof. exact (turn_of_playing_room roomId room w). Qed.

(** X9. In a reachable world a SubmitPhrase succeeds only in a room that is
    playing and only for one of its players: the submitter is the player of
    the turn of the room, and a RoomPlayer row of the room carries its user
    id. *)
Theorem SubmitPhrase_needs_a_playing_room body w :
  reachable w ->
  is_error (fst (post_submissions body w)) = false ->
  exists s room p,
    fst (post_submissions body w) = json (a_submission s)
    /\ find_room (GameSubmission.roomId s) (db w) = Some room
    /\ Room.status room = "playing"
    /\ Room.currentPlayerId room = Some (GameSubmission.playerId s)
    /\ In p (joined (GameSubmission.roomId s) (db w))
    /\ RoomPlayer.userId p = GameSubmission.playerId s.
Proof.
  intros Hreach Hok.
  destruct (post_submissions_cases body w)
    as [(He & _) | (sd & room & Hp & Hr & Hc & Hresp & _)];
    cbv zeta in *; [congruence |].
  destruct (turn_of_playing_room _ _ _ Hreach Hr)
    as [[_ Hnone] | (Hs & p & Hin & Hcur)]; [congruence |].
  exists (new_row sd (db w)), room, p. simpl.
  repeat match goal with |- _ /\ _ => split end; trivial. congruence.
Qed.

(** ** What each route writes *)

(** Open the writes of the storage layer in the goal and follow every
    test. *)
Ltac storage_frame :=
  unfold storage.createUser, storage.createRoom, storage.joinRoom,
         storage.updateRoom, storage.createSubmission, storage.createVote;
  repeat match goal with
         | |- context [match ?x with _ => _ end] => destruct x
         end;
  cbn; repeat split.

Lemma route_untouched req w : untouched req (db w) (db (snd (route req w))).
Proof.
  destruct req; simpl;
    [ unfold post_users | unfold post_rooms | unfold post_rooms_join
    | unfold post_rooms_start | unfold post_submissions | unfold post_votes ];
    by_wp; wp_run; try solve [repeat split]; storage_frame.
Qed.

(** X10. A route writes its own tables and no other: creating a user
    changes only the users, creating a room only the rooms and the
    RoomPlayer rows, joining only the RoomPlayer rows, starting only the
    rooms, submitting only the submissions and voting only the votes;
    whether it succeeds or fails. *)
Theorem routes_write_their_own_tables req w :
  untouched req (db w) (db (snd (route req w))).
Proof. exact (route_untouched req w). Qed.

(** ** The outcome of a request when no storage call fails *)

Lemma find_none_existsb {A : Type} (f : A -> bool) l :
  find f l = None -> existsb f l = false.
Proof.
  induction l as [| a l IH]; simpl; trivial.
  destruct (f a); [discriminate | auto].
Qed.

Lemma find_snoc_new {A : Type} (f : A -> bool) l x :
  find f l = None -> f x = true -> find f (l ++ [x]) = Some x.
Proof.
  induction l as [| a l IH]; simpl; intros Hnone Hx.
  - now rewrite Hx.
  - destruct (f a); [discriminate | auto].
Qed.

Lemma createUser_fresh insertUser d :
  find_user (InsertUser.username insertUser) d = None ->
  storage.createUser insertUser d =
  (Ret (new_user insertUser d),
   mkDb (users d ++ [new_user insertUser d]) (rooms d) (roomPlayers d)
        (gameSubmissions d) (gameVotes d) (users_id_seq d + 1)
        (roomPlayers_id_seq d) (gameSubmissions_id_seq d) (gameVotes_id_seq d)).
Proof.
  intros H. unfold storage.createUser, find_user in *.
  now rewrite (find_none_existsb _ _ H).
Qed.

Lemma createRoom_ok insertRoom h d :
  room_exists d (InsertRoom.id insertRoom) = false ->
  user_exists d h = true ->
  storage.createRoom insertRoom (JNum h) d =
  (Ret (new_room insertRoom h),
   mkDb (users d) (rooms d ++ [new_room insertRoom h]) (roomPlayers d)
        (gameSubmissions d) (gameVotes d) (users_id_seq d)
        (roomPlayers_id_seq d) (gameSubmissions_id_seq d) (gameVotes_id_seq d)).
Proof.
  intros H1 H2. unfold storage.createRoom. simpl. now rewrite H1, H2.
Qed.

Lemma createRoom_refused insertRoom h d :
  room_exists d (InsertRoom.id insertRoom) || negb (user_exists d h) = true ->
  storage.createRoom insertRoom (JNum h) d = (Throw DbError, d).
Proof.
  intros H. unfold storage.createRoom. simpl.
  destruct (room_exists d _); trivial. simpl in H. now rewrite H.
Qed.

Lemma joinRoom_ok roomId u d :
  room_exists d roomId = true ->
  user_exists d u = true ->
  storage.joinRoom roomId (JNum u) d =
  (Ret (new_player roomId u d),
   mkDb (users d) (rooms d) (roomPlayers d ++ [new_player roomId u d])
        (gameSubmissions d) (gameVotes d) (users_id_seq d)
        (roomPlayers_id_seq d + 1) (gameSubmissions_id_seq d)
        (gameVotes_id_seq d)).
Proof.
  intros H1 H2. unfold storage.joinRoom. simpl. now rewrite H1, H2.
Qed.

Lemma find_room_room_exists roomId d room :
  find_room roomId d = Some room -> room_exists d roomId = true.
Proof.
  unfold find_room, room_exists. intros H. apply find_some in H as [Hin Heq].
  apply existsb_exists. now exists room.
Qed.

(** X11. CreateUser with a body that passes the schema and that the
    database binds, the serial counter within 32 bits, no storage call
    failing.  When a user has the username, it fails with "Username already
    taken" and the database is unchanged.  Otherwise it succeeds: the new user
    gets the next serial id and the username and display name of the body, is
    stored at the end of the table, is the response, and is what a lookup by
    that username now finds. *)
Theorem CreateUser_outcome body userData w :
  insertUserSchema body = Ret userData ->
  binds_user userData = true ->
  int4 (users_id_seq (db w)) = true ->
  faults w = [] ->
  let response := fst (post_users body w) in
  let w' := snd (post_users body w) in
  match find_user (InsertUser.username userData) (db w) with
  | Some _ => response = UsernameTaken /\ db w' = db w
  | None =>
      response = json (a_user (new_user userData (db w)))
      /\ users (db w') = users (db w) ++ [new_user userData (db w)]
      /\ find_user (InsertUser.username userData) (db w') =
         Some (new_user userData (db w))
  end.
Proof.
  intros Hparse _ _ Hf. cbv zeta. unfold post_users. rewrite Hparse.
  by_wp. wp_straight Hf.
  destruct (find_user (InsertUser.username userData) (db w)) as [u |] eqn:E.
  - wp_straight Hf. now split.
  - wp_straight Hf. rewrite (createUser_fresh _ _ E). wp_straight Hf.
    repeat split. unfold find_user in *. simpl.
    apply find_snoc_new; trivial. simpl. apply String.eqb_refl.
Qed.

(** The join route when no storage call fails. *)
Lemma join_outcome roomId body u w :
  prop "userId" body = JNum u ->
  u <> 0 ->
  faults w = [] ->
  let response := fst (post_rooms_join roomId body w) in
  let w' := snd (post_rooms_join roomId body w) in
  match find_room roomId (db w) with
  | None => response = RoomNotFound /\ db w' = db w /\ trace w' = trace w
  | Some room =>
      if negb (String.eqb (Room.status room) "waiting")
      then response = GameAlreadyStarted /\ db w' = db w /\ trace w' = trace w
      else if user_exists (db w) u
      then response = json (a_roomPlayer (new_player roomId u (db w)))
           /\ roomPlayers (db w') =
              roomPlayers (db w) ++ [new_player roomId u (db w)]
           /\ RoomPlayer.score (new_player roomId u (db w)) = 0
           /\ trace w' =
              trace w ++
              broadcast_log roomId
                            (player_joined (new_player roomId u (db w))) w
      else response = fail 400 "Failed to join room"
           /\ db w' = skip_roomPlayers_id (db w) /\ trace w' = trace w
  end.
Proof.
  intros Hu Hne Hf. cbv zeta. unfold post_rooms_join.
  rewrite (destructure_number _ _ _ Hu).
  by_wp. wp_straight Hf.
  assert (truthy (JNum u) = true) as Ht.
  { simpl. apply negb_true_iff, Z.eqb_neq. exact Hne. }
  rewrite Ht. cbn [negb]. wp_straight Hf.
  destruct (find_room roomId (db w)) as [room |] eqn:Hroom;
    [| wp_straight Hf; now repeat split].
  destruct (negb (String.eqb (Room.status room) "waiting"));
    [wp_straight Hf; now repeat split |].
  wp_straight Hf.
  pose proof (find_room_room_exists _ _ _ Hroom) as Hr.
  destruct (user_exists (db w) u) eqn:Hex.
  - rewrite (joinRoom_ok _ _ _ Hr Hex). wp_straight Hf.
    rewrite broadcastToRoom_trace. wp_simpl. repeat split.
  - assert (storage.joinRoom roomId (JNum u) (db w) =
            (Throw DbError, skip_roomPlayers_id (db w))) as ->.
    { unfold storage.joinRoom. simpl. now rewrite Hr, Hex. }
    wp_straight Hf. repeat split.
Qed.

(** X12. JoinRoom for a room id that the database binds, with a number
    other than 0 and within 32 bits as userId, the serial counter within 32
    bits, no storage call failing.  It fails with RoomNotFound when the room
    does not exist and with GameAlreadyStarted when its status is not
    waiting, and then the database and the trace are as they were.  In a
    waiting room it succeeds for a user that exists: a RoomPlayer row with
    the next serial id and score 0 is stored at the end of the table and is
    the response, and a player_joined event carrying that row, with the time
    of the join, is broadcast to the room.  For a user that does not exist
    the insert is refused: the route answers "Failed to join room", nothing
    is stored or sent, and the serial number the insert took is skipped. *)
Theorem JoinRoom_outcome roomId body u w :
  text roomId = true ->
  prop "userId" body = JNum u ->
  u <> 0 ->
  int4 u = true ->
  int4 (roomPlayers_id_seq (db w)) = true ->
  faults w = [] ->
  let response := fst (post_rooms_join roomId body w) in
  let w' := snd (post_rooms_join roomId body w) in
  match find_room roomId (db w) with
  | None => response = RoomNotFound /\ db w' = db w /\ trace w' = trace w
  | Some room =>
      if negb (String.eqb (Room.status room) "waiting")
      then response = GameAlreadyStarted /\ db w' = db w /\ trace w' = trace w
      else if user_exists (db w) u
      then response = json (a_roomPlayer (new_player roomId u (db w)))
           /\ roomPlayers (db w') =
              roomPlayers (db w) ++ [new_player roomId u (db w)]
           /\ RoomPlayer.score (new_player roomId u (db w)) = 0
           /\ trace w' =
              trace w ++
              broadcast_log roomId
                            (player_joined (new_player roomId u (db w))) w
      else response = fail 400 "Failed to join room"
           /\ db w' = skip_roomPlayers_id (db w) /\ trace w' = trace w
  end.
Proof.
  intros _ Hu Hne _ _ Hf. exact (join_outcome roomId body u w Hu Hne Hf).
Qed.

Lemma route_keeps_no_fault req w :
  faults w = [] -> faults (snd (route req w)) = [].
Proof.
  intros Hf.
  destruct req; simpl;
    [ unfold post_users | unfold post_rooms | unfold post_rooms_join
    | unfold post_rooms_start | unfold post_submissions | unfold post_votes ];
    by_wp; wp_run; rewrite Hf; reflexivity.
Qed.


(** X15. CastVote with a body that passes the schema and that the database
    binds, the serial counter within 32 bits, no storage call failing: the
    route checks that the voter has not voted on the submission, and the
    database that the submission and the voter exist, and nothing else.  It
    fails with AlreadyVoted when a vote of the pair is stored, and the
    database is unchanged.  When the submission or the voter does not exist
    the insert is refused: the route answers "Invalid vote data", no vote is
    stored, and the serial number the insert took is skipped.  Otherwise the
    vote is stored with the next serial id, whoever the voter is. *)
Theorem CastVote_outcome body voteData w :
  insertGameVoteSchema body = Ret voteData ->
  binds_vote voteData = true ->
  int4 (gameVotes_id_seq (db w)) = true ->
  faults w = [] ->
  let response := fst (post_votes body w) in
  let w' := snd (post_votes body w) in
  if has_voted (InsertGameVote.submissionId voteData)
               (InsertGameVote.voterId voteData) (db w)
  then response = AlreadyVoted /\ db w' = db w
  else if submission_exists (db w) (InsertGameVote.submissionId voteData)
          && user_exists (db w) (InsertGameVote.voterId voteData)
  then response = json (a_vote (new_vote voteData (db w)))
       /\ gameVotes (db w') = gameVotes (db w) ++ [new_vote voteData (db w)]
  else response = fail 400 "Invalid vote data"
       /\ db w' = skip_gameVotes_id (db w).
Proof.
  intros Hparse _ _ Hf. cbv zeta. unfold post_votes. rewrite Hparse.
  by_wp. wp_straight Hf.
  destruct (has_voted _ _ (db w)); wp_straight Hf; [now split |].
  unfold storage.createVote.
  destruct (submission_exists (db w) _); simpl; [| now wp_straight Hf].
  destruct (user_exists (db w) _); simpl; now wp_straight Hf.
Qed.

(** ** The players of a new room *)

Lemma joined_of_new_room roomId d :
  integrity d -> room_exists d roomId = false -> joined roomId d = [].
Proof.
  intros Hint Hno. unfold joined.
  assert (forall p, In p (roomPlayers d) ->
                    String.eqb (RoomPlayer.roomId p) roomId = false) as H.
  { intros p Hp. destruct (String.eqb (RoomPlayer.roomId p) roomId) eqn:E;
      trivial.
    apply String.eqb_eq in E. subst roomId.
    rewrite (int_player_room d Hint p Hp) in Hno. discriminate. }
  induction (roomPlayers d) as [| p ps IH]; simpl; trivial.
  rewrite (H p (or_introl eq_refl)). apply IH.
  intros q Hq. apply H. now right.
Qed.

(** The route that creates a room when no storage call fails. *)
Lemma create_outcome body roomData h w :
  insertRoomSchema body = Ret roomData ->
  prop "hostId" body = JNum h ->
  h <> 0 ->
  faults w = [] ->
  let response := fst (post_rooms body w) in
  let w' := snd (post_rooms body w) in
  if room_exists (db w) (InsertRoom.id roomData)
     || negb (user_exists (db w) h)
  then response = fail 400 "Invalid room data" /\ db w' = db w
  else
    response = json (a_room (Some (new_room roomData h)))
    /\ db w' =
       mkDb (users (db w)) (rooms (db w) ++ [new_room roomData h])
            (roomPlayers (db w) ++
             [new_player (InsertRoom.id roomData) h (db w)])
            (gameSubmissions (db w)) (gameVotes (db w)) (users_id_seq (db w))
            (roomPlayers_id_seq (db w) + 1) (gameSubmissions_id_seq (db w))
            (gameVotes_id_seq (db w))
    /\ faults w' = [].
Proof.
  intros Hparse Hh Hne Hf. cbv zeta. unfold post_rooms.
  rewrite Hparse, (destructure_number _ _ _ Hh).
  by_wp. wp_straight Hf.
  assert (truthy (JNum h) = true) as Ht
      by (simpl; apply negb_true_iff, Z.eqb_neq; exact Hne).
  rewrite Ht. cbn [negb]. wp_straight Hf.
  destruct (room_exists (db w) (InsertRoom.id roomData)
            || negb (user_exists (db w) h)) eqn:E.
  - rewrite (createRoom_refused _ _ _ E). wp_straight Hf. now split.
  - apply orb_false_iff in E as [E1 E2]. apply negb_false_iff in E2.
    rewrite (createRoom_ok _ _ _ E1 E2). wp_straight Hf.
    rewrite joinRoom_ok.
    + wp_straight Hf. rewrite Hf. repeat split.
    + unfold room_exists. simpl. rewrite existsb_app. simpl.
      now rewrite String.eqb_refl, orb_true_r.
    + exact E2.
Qed.

(** X17. CreateRoom in a reachable world, with a body that passes the
    schema and that the database binds, a number other than 0 and within 32
    bits as hostId, the serial counter of the RoomPlayer rows within 32 bits,
    no storage call failing.  When the id is taken or the host is not a user
    it fails and the database is unchanged.  Otherwise it succeeds: the room
    is stored with status waiting, current round 1 and no player of the turn,
    a lookup of the id finds it, and its list of players is the host alone,
    with score 0. *)
Theorem CreateRoom_outcome body roomData h w :
  reachable w ->
  insertRoomSchema body = Ret roomData ->
  binds_room roomData = true ->
  prop "hostId" body = JNum h ->
  h <> 0 ->
  int4 h = true ->
  int4 (roomPlayers_id_seq (db w)) = true ->
  faults w = [] ->
  let roomId := InsertRoom.id roomData in
  let response := fst (post_rooms body w) in
  let w' := snd (post_rooms body w) in
  if room_exists (db w) roomId || negb (user_exists (db w) h)
  then response = fail 400 "Invalid room data" /\ db w' = db w
  else
    exists room,
      response = json (a_room (Some room))
      /\ find_room roomId (db w') = Some room
      /\ Room.hostId room = h
      /\ Room.status room = "waiting"
      /\ Room.currentRound room = 1
      /\ Room.currentPlayerId room = None
      /\ joined roomId (db w') =
         [RoomPlayer.mk (roomPlayers_id_seq (db w)) roomId h 0].
Proof.
  intros Hreach Hparse _ Hh Hne _ _ Hf. cbv zeta.
  pose proof (create_outcome body roomData h w Hparse Hh Hne Hf) as H.
  cbv zeta in H.
  destruct (room_exists (db w) (InsertRoom.id roomData)
            || negb (user_exists (db w) h)) eqn:E; trivial.
  destruct H as (Hresp & Hdb & _).
  apply orb_false_iff in E as [E1 E2].
  exists (new_room roomData h). rewrite Hdb.
  repeat match goal with |- _ /\ _ => split end; trivial.
  - unfold find_room. simpl. apply find_snoc_new.
    + unfold room_exists in E1. clear - E1.
      induction (rooms (db w)) as [| r rs IH]; simpl in *; trivial.
      apply orb_false_iff in E1 as [-> E1]. auto.
    + simpl. apply String.eqb_refl.
  - unfold joined. simpl. rewrite filter_app. simpl.
    rewrite String.eqb_refl.
    pose proof (joined_of_new_room _ _ (reachable_integrity w Hreach) E1) as Hj.
    unfold joined in Hj. now rewrite Hj.
Qed.

(** ** The routes that read *)

Lemma try_reading_wp (body : M Reply) handler w (P : Reply -> World -> Prop) :
  wp body w (fun o w' =>
               match o with
               | Ret r => P r w'
               | Throw _ => P handler w'
               end) ->
  P (fst (try_reading body handler w)) (snd (try_reading body handler w)).
Proof.
  unfold wp, try_reading. destruct (body w) as [[r | e] w']; simpl; trivial.
Qed.

Ltac by_wp_reading :=
  lazymatch goal with
  | |- context [try_reading ?b ?h ?w] =>
      pattern (fst (try_reading b h w)), (snd (try_reading b h w));
      apply try_reading_wp
  end.

Arguments storage.getUser : simpl never.
Arguments storage.getVotes : simpl never.

Lemma getUser_snd id d : snd (storage.getUser id d) = d.
Proof.
  unfold storage.getUser. destruct id as [n |]; trivial.
  now destruct (int4 n).
Qed.

Lemma getVotes_snd id d : snd (storage.getVotes id d) = d.
Proof.
  unfold storage.getVotes. destruct id as [n |]; trivial.
  now destruct (int4 n).
Qed.

Hint Rewrite getUser_snd getVotes_snd : reads.

(** The read routes write nothing. *)
Lemma get_room_changes_nothing roomId w :
  db (snd (get_room roomId w)) = db w
  /\ trace (snd (get_room roomId w)) = trace w.
Proof. unfold get_room. by_wp_reading. wp_run; now split. Qed.

Lemma reads_change_nothing parseInt id w :
  (db (snd (get_user parseInt id w)) = db w
   /\ trace (snd (get_user parseInt id w)) = trace w)
  /\ (db (snd (get_votes parseInt id w)) = db w
      /\ trace (snd (get_votes parseInt id w)) = trace w).
Proof.
  split; unfold get_user, get_votes; by_wp_reading; wp_run; now split.
Qed.

Lemma filter_id_In (us : list User.t) n u :
  find (fun u => User.id u =? n) us = Some u -> In u us /\ User.id u = n.
Proof.
  intros H. apply find_some in H as [Hin Heq]. split; trivial.
  now apply Z.eqb_eq.
Qed.

(** X18. [GET /api/rooms/:id] in a reachable world, for an id that the
    database binds, no storage call failing: 404 when no room has the id;
    otherwise 200 with the room and its list of players, one entry for each
    RoomPlayer row of the room and no other, each with the user the row
    refers to.  The route changes neither the database nor the trace. *)
Theorem GET_room_lists_every_player roomId w :
  reachable w ->
  text roomId = true ->
  faults w = [] ->
  let reply := fst (get_room roomId w) in
  let w' := snd (get_room roomId w) in
  db w' = db w /\ trace w' = trace w
  /\ match find_room roomId (db w) with
     | None => reply = mkReply 404 (not_ok "Room not found")
     | Some room =>
         exists players,
           reply = mkReply 200 (room_with_players room players)
           /\ Permutation (map fst players) (joined roomId (db w))
           /\ (forall p u, In (p, u) players ->
                           In u (users (db w))
                           /\ User.id u = RoomPlayer.userId p)
     end.
Proof.
  intros Hreach _ Hf. cbv zeta.
  destruct (get_room_changes_nothing roomId w) as [H1 H2].
  repeat match goal with |- _ /\ _ => split end; trivial.
  unfold get_room. by_wp_reading. wp_straight Hf.
  destruct (find_room roomId (db w)) as [room |]; wp_straight Hf; trivial.
  exists (players_of roomId (db w)).
  repeat match goal with |- _ /\ _ => split end; trivial.
  - rewrite players_of_joined by now apply reachable_wf.
    apply Permutation_refl.
  - intros p u Hin. unfold players_of in Hin.
    apply in_flat_map in Hin as (q & _ & Hq).
    apply in_map_iff in Hq as (u' & [= <- <-] & Hu).
    apply filter_In in Hu as [Hu E]. split; trivial. now apply Z.eqb_eq.
Qed.

(** X19. [GET /api/users/:id] in a reachable world, no storage call failing:
    500 when the parameter does not parse to a number or parses to a number
    outside 32 bits; 404 when it parses to a number that is the id of no
    user; otherwise 200 with the user whose id is that number, the only one.
    The route changes neither the database nor the trace. *)
Theorem GET_user_outcome parseInt id w :
  reachable w ->
  faults w = [] ->
  (db (snd (get_user parseInt id w)) = db w
   /\ trace (snd (get_user parseInt id w)) = trace w)
  /\
  match parseInt id with
  | None =>
      fst (get_user parseInt id w) =
      mkReply 500 (not_ok "Internal Server Error")
  | Some n =>
      if int4 n then
        (fst (get_user parseInt id w) = mkReply 404 (not_ok "User not found")
         /\ forall u, In u (users (db w)) -> User.id u <> n)
        \/ (exists u,
              fst (get_user parseInt id w) = mkReply 200 (the_user u)
              /\ In u (users (db w)) /\ User.id u = n
              /\ forall u', In u' (users (db w)) -> User.id u' = n -> u' = u)
      else
        fst (get_user parseInt id w) =
        mkReply 500 (not_ok "Internal Server Error")
  end.
Proof.
  intros Hreach Hf. split; [apply reads_change_nothing |].
  unfold get_user. destruct (parseInt id) as [n |].
  - unfold storage.getUser. destruct (int4 n).
    + by_wp_reading. wp_straight Hf.
      destruct (find (fun u => User.id u =? n) (users (db w))) as [u |] eqn:E;
        wp_straight Hf.
      * right. exists u. destruct (filter_id_In _ _ _ E) as [Hin Hid].
        repeat match goal with |- _ /\ _ => split end; trivial.
        intros u' Hin' Hid'.
        pose proof (wf_users_unique _ (reachable_wf w Hreach)) as Hnd.
        clear - Hin Hid Hin' Hid' Hnd. subst n.
        induction (users (db w)) as [| x xs IH]; [contradiction |].
        simpl in Hnd. inversion Hnd as [| ? ? Hnotin Hnd']; subst.
        destruct Hin as [-> | Hin], Hin' as [-> | Hin']; trivial.
        -- exfalso. apply Hnotin. apply in_map_iff. now exists u'.
        -- exfalso. apply Hnotin. apply in_map_iff. exists u. auto.
        -- auto.
      * left. split; trivial. intros u Hu Hid.
        apply (find_none _ _ E) in Hu. apply Z.eqb_neq in Hu. contradiction.
    + by_wp_reading. wp_straight Hf. reflexivity.
  - by_wp_reading. wp_straight Hf. unfold storage.getUser. cbn [fst].
    reflexivity.
Qed.

Lemma find_id_snoc (us : list User.t) u :
  (forall x, In x us -> User.id x < User.id u) ->
  find (fun x => User.id x =? User.id u) (us ++ [u]) = Some u.
Proof.
  intros H. apply find_snoc_new; [| apply Z.eqb_refl].
  induction us as [| x xs IH]; simpl; trivial.
  destruct (User.id x =? User.id u) eqn:E.
  - apply Z.eqb_eq in E. specialize (H x (or_introl eq_refl)). lia.
  - apply IH. intros y Hy. apply H. now right.
Qed.

(** X20. A user that CreateUser has just created is the one a lookup of its
    id finds: in a reachable world, the serial counter within 32 bits, no
    storage call failing, after a CreateUser with a body that the database
    binds and a username that is free, [GET /api/users/:id] with the id of
    the new user answers 200 with that user. *)
Theorem created_user_is_found parseInt body userData id w :
  reachable w ->
  faults w = [] ->
  insertUserSchema body = Ret userData ->
  binds_user userData = true ->
  int4 (users_id_seq (db w)) = true ->
  find_user (InsertUser.username userData) (db w) = None ->
  parseInt id = Some (users_id_seq (db w)) ->
  fst (post_users body w) = json (a_user (new_user userData (db w)))
  /\ fst (get_user parseInt id (snd (post_users body w))) =
     mkReply 200 (the_user (new_user userData (db w))).
Proof.
  intros Hreach Hf Hparse _ Hrange Hfree Hid.
  assert (fst (post_users body w) = json (a_user (new_user userData (db w)))
          /\ users (db (snd (post_users body w))) =
             users (db w) ++ [new_user userData (db w)]) as [Hresp Husers].
  { unfold post_users. rewrite Hparse. by_wp. wp_straight Hf.
    rewrite Hfree. wp_straight Hf. rewrite (createUser_fresh _ _ Hfree).
    wp_straight Hf. now split. }
  split; trivial.
  assert (faults (snd (post_users body w)) = []) as Hf'
      by exact (route_keeps_no_fault (POST_users body) w Hf).
  unfold get_user. rewrite Hid. unfold storage.getUser. rewrite Hrange.
  by_wp_reading. wp_straight Hf'. rewrite Husers.
  change (users_id_seq (db w)) with (User.id (new_user userData (db w))).
  rewrite find_id_snoc; [now wp_straight Hf' |].
  intros x Hx. simpl. apply (wf_users_id _ (reachable_wf w Hreach) x Hx).
Qed.

Lemma join_voters (us : list User.t) (vs : list GameVote.t) :
  NoDup (map User.id us) ->
  (forall v, In v vs ->
             existsb (fun u => User.id u =? GameVote.voterId v) us = true) ->
  map fst
      (flat_map
         (fun v => map (fun u => (v, u))
                       (filter (fun u => User.id u =? GameVote.voterId v) us))
         vs) = vs.
Proof.
  intros Hnd Hex.
  induction vs as [| v vs IH]; simpl; trivial.
  destruct (filter_unique_user us (GameVote.voterId v) Hnd) as [u Hu];
    [apply Hex; now left |].
  rewrite Hu, map_app, IH by (intros x Hx; apply Hex; now right).
  reflexivity.
Qed.

(** X21. [GET /api/submissions/:id/votes] in a reachable world, no storage
    call failing: 500 when the parameter does not parse to a number or parses
    to a number outside 32 bits; otherwise 200 with one entry for each stored
    vote on the submission and no other, each with the user who voted.  A
    submission that does not exist has the empty list, not an error.  The
    route changes neither the database nor the trace. *)
Theorem GET_votes_lists_every_vote parseInt id w :
  reachable w ->
  faults w = [] ->
  (db (snd (get_votes parseInt id w)) = db w
   /\ trace (snd (get_votes parseInt id w)) = trace w)
  /\
  match parseInt id with
  | None =>
      fst (get_votes parseInt id w) =
      mkReply 500 (not_ok "Internal Server Error")
  | Some n =>
      if int4 n then
        exists votes,
          fst (get_votes parseInt id w) = mkReply 200 (the_votes votes)
          /\ Permutation
               (map fst votes)
               (filter (fun v => GameVote.submissionId v =? n)
                       (gameVotes (db w)))
          /\ (forall e, In e votes ->
                        In (snd e) (users (db w))
                        /\ User.id (snd e) = GameVote.voterId (fst e))
          /\ (submission_exists (db w) n = false -> votes = [])
      else
        fst (get_votes parseInt id w) =
        mkReply 500 (not_ok "Internal Server Error")
  end.
Proof.
  intros Hreach Hf. split; [apply reads_change_nothing |].
  unfold get_votes. destruct (parseInt id) as [n |].
  - unfold storage.getVotes. destruct (int4 n).
    + by_wp_reading. wp_straight Hf.
      pose proof (reachable_integrity w Hreach) as Hint.
      pose proof (reachable_wf w Hreach) as Hwf.
      pose proof (join_voters (users (db w))
                    (filter (fun v => GameVote.submissionId v =? n)
                            (gameVotes (db w)))) as J.
      eexists. split; [reflexivity |].
      repeat match goal with |- _ /\ _ => split end.
      * rewrite J; [apply Permutation_refl | apply (wf_users_unique _ Hwf) |].
        intros v Hv. apply filter_In in Hv as [Hv _].
        apply (int_vote_refs _ Hint v Hv).
      * intros [v u] Hin. apply in_flat_map in Hin as (v' & _ & Hin).
        apply in_map_iff in Hin as (u' & [= <- <-] & Hu).
        apply filter_In in Hu as [Hu E]. simpl. split; trivial.
        now apply Z.eqb_eq.
      * intros Hno.
        assert (filter (fun v => GameVote.submissionId v =? n)
                       (gameVotes (db w)) = []) as ->; [| reflexivity].
        destruct (filter _ (gameVotes (db w))) as [| v vs] eqn:E; trivial.
        assert (In v (filter (fun v => GameVote.submissionId v =? n)
                             (gameVotes (db w)))) as Hin
            by (rewrite E; now left).
        apply filter_In in Hin as [Hin Ev]. apply Z.eqb_eq in Ev.
        destruct (int_vote_refs _ Hint v Hin) as (Hs & _). congruence.
    + by_wp_reading. wp_straight Hf. reflexivity.
  - by_wp_reading. wp_straight Hf. unfold storage.getVotes. cbn [fst].
    reflexivity.
Qed.

(** ** Reading a submission back *)

Lemma find_snoc_hd {A : Type} (f : A -> bool) l x :
  f x = true -> find f (l ++ [x]) = Some (hd x (filter f l)).
Proof.
  intros Hx. induction l as [| y l IH]; simpl; [now rewrite Hx |].
  destruct (f y); trivial.
Qed.

(** X22. [storage.getSubmission] after a SubmitPhrase that succeeded, asked
    for the room and the round of the new submission: it returns the first
    submission stored for that room and round, which is the new one only
    when the round had no submission before. *)
Theorem getSubmission_reads_the_first_of_the_round body w :
  is_error (fst (post_submissions body w)) = false ->
  exists s,
    fst (post_submissions body w) = json (a_submission s)
    /\ fst (storage.getSubmission
              (GameSubmission.roomId s) (GameSubmission.round s)
              (db (snd (post_submissions body w)))) =
       Ret (Some (hd s (submissions_for (GameSubmission.roomId s)
                                        (GameSubmission.round s) (db w)))).
Proof.
  intros Hok.
  destruct (post_submissions_cases body w)
    as [(He & _) | (sd & room & _ & _ & _ & Hresp & Hdb & _)];
    cbv zeta in *; [congruence |].
  exists (new_row sd (db w)). split; trivial.
  unfold storage.getSubmission, submissions_for. cbn [fst]. rewrite Hdb.
  rewrite find_snoc_hd; trivial.
  simpl. now rewrite String.eqb_refl, Z.eqb_refl.
Qed.

(** ** Sockets and tables *)

(** X23. The registry of connections and the database are kept apart: a
    request over HTTP changes no broadcast set, no binding of a user and no
    transport state, and a message, a close or a state change of a socket
    changes no table.  So a player who joined a room over HTTP is in no
    broadcast set until a socket sends join_room for the room. *)
Theorem sockets_and_tables_are_separate w i :
  match i with
  | http _ =>
      roomConnections (step w i) = roomConnections w
      /\ userConnections (step w i) = userConnections w
      /\ readyState (step w i) = readyState w
  | ws_message _ _ | ws_state _ _ => db (step w i) = db w
  | storage_faults _ =>
      db (step w i) = db w
      /\ roomConnections (step w i) = roomConnections w
      /\ userConnections (step w i) = userConnections w
  end.
Proof.
  pose proof (step_db w i) as H.
  destruct i as [req | ws m | ws s | fs]; trivial.
  - apply route_registry.
  - now repeat split.
Qed.

(** ** Storage functions no route calls *)

Arguments storage.deleteRoom : simpl never.

Lemma existsb_filter_other (rs : list Room.t) id k :
  k <> id ->
  existsb (fun r => String.eqb (Room.id r) k)
          (filter (fun r => negb (String.eqb (Room.id r) id)) rs) =
  existsb (fun r => String.eqb (Room.id r) k) rs.
Proof.
  intros Hne. induction rs as [| r rs IH]; simpl; trivial.
  destruct (String.eqb (Room.id r) id) eqn:E; simpl.
  - apply String.eqb_eq in E.
    destruct (String.eqb (Room.id r) k) eqn:E'; simpl; trivial.
    apply String.eqb_eq in E'. congruence.
  - now rewrite IH.
Qed.

Lemma find_filter_other (rs : list Room.t) id k :
  k <> id ->
  find (fun r => String.eqb (Room.id r) k)
       (filter (fun r => negb (String.eqb (Room.id r) id)) rs) =
  find (fun r => String.eqb (Room.id r) k) rs.
Proof.
  intros Hne. induction rs as [| r rs IH]; simpl; trivial.
  destruct (String.eqb (Room.id r) id) eqn:E; simpl.
  - apply String.eqb_eq in E.
    destruct (String.eqb (Room.id r) k) eqn:E'; simpl; trivial.
    apply String.eqb_eq in E'. congruence.
  - now rewrite IH.
Qed.

Lemma find_filter_same (rs : list Room.t) id :
  find (fun r => String.eqb (Room.id r) id)
       (filter (fun r => negb (String.eqb (Room.id r) id)) rs) = None.
Proof.
  induction rs as [| r rs IH]; simpl; trivial.
  destruct (String.eqb (Room.id r) id) eqn:E; simpl; trivial.
  now rewrite E.
Qed.

Lemma NoDup_map_filter {A B : Type} (key : A -> B) (f : A -> bool) l :
  NoDup (map key l) -> NoDup (map key (filter f l)).
Proof.
  induction l as [| x l IH]; simpl; trivial.
  intros Hnd. inversion Hnd as [| ? ? Hnotin Hnd']; subst.
  destruct (f x); simpl; [| now apply IH].
  constructor; [| now apply IH].
  intros Hin. apply Hnotin. apply in_map_iff in Hin as (y & Hy & Hin).
  apply in_map_iff. exists y. split; trivial.
  now apply filter_In in Hin.
Qed.

Lemma existsb_false_all {A : Type} (f : A -> bool) l x :
  existsb f l = false -> In x l -> f x = false.
Proof.
  intros H Hin. destruct (f x) eqn:E; trivial.
  assert (existsb f l = true) by (apply existsb_exists; eauto). congruence.
Qed.

(** X24. [storage.deleteRoom] on a database with every reference in place:
    a room that a RoomPlayer row or a submission refers to is not deleted,
    the call throws and nothing changes.  When the call returns, no room has
    the id any more, no row was left referring to it, every other room is as
    it was, and every reference is still in place. *)
Theorem deleteRoom_leaves_no_dangling_row id d :
  integrity d ->
  let d' := snd (storage.deleteRoom id d) in
  ((joined id d <> [] \/ (exists s, In s (gameSubmissions d)
                                    /\ GameSubmission.roomId s = id)) ->
   storage.deleteRoom id d = (Throw DbError, d))
  /\ (fst (storage.deleteRoom id d) = Ret tt ->
      find_room id d' = None
      /\ joined id d = []
      /\ (forall s, In s (gameSubmissions d) -> GameSubmission.roomId s <> id))
  /\ (forall other, other <> id -> find_room other d' = find_room other d)
  /\ integrity d'.
Proof.
  intros Hint. cbv zeta.
  assert (forall k, room_exists d k = true ->
                    existsb (fun r => String.eqb (Room.id r) id) (rooms d)
                    && (existsb (fun p => String.eqb (RoomPlayer.roomId p) id)
                                (roomPlayers d)
                        || existsb (fun s => String.eqb
                                               (GameSubmission.roomId s) id)
                                   (gameSubmissions d)) = false ->
                    (exists p, In p (roomPlayers d)
                               /\ RoomPlayer.roomId p = k)
                    \/ (exists s, In s (gameSubmissions d)
                                  /\ GameSubmission.roomId s = k) ->
                    k <> id) as Hother.
  { intros k Hk Hc Href ->. unfold room_exists in Hk. rewrite Hk in Hc.
    simpl in Hc. apply orb_false_iff in Hc as [Hp Hs].
    destruct Href as [(p & Hin & E) | (s & Hin & E)].
    - apply (existsb_false_all _ _ p Hp) in Hin.
      rewrite E, String.eqb_refl in Hin. discriminate.
    - apply (existsb_false_all _ _ s Hs) in Hin.
      rewrite E, String.eqb_refl in Hin. discriminate. }
  unfold storage.deleteRoom.
  destruct (existsb (fun r => String.eqb (Room.id r) id) (rooms d)
            && (existsb (fun p => String.eqb (RoomPlayer.roomId p) id)
                        (roomPlayers d)
                || existsb (fun s => String.eqb (GameSubmission.roomId s) id)
                           (gameSubmissions d))) eqn:Hc; cbn [fst snd].
  - repeat match goal with |- _ /\ _ => split end; trivial; discriminate.
  - assert (forall p, In p (roomPlayers d) -> RoomPlayer.roomId p <> id)
      as Hplayers.
    { intros p Hp. apply Hother; trivial; [| left; eauto].
      apply (int_player_room _ Hint p Hp). }
    assert (forall s, In s (gameSubmissions d) ->
                      GameSubmission.roomId s <> id) as Hsubs.
    { intros s Hs. apply Hother; trivial; [| right; eauto].
      apply (int_submission_refs _ Hint s Hs). }
    assert (joined id d = []) as Hjoined.
    { unfold joined. destruct (filter _ (roomPlayers d)) as [| p ps] eqn:E;
        trivial.
      assert (In p (filter (fun p => String.eqb (RoomPlayer.roomId p) id)
                           (roomPlayers d))) as Hin by (rewrite E; now left).
      apply filter_In in Hin as [Hin Ep]. apply String.eqb_eq in Ep.
      now apply Hplayers in Hin. }
    repeat match goal with |- _ /\ _ => split end.
    + intros [Hj | (s & Hs & E)]; [congruence |].
      now apply Hsubs in Hs.
    + intros _. repeat match goal with |- _ /\ _ => split end; trivial.
      unfold find_room. simpl. apply find_filter_same.
    + intros other Hne. unfold find_room. simpl.
      now apply find_filter_other.
    + destruct Hint as [I1 I2 I3 I4 I5 I6 I7 I8 I9].
      constructor; simpl; trivial.
      * now apply NoDup_map_filter.
      * intros r Hr. apply filter_In in Hr as [Hr _]. now apply I3.
      * intros p Hp. unfold room_exists. simpl.
        rewrite existsb_filter_other by now apply Hplayers.
        now apply I4.
      * intros s Hs. destruct (I5 s Hs) as (H1 & H2 & H3).
        repeat split; trivial. unfold room_exists. simpl.
        rewrite existsb_filter_other by now apply Hsubs. exact H1.
      * intros r Hr. apply filter_In in Hr as [Hr _]. now apply I9.
Qed.

(** X26. Joining and leaving: when a user that has no row in a room joins
    it and then leaves it, the table of RoomPlayer rows is as it was before,
    and the serial counter is not: the id of the row is not given again. *)
Theorem leaveRoom_undoes_joinRoom roomId u d p :
  (forall q, In q (joined roomId d) -> RoomPlayer.userId q <> u) ->
  fst (storage.joinRoom roomId (JNum u) d) = Ret p ->
  let d' := snd (storage.leaveRoom roomId u
                   (snd (storage.joinRoom roomId (JNum u) d))) in
  roomPlayers d' = roomPlayers d
  /\ roomPlayers_id_seq d' = RoomPlayer.id p + 1.
Proof.
  intros Hfresh Hret. cbv zeta. revert Hret. unfold storage.joinRoom. simpl.
  destruct (room_exists d roomId); simpl; [| discriminate].
  destruct (user_exists d u); simpl; [| discriminate].
  intros [= <-]. simpl. split; trivial.
  rewrite filter_app. simpl. rewrite String.eqb_refl, Z.eqb_refl. simpl.
  rewrite app_nil_r.
  assert (forall q, In q (roomPlayers d) ->
                    negb (String.eqb (RoomPlayer.roomId q) roomId
                          && (RoomPlayer.userId q =? u)) = true) as Hall.
  { intros q Hq. apply negb_true_iff. apply andb_false_iff.
    destruct (String.eqb (RoomPlayer.roomId q) roomId) eqn:E; [| now left].
    right. apply Z.eqb_neq. apply Hfresh. unfold joined.
    apply filter_In. now split. }
  clear - Hall. induction (roomPlayers d) as [| q qs IH]; simpl; trivial.
  rewrite (Hall q (or_introl eq_refl)). f_equal. apply IH.
  intros x Hx. apply Hall. now right.
Qed.






(** ** The schemas *)

Lemma prop_other_key k k' v fields :
  k' <> k -> prop k' (JObj ((k, v) :: fields)) = prop k' (JObj fields).
Proof.
  intros Hne. unfold prop. simpl.
  destruct (String.eqb k' k) eqn:E; trivial.
  apply String.eqb_eq in E. contradiction.
Qed.

(** X28. A schema reads the columns it picks and no other key of the body:
    a body with one more key, of whatever value, parses to the same result.
    The id of a user and the status, the current round and the player of the
    turn of a room are not among the picked columns, so no body sets them
    through a schema. *)
Theorem schemas_read_their_own_keys k v fields :
  (~ In k ["username"; "displayName"] ->
   insertUserSchema (JObj ((k, v) :: fields)) =
   insertUserSchema (JObj fields))
  /\ (~ In k ["id"; "maxRounds"] ->
      insertRoomSchema (JObj ((k, v) :: fields)) =
      insertRoomSchema (JObj fields))
  /\ (~ In k ["roomId"; "playerId"; "round"; "phrase"; "actualType"] ->
      insertGameSubmissionSchema (JObj ((k, v) :: fields)) =
      insertGameSubmissionSchema (JObj fields))
  /\ (~ In k ["submissionId"; "voterId"; "guessedType"; "isCorrect"] ->
      insertGameVoteSchema (JObj ((k, v) :: fields)) =
      insertGameVoteSchema (JObj fields)).
Proof.
  repeat match goal with |- _ /\ _ => split end; intros Hk;
    unfold insertUserSchema, insertRoomSchema, insertGameSubmissionSchema,
           insertGameVoteSchema;
    rewrite !prop_other_key; trivial;
    intros <-; apply Hk; simpl; auto 10.
Qed.

(** ** What no route does *)

Lemma nothing_scored_write d d' :
  write d d' -> nothing_scored d -> nothing_scored d'.
Proof.
  intros Hw [Hs Hr]. destruct Hw.
  - unfold storage.createUser. destruct (existsb _ (users d)); simpl;
      now constructor.
  - unfold storage.createRoom.
    destruct (int_param hostId); simpl; [| now constructor].
    destruct (room_exists d _); simpl; [now constructor |].
    destruct (user_exists d z); simpl; [| now constructor].
    constructor; simpl; trivial.
    intros r Hin. apply in_app_or in Hin as [Hin | [<- | []]]; auto.
  - unfold storage.joinRoom.
    destruct (int_param userId); simpl; [| now constructor].
    destruct (room_exists d roomId); simpl; [| now constructor].
    destruct (user_exists d z); simpl; [| now constructor].
    constructor; simpl; trivial.
    intros q Hin. apply in_app_or in Hin as [Hin | [<- | []]]; auto.
  - unfold storage.updateRoom. destruct (_ && _); simpl; [now constructor |].
    constructor; simpl; trivial.
    intros r Hin. apply in_map_iff in Hin as (r0 & <- & Hin).
    destruct (String.eqb (Room.id r0) roomId); auto.
    unfold storage.apply_updates. simpl. auto.
  - unfold storage.createSubmission.
    destruct (room_exists d _); simpl; [| now constructor].
    destruct (user_exists d _); simpl; now constructor.
  - unfold storage.createVote.
    destruct (submission_exists d _); simpl; [| now constructor].
    destruct (user_exists d _); simpl; now constructor.
Qed.

Lemma nothing_scored_writes d d' :
  writes d d' -> nothing_scored d -> nothing_scored d'.
Proof. induction 1; eauto using nothing_scored_write. Qed.

(** X29. No route scores and no route moves to the next round: in every
    world the server reaches by handling requests, socket events and storage
    faults, every RoomPlayer row has the score 0 it was created with and
    every room is in round 1, whatever was submitted and voted. *)
Theorem scores_and_rounds_never_move w :
  reachable w ->
  (forall p, In p (roomPlayers (db w)) -> RoomPlayer.score p = 0)
  /\ (forall r, In r (rooms (db w)) -> Room.currentRound r = 1).
Proof.
  intros [inputs <-].
  assert (forall w0, nothing_scored (db w0) ->
                     nothing_scored (db (run w0 inputs))) as H.
  { induction inputs as [| i inputs IH]; intros w0 H0; simpl; trivial.
    apply IH. pose proof (step_db w0 i) as E.
    destruct i; rewrite E; trivial.
    eapply nothing_scored_writes; [apply route_writes | trivial]. }
  destruct (H initial_world) as [Hs Hr]; [| now split].
  constructor; intros ? [].
Qed.

(** X30. What StartGame refuses, for a room id that the database binds, no
    storage call failing, before it counts the players: a body that is null
    or undefined is answered with 500, a room that does not exist with
    RoomNotFound, and a hostId that is not the number stored as the host of
    the room, a missing one and the same digits as a string among them, with
    Forbidden.  Nothing is written and nothing is sent in any of these. *)
Theorem StartGame_refusals roomId body w :
  text roomId = true ->
  faults w = [] ->
  let response := fst (post_rooms_start roomId body w) in
  let w' := snd (post_rooms_start roomId body w) in
  match destructure "hostId" body with
  | Throw _ =>
      response = fail 500 "Failed to start game"
      /\ db w' = db w /\ trace w' = trace w
  | Ret hostId =>
      match find_room roomId (db w) with
      | None => response = RoomNotFound /\ db w' = db w /\ trace w' = trace w
      | Some room =>
          hostId <> JNum (Room.hostId room) ->
          response = Forbidden /\ db w' = db w /\ trace w' = trace w
      end
  end.
Proof.
  intros _ Hf. cbv zeta. unfold post_rooms_start.
  destruct (destructure "hostId" body) as [hostId | e].
  - destruct (find_room roomId (db w)) as [room |] eqn:Hroom.
    + intros Hne.
      assert (strict_eq_num hostId (Room.hostId room) = false) as Hs.
      { destruct hostId; simpl; trivial. apply Z.eqb_neq. congruence. }
      by_wp. wp_straight Hf. rewrite Hroom, Hs. cbn [negb].
      now wp_straight Hf.
    + by_wp. wp_straight Hf. rewrite Hroom. now wp_straight Hf.
  - by_wp. wp_straight Hf. auto.
Qed.

End Server.

(** * The run of the game, claim by claim *)


(** Closed facts are settled by evaluation. *)
Ltac evaluated := vm_compute; repeat split; try discriminate.

Lemma players_in_the_lobby :
  joined "ABC123" (db (world_after json_text at_midnight lobby)) = [player 1 1; player 2 2].
Proof. evaluated. Qed.


Lemma room_in_the_lobby :
  find_room "ABC123" (db (world_after json_text at_midnight lobby)) = Some (the_room "waiting" None).
Proof. evaluated. Qed.

Lemma room_in_the_game :
  find_room "ABC123" (db (world_after json_text at_midnight started_game)) =
  Some (the_room "playing" (Some 1)).
Proof. evaluated. Qed.

Lemma no_fault_in_the_lobby : faults (world_after json_text at_midnight lobby) = [].
Proof. evaluated. Qed.

Lemma no_fault_before_the_room : faults (world_after json_text at_midnight two_users) = [].
Proof. evaluated. Qed.

(** ** StartGame in the lobby, and once more *)





(** ** SubmitPhrase *)


Lemma SubmitPhrase_turn_and_announcement_witness :
  fst (post_submissions json_text out_of_turn_body (world_after json_text at_midnight started_game)) =
  NotYourTurn
  /\ exists s,
       fst (post_submissions json_text submission_body
                             (world_after json_text at_midnight started_game)) =
       json (a_submission s)
       /\ prop "actualType" (prop "submission" (new_submission s)) = JUndefined.
Proof.
  destruct (SubmitPhrase_turn_and_announcement json_text) as [Hturn Hsent].
  split.
  - assert (Room.currentPlayerId (the_room "playing" (Some 1)) <> Some 2) as Hne
        by discriminate.
    assert (hd false (faults (world_after json_text at_midnight started_game)) = false) as Hf
        by (vm_compute; reflexivity).
    exact (proj2 (proj2 (proj2
             (Hturn out_of_turn_body
                    (InsertGameSubmission.mk "ABC123" 2 1 "my turn?" "meme")
                    (the_room "playing" (Some 1)) (world_after json_text at_midnight started_game)
                    eq_refl room_in_the_game Hne))) Hf).
  - assert (is_error (fst (post_submissions json_text submission_body
                                            (world_after json_text at_midnight started_game))) = false)
      as Hok by (vm_compute; reflexivity).
    destruct (Hsent submission_body (world_after json_text at_midnight started_game) Hok)
      as (s & Hresp & H).
    exists s. split; [exact Hresp |]. apply H.
Defined.

(** ** CastVote *)

(** Against C1 as stated: the voter guesses meme on a submission recorded as
    truth and sends isCorrect = true; the stored vote says correct, although
    the guessed type and the actual type differ. *)
Lemma CastVote_stores_a_flag_that_differs_from_the_comparison :
  gameSubmissions (db (world_after json_text at_midnight submitted)) = [the_submission 1]
  /\ gameVotes (db (snd (post_votes (vote_body true) (world_after json_text at_midnight submitted)))) =
     [GameVote.mk 1 1 2 "meme" true]
  /\ GameVote.isCorrect (GameVote.mk 1 1 2 "meme" true) <>
     String.eqb (GameVote.guessedType (GameVote.mk 1 1 2 "meme" true))
                (GameSubmission.actualType (the_submission 1)).
Proof. evaluated. Qed.

Lemma CastVote_stores_the_flag_of_the_caller_witness :
  is_error (fst (post_votes (vote_body true) (world_after json_text at_midnight submitted))) = false
  /\ exists vote,
       fst (post_votes (vote_body true) (world_after json_text at_midnight submitted)) =
       json (a_vote vote)
       /\ GameVote.isCorrect vote = true.
Proof.
  assert (is_error (fst (post_votes (vote_body true) (world_after json_text at_midnight submitted))) =
          false) as Hok by (vm_compute; reflexivity).
  split; [exact Hok |].
  destruct (CastVote_stores_the_flag_of_the_caller (vote_body true)
              (world_after json_text at_midnight submitted) Hok)
    as (vote & Hresp & _ & Hflag & _).
  exists vote. split; [exact Hresp |].
  injection Hflag as Hflag. symmetry. exact Hflag.
Defined.

Lemma CastVote_at_most_once_witness :
  prior_vote 1 2 (db (world_after json_text at_midnight voted))
  /\ fst (post_votes (vote_body false) (world_after json_text at_midnight voted)) = AlreadyVoted
  /\ gameVotes (db (snd (post_votes (vote_body false) (world_after json_text at_midnight voted)))) =
     gameVotes (db (world_after json_text at_midnight voted)).
Proof.
  assert (prior_vote 1 2 (db (world_after json_text at_midnight voted))) as Hprior.
  { exists (GameVote.mk 1 1 2 "meme" false). evaluated. now left. }
  assert (hd false (faults (world_after json_text at_midnight voted)) = false) as Hf
      by (vm_compute; reflexivity).
  split; [exact Hprior |].
  destruct (CastVote_at_most_once (vote_body false)
              (InsertGameVote.mk 1 2 "meme" false) (world_after json_text at_midnight voted) eq_refl)
    as [Hrefused _].
  destruct (Hrefused Hprior) as (_ & Hsame & Hresp).
  split; [exact (Hresp Hf) | exact Hsame].
Defined.

(** ** CreateRoom *)



(** ** The registry *)

(** Against C8 as stated: user 7 joins room ABC123 on socket 1, then again on
    socket 2.  Socket 2 is now the connection of the user, and socket 1 is
    still in the broadcast set of the room and still receives what is
    broadcast to it. *)
Lemma replaced_connection_still_receives :
  userConnections (world_after json_text at_midnight bound_once) = [(7, 1%nat)]
  /\ userConnections (world_after json_text at_midnight rebound) = [(7, 2%nat)]
  /\ roomConnections (world_after json_text at_midnight rebound) = [("ABC123", [1%nat; 2%nat])]
  /\ broadcast_log json_text "ABC123" (game_started 7) (world_after json_text at_midnight rebound) =
     [Stringified (game_started 7);
      Sent 1%nat (json_text (game_started 7));
      Sent 2%nat (json_text (game_started 7))].
Proof. evaluated. Qed.

Lemma rebinding_replaces_the_user_entry_only_witness :
  bindings_of 7 (on_message json_text 2%nat (join_room "ABC123" 7)
                            (world_after json_text at_midnight bound_once)) = [(7, 2%nat)]
  /\ In 1%nat
        (members "ABC123"
           (on_message json_text 2%nat (join_room "ABC123" 7)
                       (world_after json_text at_midnight bound_once))).
Proof.
  assert (2%nat <> 1%nat) as Hne by discriminate.
  assert (Map_get Z.eqb 7 (userConnections (world_after json_text at_midnight bound_once)) =
          Some 1%nat) as Hbound by (vm_compute; reflexivity).
  assert (In 1%nat (members "ABC123" (world_after json_text at_midnight bound_once))) as Hmember
      by (vm_compute; now left).
  destruct (rebinding_replaces_the_user_entry_only json_text at_midnight 1%nat 2%nat 7
              "ABC123" "ABC123" (world_after json_text at_midnight bound_once)
              (reachable_world_after json_text at_midnight bound_once) Hbound Hmember Hne)
    as (Hsole & _ & _ & _ & Hstill & _).
  split; [exact Hsole | exact Hstill].
Defined.

Lemma join_room_announces_to_the_joiner_witness :
  readyState (world_after json_text at_midnight [ws_state 1%nat OPEN]) 1%nat = OPEN
  /\ In 1%nat
        (members "ABC123"
           (on_message json_text 1%nat (join_room "ABC123" 7)
                       (world_after json_text at_midnight [ws_state 1%nat OPEN]))).
Proof.
  assert (readyState (world_after json_text at_midnight [ws_state 1%nat OPEN]) 1%nat = OPEN) as Hopen
      by (vm_compute; reflexivity).
  split; [exact Hopen |].
  exact (proj1 (join_room_announces_to_the_joiner json_text 1%nat "ABC123" 7
                  (world_after json_text at_midnight [ws_state 1%nat OPEN]) Hopen)).
Defined.

(** * The run of the game, beyond the claims *)

(** ** The registry *)

Lemma registry_is_well_kept_witness :
  reachable json_text at_midnight (world_after json_text at_midnight lobby)
  /\ NoDup (members "ABC123" (world_after json_text at_midnight lobby)).
Proof.
  split; [apply reachable_world_after |].
  apply (registry_is_well_kept json_text at_midnight (world_after json_text at_midnight lobby)
           (reachable_world_after json_text at_midnight lobby)).
Defined.

Lemma broadcast_sends_one_frame_each_witness :
  frames_to 10%nat
    (broadcast_log json_text "ABC123" (game_started 1)
                   (world_after json_text at_midnight lobby)) =
  [Sent 10%nat (json_text (game_started 1))].
Proof.
  pose proof (broadcast_sends_one_frame_each json_text at_midnight 10%nat "ABC123"
                (game_started 1) (world_after json_text at_midnight lobby)
                (reachable_world_after json_text at_midnight lobby)) as H.
  assert (existsb (Nat.eqb 10) (members "ABC123" (world_after json_text at_midnight lobby))
          && is_open (readyState (world_after json_text at_midnight lobby) 10%nat) = true)
    as E by (vm_compute; reflexivity).
  rewrite E in H. exact H.
Defined.

Lemma close_leaves_every_room_witness :
  members "ABC123"
    (step json_text at_midnight (world_after json_text at_midnight lobby) (ws_state 10%nat CLOSED)) =
  Set_delete 10%nat (members "ABC123" (world_after json_text at_midnight lobby)).
Proof.
  pose proof (close_leaves_every_room json_text at_midnight 10%nat "ABC123"
                (world_after json_text at_midnight lobby)
                (reachable_world_after json_text at_midnight lobby)) as H.
  cbv zeta in H. exact (proj1 H).
Defined.

Lemma close_unbinds_the_first_user_only_witness :
  bound_users 10%nat
    (step json_text at_midnight (world_after json_text at_midnight lobby) (ws_state 10%nat CLOSED)) =
  tl (bound_users 10%nat (world_after json_text at_midnight lobby)).
Proof.
  pose proof (close_unbinds_the_first_user_only json_text at_midnight 10%nat 10%nat
                (world_after json_text at_midnight lobby)
                (reachable_world_after json_text at_midnight lobby)) as H.
  change (Nat.eqb 10 10) with true in H. exact H.
Defined.

(** ** The tables *)

Lemma references_have_their_rows_witness :
  In (GameVote.mk 1 1 2 "meme" false)
     (gameVotes (db (world_after json_text at_midnight voted)))
  /\ submission_exists (db (world_after json_text at_midnight voted))
                       (GameVote.submissionId (GameVote.mk 1 1 2 "meme" false))
     = true
  /\ user_exists (db (world_after json_text at_midnight voted))
                 (GameVote.voterId (GameVote.mk 1 1 2 "meme" false)) = true.
Proof.
  assert (In (GameVote.mk 1 1 2 "meme" false)
             (gameVotes (db (world_after json_text at_midnight voted)))) as Hin
      by (vm_compute; auto).
  split; [exact Hin |].
  exact (proj2 (proj2 (proj2
           (references_have_their_rows json_text at_midnight (world_after json_text at_midnight voted)
              (reachable_world_after json_text at_midnight voted))))
           _ Hin).
Defined.

Lemma keys_are_unique_witness :
  NoDup (map User.username (users (db (world_after json_text at_midnight voted)))).
Proof.
  apply (keys_are_unique json_text at_midnight (world_after json_text at_midnight voted)
           (reachable_world_after json_text at_midnight voted)).
Defined.

Lemma turn_belongs_to_a_player_of_a_playing_room_witness :
  exists p,
    In p (joined "ABC123" (db (world_after json_text at_midnight started_game)))
    /\ Room.currentPlayerId (the_room "playing" (Some 1)) =
       Some (RoomPlayer.userId p).
Proof.
  destruct (turn_belongs_to_a_player_of_a_playing_room json_text at_midnight "ABC123"
              (the_room "playing" (Some 1))
              (world_after json_text at_midnight started_game)
              (reachable_world_after json_text at_midnight started_game)
              room_in_the_game) as [[Hs _] | [_ H]].
  - discriminate Hs.
  - exact H.
Defined.

Lemma SubmitPhrase_needs_a_playing_room_witness :
  exists s room p,
    fst (post_submissions json_text submission_body
                          (world_after json_text at_midnight started_game)) =
    json (a_submission s)
    /\ find_room (GameSubmission.roomId s)
                 (db (world_after json_text at_midnight started_game)) = Some room
    /\ Room.status room = "playing"
    /\ Room.currentPlayerId room = Some (GameSubmission.playerId s)
    /\ In p (joined (GameSubmission.roomId s)
                    (db (world_after json_text at_midnight started_game)))
    /\ RoomPlayer.userId p = GameSubmission.playerId s.
Proof.
  assert (is_error (fst (post_submissions json_text submission_body
                           (world_after json_text at_midnight started_game))) = false)
    as Hok by (vm_compute; reflexivity).
  exact (SubmitPhrase_needs_a_playing_room json_text at_midnight submission_body
           (world_after json_text at_midnight started_game)
           (reachable_world_after json_text at_midnight started_game) Hok).
Defined.

Lemma scores_and_rounds_never_move_witness :
  In (the_room "playing" (Some 1)) (rooms (db (world_after json_text at_midnight voted)))
  /\ Room.currentRound (the_room "playing" (Some 1)) = 1.
Proof.
  assert (In (the_room "playing" (Some 1))
             (rooms (db (world_after json_text at_midnight voted)))) as Hin
      by (vm_compute; auto).
  split; [exact Hin |].
  exact (proj2 (scores_and_rounds_never_move json_text at_midnight
                  (world_after json_text at_midnight voted)
                  (reachable_world_after json_text at_midnight voted))
           _ Hin).
Defined.

(** ** The routes, case by case *)

Lemma CreateUser_outcome_witness :
  fst (post_users (user_body "cat" "Cat")
                  (world_after json_text at_midnight two_users)) =
  json (a_user (new_user (InsertUser.mk "cat" "Cat")
                         (db (world_after json_text at_midnight two_users)))).
Proof.
  assert (int4 (users_id_seq (db (world_after json_text at_midnight two_users)))
          = true) as Hrange by (vm_compute; reflexivity).
  pose proof (CreateUser_outcome (user_body "cat" "Cat")
                (InsertUser.mk "cat" "Cat")
                (world_after json_text at_midnight two_users)
                eq_refl eq_refl Hrange no_fault_before_the_room) as H.
  cbv zeta in H.
  assert (find_user (InsertUser.username (InsertUser.mk "cat" "Cat"))
                    (db (world_after json_text at_midnight two_users)) = None)
    as E by (vm_compute; reflexivity).
  rewrite E in H. exact (proj1 H).
Defined.

Lemma user_2_exists_in_the_lobby :
  user_exists (db (world_after json_text at_midnight lobby)) 2 = true.
Proof. evaluated. Qed.

Lemma JoinRoom_outcome_witness :
  fst (post_rooms_join json_text at_midnight "ABC123"
                       (JObj [("userId", JNum 2)])
                       (world_after json_text at_midnight lobby)) =
  json (a_roomPlayer
          (new_player "ABC123" 2 (db (world_after json_text at_midnight lobby)))).
Proof.
  assert (2 <> 0) as Hne by discriminate.
  assert (int4 (roomPlayers_id_seq
                  (db (world_after json_text at_midnight lobby))) = true)
    as Hrange by (vm_compute; reflexivity).
  pose proof (JoinRoom_outcome json_text at_midnight "ABC123"
                (JObj [("userId", JNum 2)]) 2
                (world_after json_text at_midnight lobby)
                eq_refl eq_refl Hne eq_refl Hrange no_fault_in_the_lobby) as H.
  cbv zeta in H. rewrite room_in_the_lobby in H.
  change (negb (String.eqb (Room.status (the_room "waiting" None)) "waiting"))
    with false in H.
  rewrite user_2_exists_in_the_lobby in H. exact (proj1 H).
Defined.


Lemma CastVote_outcome_witness :
  fst (post_votes (vote_body true)
                  (world_after json_text at_midnight submitted)) =
  json (a_vote (new_vote (InsertGameVote.mk 1 2 "meme" true)
                         (db (world_after json_text at_midnight submitted)))).
Proof.
  assert (faults (world_after json_text at_midnight submitted) = []) as Hf
      by (vm_compute; reflexivity).
  assert (int4 (gameVotes_id_seq
                  (db (world_after json_text at_midnight submitted))) = true)
    as Hrange by (vm_compute; reflexivity).
  pose proof (CastVote_outcome (vote_body true)
                (InsertGameVote.mk 1 2 "meme" true)
                (world_after json_text at_midnight submitted)
                eq_refl eq_refl Hrange Hf) as H.
  cbv zeta in H.
  assert (has_voted
            (InsertGameVote.submissionId (InsertGameVote.mk 1 2 "meme" true))
            (InsertGameVote.voterId (InsertGameVote.mk 1 2 "meme" true))
            (db (world_after json_text at_midnight submitted)) = false) as E1
      by (vm_compute; reflexivity).
  assert (submission_exists
            (db (world_after json_text at_midnight submitted))
            (InsertGameVote.submissionId (InsertGameVote.mk 1 2 "meme" true))
          && user_exists (db (world_after json_text at_midnight submitted))
               (InsertGameVote.voterId (InsertGameVote.mk 1 2 "meme" true))
          = true) as E2 by (vm_compute; reflexivity).
  rewrite E1, E2 in H. exact (proj1 H).
Defined.

Lemma CreateRoom_outcome_witness :
  exists room,
    fst (post_rooms room_body (world_after json_text at_midnight two_users)) =
    json (a_room (Some room))
    /\ Room.hostId room = 1
    /\ Room.status room = "waiting".
Proof.
  assert (1 <> 0) as Hne by discriminate.
  assert (int4 (roomPlayers_id_seq
                  (db (world_after json_text at_midnight two_users))) = true)
    as Hrange by (vm_compute; reflexivity).
  pose proof (CreateRoom_outcome json_text at_midnight room_body
                (InsertRoom.mk "ABC123" (Some 5)) 1
                (world_after json_text at_midnight two_users)
                (reachable_world_after json_text at_midnight two_users)
                eq_refl eq_refl eq_refl Hne eq_refl Hrange
                no_fault_before_the_room) as H.
  cbv zeta in H.
  assert (room_exists (db (world_after json_text at_midnight two_users))
                      (InsertRoom.id (InsertRoom.mk "ABC123" (Some 5)))
          || negb (user_exists
                     (db (world_after json_text at_midnight two_users)) 1)
          = false) as E by (vm_compute; reflexivity).
  rewrite E in H. destruct H as (room & H1 & _ & H3 & H4 & _).
  exists room. repeat split; assumption.
Defined.

Lemma StartGame_refusals_witness :
  fst (post_rooms_start json_text "ABC123" (JObj [("hostId", JNum 2)])
                        (world_after json_text at_midnight lobby)) = Forbidden
  /\ db (snd (post_rooms_start json_text "ABC123" (JObj [("hostId", JNum 2)])
                               (world_after json_text at_midnight lobby))) =
     db (world_after json_text at_midnight lobby).
Proof.
  pose proof (StartGame_refusals json_text "ABC123"
                (JObj [("hostId", JNum 2)])
                (world_after json_text at_midnight lobby)
                eq_refl no_fault_in_the_lobby) as H.
  cbv zeta in H.
  change (destructure "hostId" (JObj [("hostId", JNum 2)]))
    with (Ret (JNum 2)) in H.
  rewrite room_in_the_lobby in H.
  assert (JNum 2 <> JNum (Room.hostId (the_room "waiting" None))) as Hne
      by discriminate.
  destruct (H Hne) as (H1 & H2 & _). split; assumption.
Defined.

(** ** Reading *)

Lemma GET_room_lists_every_player_witness :
  exists players,
    fst (get_room "ABC123" (world_after json_text at_midnight lobby)) =
    mkReply 200 (room_with_players (the_room "waiting" None) players)
    /\ Permutation (map fst players)
                   (joined "ABC123"
                           (db (world_after json_text at_midnight lobby))).
Proof.
  pose proof (GET_room_lists_every_player json_text at_midnight "ABC123"
                (world_after json_text at_midnight lobby)
                (reachable_world_after json_text at_midnight lobby)
                eq_refl no_fault_in_the_lobby) as H.
  cbv zeta in H. rewrite room_in_the_lobby in H.
  destruct H as (_ & _ & players & H1 & H2 & _).
  exists players. split; assumption.
Defined.

Lemma GET_user_outcome_witness :
  fst (get_user parseInt_unsigned "2"
                (world_after json_text at_midnight two_users)) =
  mkReply 200 (the_user (User.mk 2 "bob" "Bob")).
Proof.
  pose proof (GET_user_outcome json_text at_midnight parseInt_unsigned "2"
                (world_after json_text at_midnight two_users)
                (reachable_world_after json_text at_midnight two_users)
                no_fault_before_the_room) as H.
  change (parseInt_unsigned "2") with (Some 2) in H.
  change (int4 2) with true in H. cbv iota in H.
  assert (In (User.mk 2 "bob" "Bob")
             (users (db (world_after json_text at_midnight two_users)))) as Hin
      by (vm_compute; auto).
  destruct H as [_ [[_ Hnone] | (u & Hr & _ & _ & Huniq)]].
  - exfalso. exact (Hnone _ Hin eq_refl).
  - rewrite Hr. rewrite (Huniq _ Hin eq_refl). reflexivity.
Defined.

Lemma created_user_is_found_witness :
  fst (get_user parseInt_unsigned "3"
         (snd (post_users (user_body "cat" "Cat")
                          (world_after json_text at_midnight two_users)))) =
  mkReply 200
    (the_user (new_user (InsertUser.mk "cat" "Cat")
                        (db (world_after json_text at_midnight two_users)))).
Proof.
  assert (find_user (InsertUser.username (InsertUser.mk "cat" "Cat"))
                    (db (world_after json_text at_midnight two_users)) = None)
    as Hfree by (vm_compute; reflexivity).
  assert (parseInt_unsigned "3" =
          Some (users_id_seq (db (world_after json_text at_midnight two_users))))
    as Hid by (vm_compute; reflexivity).
  assert (int4 (users_id_seq (db (world_after json_text at_midnight two_users)))
          = true) as Hrange by (vm_compute; reflexivity).
  exact (proj2 (created_user_is_found json_text at_midnight parseInt_unsigned
                  (user_body "cat" "Cat") (InsertUser.mk "cat" "Cat") "3"
                  (world_after json_text at_midnight two_users)
                  (reachable_world_after json_text at_midnight two_users)
                  no_fault_before_the_room eq_refl eq_refl Hrange Hfree Hid)).
Defined.

Lemma GET_votes_lists_every_vote_witness :
  exists votes,
    fst (get_votes parseInt_unsigned "1"
                   (world_after json_text at_midnight voted)) =
    mkReply 200 (the_votes votes)
    /\ Permutation
         (map fst votes)
         (filter (fun v => GameVote.submissionId v =? 1)
                 (gameVotes (db (world_after json_text at_midnight voted)))).
Proof.
  assert (faults (world_after json_text at_midnight voted) = []) as Hf
      by (vm_compute; reflexivity).
  pose proof (GET_votes_lists_every_vote json_text at_midnight
                parseInt_unsigned "1"
                (world_after json_text at_midnight voted)
                (reachable_world_after json_text at_midnight voted) Hf) as H.
  change (parseInt_unsigned "1") with (Some 1) in H.
  change (int4 1) with true in H. cbv iota in H.
  destruct H as (_ & votes & H1 & H2 & _).
  exists votes. split; assumption.
Defined.

Lemma getSubmission_reads_the_first_of_the_round_witness :
  exists s,
    fst (post_submissions json_text submission_body
                          (world_after json_text at_midnight submitted)) =
    json (a_submission s)
    /\ fst (storage.getSubmission
              (GameSubmission.roomId s) (GameSubmission.round s)
              (db (snd (post_submissions json_text submission_body
                                         (world_after json_text at_midnight submitted))))) =
       Ret (Some (hd s (submissions_for
                          (GameSubmission.roomId s) (GameSubmission.round s)
                          (db (world_after json_text at_midnight submitted))))).
Proof.
  assert (is_error (fst (post_submissions json_text submission_body
                           (world_after json_text at_midnight submitted))) = false)
    as Hok by (vm_compute; reflexivity).
  exact (getSubmission_reads_the_first_of_the_round json_text submission_body
           (world_after json_text at_midnight submitted) Hok).
Defined.

(** ** Storage functions no route calls *)

Lemma deleteRoom_leaves_no_dangling_row_witness :
  storage.deleteRoom "ABC123" (db (world_after json_text at_midnight lobby)) =
  (Throw DbError, db (world_after json_text at_midnight lobby)).
Proof.
  pose proof (deleteRoom_leaves_no_dangling_row "ABC123"
                (db (world_after json_text at_midnight lobby))
                (reachable_integrity json_text at_midnight _
                   (reachable_world_after json_text at_midnight lobby))) as H.
  cbv zeta in H. apply (proj1 H). left.
  rewrite players_in_the_lobby. discriminate.
Defined.

Lemma leaveRoom_undoes_joinRoom_witness :
  roomPlayers
    (snd (storage.leaveRoom "ABC123" 2
            (snd (storage.joinRoom "ABC123" (JNum 2)
                    (db (world_after json_text at_midnight
                           (two_users ++ [http (POST_rooms room_body)]))))))) =
  roomPlayers
    (db (world_after json_text at_midnight (two_users ++ [http (POST_rooms room_body)]))).
Proof.
  set (d := db (world_after json_text at_midnight
                  (two_users ++ [http (POST_rooms room_body)]))).
  assert (joined "ABC123" d = [player 1 1]) as Hj by (vm_compute; reflexivity).
  assert (forall q, In q (joined "ABC123" d) -> RoomPlayer.userId q <> 2)
    as Hfresh.
  { rewrite Hj. intros q [<- | []]. discriminate. }
  assert (fst (storage.joinRoom "ABC123" (JNum 2) d) = Ret (player 2 2))
    as Hret by (vm_compute; reflexivity).
  pose proof (leaveRoom_undoes_joinRoom "ABC123" 2 d (player 2 2) Hfresh Hret)
    as H.
  cbv zeta in H. exact (proj1 H).
Defined.


(** ** The schemas *)

Lemma schemas_read_their_own_keys_witness :
  insertUserSchema
    (JObj [("id", JNum 99); ("username", JStr "ann");
           ("displayName", JStr "Ann")]) =
  insertUserSchema (user_body "ann" "Ann").
Proof.
  apply (schemas_read_their_own_keys "id" (JNum 99)
           [("username", JStr "ann"); ("displayName", JStr "Ann")]).
  intros [H | [H | []]]; discriminate H.
Defined.
